(** * The document upload and OCR pipeline of [components/FileUpload.tsx]

    A shallow embedding of the [FileUpload] component: the two Tesseract
    logger callbacks, [ocrImageFile], [ocrPdfDocument], [handleFile] and
    the handlers [onFileChange], [onDrop] and [removeFile], together with
    the part of the React state they write.

    Conventions of the embedding.
    - A JavaScript string is the list of its UTF-16 code units.
    - A JavaScript number is [Infinity], [-Infinity], [NaN] or the
      rational a binary64 number denotes; the arithmetic operators round
      their exact result to the nearest binary64 number, ties to even, with
      subnormal numbers and overflow, as IEEE 754 does.  The sign of zero
      is not kept.
    - The collaborators (pdf.js, Tesseract.js, the DOM canvas) are scripted:
      a script says, for every call the component makes, whether it resolves
      or rejects, which logger messages it sends and which text it returns.
      [worker.terminate()] and the React setters never throw.
    - [handleFile] is given with the operation it starts run to its end:
      what happens when no other handler runs while the operation awaits.
      For handlers that run in between, the two parts of [ocrImageFile]
      around the await of the recognition are given apart.  Timers are
      recorded, not run. *)

From Stdlib Require Import ZArith NArith QArith Qround Qpower List String Ascii Bool Lia.
From Stdlib Require Import Qfield DecimalString Sorted Lqa.
From Stdlib Require Qcanon.
Import ListNotations.

Set Implicit Arguments.
Close Scope Q_scope.

(* ===================================================================== *)
(** ** JavaScript strings *)
(* ===================================================================== *)

Module JsString.

(** A string is the sequence of its UTF-16 code units. *)
Definition t := list N.

(** Reads the UTF-8 bytes of a literal as code units (one, two and three
    byte sequences, which cover every literal of the component). *)
Fixpoint of_utf8 (bs : list N) : t :=
  match bs with
  | [] => []
  | b :: rest =>
      if (b <? 128)%N then b :: of_utf8 rest
      else if (b <? 224)%N then
        match rest with
        | c :: rest' => ((b - 192) * 64 + (c - 128))%N :: of_utf8 rest'
        | [] => [b]
        end
      else
        match rest with
        | c :: d :: rest' =>
            ((b - 224) * 4096 + (c - 128) * 64 + (d - 128))%N :: of_utf8 rest'
        | _ => b :: rest
        end
  end.

Definition str (s : string) : t :=
  of_utf8 (map N_of_ascii (list_ascii_of_string s)).

(** [a === b] on strings. *)
Fixpoint eqb (a b : t) : bool :=
  match a, b with
  | [], [] => true
  | x :: a', y :: b' => (x =? y)%N && eqb a' b'
  | _, _ => false
  end.

(** [s.startsWith(p)] *)
Fixpoint startsWith (s p : t) : bool :=
  match p, s with
  | [], _ => true
  | y :: p', x :: s' => (x =? y)%N && startsWith s' p'
  | _ :: _, [] => false
  end.

(** WhiteSpace and LineTerminator code units of ECMAScript, the ones
    [String.prototype.trim] strips. *)
Definition isWhiteSpace (c : N) : bool :=
  ((9 <=? c) && (c <=? 13) || (c =? 32) || (c =? 160) || (c =? 5760)
   || (8192 <=? c) && (c <=? 8202) || (c =? 8232) || (c =? 8233)
   || (c =? 8239) || (c =? 8287) || (c =? 12288) || (c =? 65279))%N.

Fixpoint trimStart (s : t) : t :=
  match s with
  | [] => []
  | c :: s' => if isWhiteSpace c then trimStart s' else s
  end.

Definition trimEnd (s : t) : t := rev (trimStart (rev s)).

(** [s.trim()] *)
Definition trim (s : t) : t := trimEnd (trimStart s).

(** Decimal rendering of an integer, as a template literal prints it. *)
Definition of_Z (z : Z) : t := str (NilZero.string_of_int (Z.to_int z)).

End JsString.

Definition jsstring : Type := JsString.t.
Definition str : string -> jsstring := JsString.str.

(* ===================================================================== *)
(** ** JavaScript numbers *)
(* ===================================================================== *)

Module JsNumber.

Local Open Scope Q_scope.

Inductive t : Type :=
| Num (q : Q)
| PosInf
| NegInf
| NaN.

(** *** Rounding to binary64

    A finite number is the rational it denotes.  The arithmetic operators
    compute the exact result and round it to the nearest binary64 number,
    a tie going to the even significand, as IEEE 754 has it. *)

(** The nearest integer, a tie going to the even one. *)
Definition rne (q : Q) : Z :=
  let f := Qfloor q in
  match Qcompare (q - inject_Z f) (1 # 2) with
  | Lt => f
  | Gt => (f + 1)%Z
  | Eq => if Z.even f then f else (f + 1)%Z
  end.

Definition pow2 (e : Z) : Q := 2 ^ e.

(** The binary exponent of [q > 0]: [2 ^ ilog2 q <= q < 2 ^ (ilog2 q + 1)]. *)
Definition ilog2 (q : Q) : Z :=
  let e := (Z.log2 (Qnum q) - Z.log2 (Zpos (Qden q)))%Z in
  if Qle_bool (pow2 e) q then e else (e - 1)%Z.

(** The exponent of the unit in the last place at [q > 0]: 53 significant
    bits, and [2 ^ -1074] for the subnormal numbers. *)
Definition grid (q : Q) : Z := Z.max (ilog2 q - 52) (-1074).

(** The multiple of the unit in the last place nearest to [q > 0]. *)
Definition nearest (q : Q) : Q :=
  inject_Z (rne (q / pow2 (grid q))) * pow2 (grid q).

(** The Number value of the real number [q]: what rounds to [2 ^ 1024]
    or beyond is an infinity.  Finite results are kept in lowest terms, so
    that equal numbers are equal terms. *)
Definition fin (q : Q) : t :=
  match Qcompare q 0 with
  | Eq => Num 0
  | Gt => if Qle_bool (pow2 1024) (nearest q) then PosInf
          else Num (Qred (nearest q))
  | Lt => if Qle_bool (pow2 1024) (nearest (- q)) then NegInf
          else Num (Qred (- nearest (- q)))
  end.

(** The Number value of a decimal literal such as [0.1]. *)
Definition lit (q : Q) : t := fin q.

Definition of_Z (z : Z) : t := Num (inject_Z z).
(** A count; below [2 ^ 53] a Number holds it as it is. *)
Definition of_nat (n : nat) : t := of_Z (Z.of_nat n).

Definition sign (q : Q) : comparison := (Qnum q ?= 0)%Z.

(** [a * b] *)
Definition mul (a b : t) : t :=
  match a, b with
  | NaN, _ | _, NaN => NaN
  | Num x, Num y => fin (x * y)
  | Num x, PosInf | PosInf, Num x =>
      match sign x with Gt => PosInf | Lt => NegInf | Eq => NaN end
  | Num x, NegInf | NegInf, Num x =>
      match sign x with Gt => NegInf | Lt => PosInf | Eq => NaN end
  | PosInf, PosInf | NegInf, NegInf => PosInf
  | PosInf, NegInf | NegInf, PosInf => NegInf
  end.

(** [a + b] *)
Definition add (a b : t) : t :=
  match a, b with
  | NaN, _ | _, NaN => NaN
  | Num x, Num y => fin (x + y)
  | PosInf, NegInf | NegInf, PosInf => NaN
  | PosInf, _ | _, PosInf => PosInf
  | NegInf, _ | _, NegInf => NegInf
  end.

(** [a - b] *)
Definition sub (a b : t) : t :=
  match a, b with
  | NaN, _ | _, NaN => NaN
  | Num x, Num y => fin (x - y)
  | PosInf, PosInf | NegInf, NegInf => NaN
  | PosInf, _ | _, NegInf => PosInf
  | NegInf, _ | _, PosInf => NegInf
  end.

(** [a / b]; a finite nonzero number over zero is an infinity, [0 / 0]
    is [NaN]. *)
Definition div (a b : t) : t :=
  match a, b with
  | NaN, _ | _, NaN => NaN
  | Num x, Num y =>
      match sign y with
      | Eq => match sign x with Gt => PosInf | Lt => NegInf | Eq => NaN end
      | _ => fin (x / y)
      end
  | Num _, _ => of_Z 0
  | PosInf, Num y => match sign y with Lt => NegInf | _ => PosInf end
  | NegInf, Num y => match sign y with Lt => PosInf | _ => NegInf end
  | _, _ => NaN
  end.

(** The integer [Math.round] returns on a finite number: the nearest
    one, a tie going up. *)
Definition round_Z (q : Q) : Z := Qfloor (q + (1 # 2)).

(** [Math.round(a)] *)
Definition round (a : t) : t :=
  match a with
  | Num q => of_Z (round_Z q)
  | other => other
  end.

(** [Math.min(a, b)] *)
Definition min (a b : t) : t :=
  match a, b with
  | NaN, _ | _, NaN => NaN
  | NegInf, _ | _, NegInf => NegInf
  | PosInf, other | other, PosInf => other
  | Num x, Num y => if Qle_bool x y then a else b
  end.

(** [a < b] *)
Definition ltb (a b : t) : bool :=
  match a, b with
  | NaN, _ | _, NaN => false
  | Num x, Num y => negb (Qle_bool y x)
  | NegInf, NegInf => false
  | NegInf, _ => true
  | _, PosInf => match a with PosInf => false | _ => true end
  | _, _ => false
  end.

(** [a || 0] for an optional number: [undefined], [0] and [NaN] are
    falsy. *)
Definition or_zero (a : option t) : t :=
  match a with
  | None => of_Z 0
  | Some NaN => of_Z 0
  | Some (Num q) => match sign q with Eq => of_Z 0 | _ => Num q end
  | Some other => other
  end.

(** *** Printing

    [Number::toString] prints a whole number with the fewest digits that
    still denote it, followed by zeros up to its length; from [10 ^ 21] on
    it prints these digits in exponent notation. *)

(** Whether the decimal [s * 10 ^ e] denotes the number [v]. *)
Definition denotes (v s e : Z) : bool :=
  match fin (inject_Z (s * 10 ^ e)) with
  | Num q => Qeq_bool q (inject_Z v)
  | _ => false
  end.

(** The significand with [k] digits, [k + 1], .. that denotes [v], a
    number of [n] digits: the one nearest to [v] of the two next to it. *)
Fixpoint shortest (fuel : nat) (v n k : Z) : option (Z * Z) :=
  match fuel with
  | O => None
  | S fuel' =>
      let e := (n - k)%Z in
      let lo := (v / 10 ^ e)%Z in
      let hi := (lo + 1)%Z in
      let down := (v - lo * 10 ^ e)%Z in
      let up := (hi * 10 ^ e - v)%Z in
      match denotes v lo e, denotes v hi e && (hi <? 10 ^ k)%Z with
      | true, true =>
          Some (k, if (down <? up)%Z then lo
                   else if (up <? down)%Z then hi
                   else if Z.even lo then lo else hi)
      | true, false => Some (k, lo)
      | false, true => Some (k, hi)
      | false, false => shortest fuel' v n (k + 1)%Z
      end
  end.

(** The digits [ds] of a significand for a number of [n] digits. *)
Definition show_digits (ds : jsstring) (n : Z) : jsstring :=
  if (n <=? 21)%Z then
    ds ++ repeat 48%N (Z.to_nat n - List.length ds)
  else
    match ds with
    | d :: [] => d :: str "e+" ++ JsString.of_Z (n - 1)
    | d :: rest => d :: str "." ++ rest ++ str "e+" ++ JsString.of_Z (n - 1)
    | [] => []
    end.

(** The text of a whole number [v >= 0]; the next power of ten can be
    what denotes it. *)
Definition show_nonneg (v : Z) : jsstring :=
  let n := Z.of_nat (List.length (JsString.of_Z v)) in
  if denotes v 1 n then show_digits (str "1") (n + 1)
  else
    match shortest 17 v n 1 with
    | Some (_, s) => show_digits (JsString.of_Z s) n
    | None => JsString.of_Z v
    end.

(** The text of a whole number. *)
Definition show_whole (v : Z) : jsstring :=
  if (v <? 0)%Z then str "-" ++ show_nonneg (- v) else show_nonneg v.

(** The text of [`${Math.round(a)}`]. *)
Definition show_round (a : t) : jsstring :=
  match a with
  | Num q => show_whole (round_Z q)
  | PosInf => str "Infinity"
  | NegInf => str "-Infinity"
  | NaN => str "NaN"
  end.

(** Order on numbers, where it is one: [NaN] compares with nothing. *)
Definition le (a b : t) : Prop :=
  match a, b with
  | NaN, _ | _, NaN => False
  | NegInf, _ | _, PosInf => True
  | Num x, Num y => x <= y
  | _, _ => False
  end.

End JsNumber.

Definition number : Type := JsNumber.t.

(* ===================================================================== *)
(** ** Data of the component *)
(* ===================================================================== *)

(** [StatusType] and [StatusMessage] of [types.ts]. *)
Inductive StatusType : Type := success | error | info | warning.

Record StatusMessage : Type := {
  text : jsstring;
  type : StatusType
}.

(** The fields of a DOM [File] the component reads. *)
Record File : Type := {
  file_name : jsstring;
  file_type : jsstring;
  file_size : N
}.

(** [TesseractProgressUpdate]: [progress] is optional. *)
Record TesseractProgressUpdate : Type := {
  status : jsstring;
  progress : option number
}.

(** The object held by [ocrPageProgressDataRef.current]. *)
Record PageProgressData : Type := {
  currentPage : nat;
  totalPages : nat;
  baseProgress : number;
  pageBudget : number
}.

(** A [Tesseract.Worker] handle. *)
Inductive Worker : Type := TheWorker.

(** What an operation does to the outside, and every React setter call. *)
Inductive Effect : Type :=
| EArrayBuffer                         (* file.arrayBuffer() *)
| EGetDocument                         (* pdfjsLib.getDocument(..).promise *)
| ECreateWorker (created : bool)       (* Tesseract.createWorker(..) *)
| ERecognize                           (* worker.recognize(..) *)
| ETerminate                           (* worker.terminate() *)
| EGetPage (i : nat)                   (* pdfDoc.getPage(i) *)
| ERender (i : nat)                    (* page.render(..).promise *)
| ECleanup (i : nat)                   (* page.cleanup() *)
| EConsoleError
| EClearStatusAfter (delay : option Z) (* clearStatusMessageAfterDelay(..) *)
| ESetProgress (v : number)            (* setProcessingProgress *)
| ESetMessage (m : jsstring)           (* setProcessingMessage *)
| ESetRawText (s : jsstring)           (* setRawExtractedText *)
| ESetStatus (m : StatusMessage)       (* setStatusMessage *)
| ESetLoading (b : bool)               (* setIsLoading *)
| ESetCurrentFile (f : option File).   (* setCurrentFile *)

(** The state an operation reads and writes: the React state of
    [AppContext] and of [FileUpload], the ref, the two [let] variables of
    the running operation, and the effects so far, oldest first. *)
Record Machine : Type := {
  rawExtractedText : jsstring;
  isLoading : bool;
  statusMessage : option StatusMessage;
  currentFile : option File;
  processingProgress : number;
  processingMessage : jsstring;
  ocrPageProgressDataRef : PageProgressData;
  worker : option Worker;
  fullText : jsstring;
  trace : list Effect
}.

(** *** Scripts of the collaborators *)

(** How a promise settles; a rejection carries the text that
    [error instanceof Error ? error.message : String(error)] yields. *)
Inductive Settled (A : Type) : Type :=
| Resolved (a : A)
| Rejected (detail : jsstring).
Arguments Rejected {A} detail.

(** [Tesseract.createWorker]: the messages it logs, then how it settles. *)
Record WorkerScript : Type := {
  create_messages : list TesseractProgressUpdate;
  create_settles : Settled unit
}.

(** [worker.recognize]: the messages it logs, then [data.text] or a
    rejection. *)
Record RecognizeScript : Type := {
  recognize_messages : list TesseractProgressUpdate;
  recognize_settles : Settled jsstring
}.

(** One page of a parsed PDF. *)
Record PageScript : Type := {
  getPage_settles : Settled unit;
  getContext_2d : bool;                 (* false: getContext('2d') is null *)
  render_settles : Settled unit;
  page_recognize : RecognizeScript
}.

(** A PDF file: the parsed handle is the list of its pages, and
    [numPages] its length. *)
Record PdfScript : Type := {
  arrayBuffer_settles : Settled unit;
  getDocument_settles : Settled (list PageScript);
  pdf_createWorker : WorkerScript
}.

(** An image file. *)
Record ImageScript : Type := {
  image_createWorker : WorkerScript;
  image_recognize : RecognizeScript
}.

(* ===================================================================== *)
(** ** Statements that complete normally or throw *)
(* ===================================================================== *)

Inductive Completion (A : Type) : Type :=
| Normal (a : A)
| Throw (detail : jsstring).
Arguments Throw {A} detail.

Definition M (A : Type) : Type := Machine -> Completion A * Machine.

Definition ret {A : Type} (a : A) : M A := fun st => (Normal a, st).

Definition bind {A B : Type} (c : M A) (k : A -> M B) : M B :=
  fun st =>
    match c st with
    | (Normal a, st') => k a st'
    | (Throw e, st') => (Throw e, st')
    end.

Definition throw {A : Type} (detail : jsstring) : M A :=
  fun st => (Throw detail, st).

(** A statement that cannot throw. *)
Definition act (f : Machine -> Machine) : M unit :=
  fun st => (Normal tt, f st).

(** [await] of a scripted promise. *)
Definition await {A : Type} (p : Settled A) : M A :=
  match p with
  | Resolved a => ret a
  | Rejected e => throw e
  end.

(** [try { body } catch (error) { handler } finally { closing }] *)
Definition try_catch_finally (body : M unit) (handler : jsstring -> M unit)
    (closing : M unit) : M unit :=
  fun st =>
    let (r, st1) :=
      match body st with
      | (Normal tt, st') => (Normal tt, st')
      | (Throw e, st') => handler e st'
      end in
    match closing st1 with
    | (Normal tt, st2) => (r, st2)
    | (Throw e, st2) => (Throw e, st2)
    end.

Declare Scope js_scope.
Delimit Scope js_scope with js.
Notation "x <- c ;; k" := (bind c (fun x => k))
  (at level 61, c at next level, right associativity) : js_scope.
Notation "c ;; k" := (bind c (fun _ => k))
  (at level 61, right associativity) : js_scope.
Open Scope js_scope.

(** The state an async function leaves when its promise settles. *)
Definition exec {A : Type} (c : M A) (st : Machine) : Machine := snd (c st).

(* ===================================================================== *)
(** ** Writing the state *)
(* ===================================================================== *)

Definition record (e : Effect) (st : Machine) : Machine :=
  {| rawExtractedText := rawExtractedText st;
     isLoading := isLoading st;
     statusMessage := statusMessage st;
     currentFile := currentFile st;
     processingProgress := processingProgress st;
     processingMessage := processingMessage st;
     ocrPageProgressDataRef := ocrPageProgressDataRef st;
     worker := worker st;
     fullText := fullText st;
     trace := trace st ++ [e] |}.

Definition setRawExtractedText (s : jsstring) (st : Machine) : Machine :=
  record (ESetRawText s)
  {| rawExtractedText := s;
     isLoading := isLoading st;
     statusMessage := statusMessage st;
     currentFile := currentFile st;
     processingProgress := processingProgress st;
     processingMessage := processingMessage st;
     ocrPageProgressDataRef := ocrPageProgressDataRef st;
     worker := worker st;
     fullText := fullText st;
     trace := trace st |}.

Definition setIsLoading (b : bool) (st : Machine) : Machine :=
  record (ESetLoading b)
  {| rawExtractedText := rawExtractedText st;
     isLoading := b;
     statusMessage := statusMessage st;
     currentFile := currentFile st;
     processingProgress := processingProgress st;
     processingMessage := processingMessage st;
     ocrPageProgressDataRef := ocrPageProgressDataRef st;
     worker := worker st;
     fullText := fullText st;
     trace := trace st |}.

Definition setStatusMessage (m : StatusMessage) (st : Machine) : Machine :=
  record (ESetStatus m)
  {| rawExtractedText := rawExtractedText st;
     isLoading := isLoading st;
     statusMessage := Some m;
     currentFile := currentFile st;
     processingProgress := processingProgress st;
     processingMessage := processingMessage st;
     ocrPageProgressDataRef := ocrPageProgressDataRef st;
     worker := worker st;
     fullText := fullText st;
     trace := trace st |}.

Definition setCurrentFile (f : option File) (st : Machine) : Machine :=
  record (ESetCurrentFile f)
  {| rawExtractedText := rawExtractedText st;
     isLoading := isLoading st;
     statusMessage := statusMessage st;
     currentFile := f;
     processingProgress := processingProgress st;
     processingMessage := processingMessage st;
     ocrPageProgressDataRef := ocrPageProgressDataRef st;
     worker := worker st;
     fullText := fullText st;
     trace := trace st |}.

Definition setProcessingProgress (v : number) (st : Machine) : Machine :=
  record (ESetProgress v)
  {| rawExtractedText := rawExtractedText st;
     isLoading := isLoading st;
     statusMessage := statusMessage st;
     currentFile := currentFile st;
     processingProgress := v;
     processingMessage := processingMessage st;
     ocrPageProgressDataRef := ocrPageProgressDataRef st;
     worker := worker st;
     fullText := fullText st;
     trace := trace st |}.

Definition setProcessingMessage (m : jsstring) (st : Machine) : Machine :=
  record (ESetMessage m)
  {| rawExtractedText := rawExtractedText st;
     isLoading := isLoading st;
     statusMessage := statusMessage st;
     currentFile := currentFile st;
     processingProgress := processingProgress st;
     processingMessage := m;
     ocrPageProgressDataRef := ocrPageProgressDataRef st;
     worker := worker st;
     fullText := fullText st;
     trace := trace st |}.

(** [ocrPageProgressDataRef.current = d], and the assignments to its
    fields. *)
Definition set_ref (d : PageProgressData) (st : Machine) : Machine :=
  {| rawExtractedText := rawExtractedText st;
     isLoading := isLoading st;
     statusMessage := statusMessage st;
     currentFile := currentFile st;
     processingProgress := processingProgress st;
     processingMessage := processingMessage st;
     ocrPageProgressDataRef := d;
     worker := worker st;
     fullText := fullText st;
     trace := trace st |}.

Definition set_worker (w : option Worker) (st : Machine) : Machine :=
  {| rawExtractedText := rawExtractedText st;
     isLoading := isLoading st;
     statusMessage := statusMessage st;
     currentFile := currentFile st;
     processingProgress := processingProgress st;
     processingMessage := processingMessage st;
     ocrPageProgressDataRef := ocrPageProgressDataRef st;
     worker := w;
     fullText := fullText st;
     trace := trace st |}.

Definition set_fullText (s : jsstring) (st : Machine) : Machine :=
  {| rawExtractedText := rawExtractedText st;
     isLoading := isLoading st;
     statusMessage := statusMessage st;
     currentFile := currentFile st;
     processingProgress := processingProgress st;
     processingMessage := processingMessage st;
     ocrPageProgressDataRef := ocrPageProgressDataRef st;
     worker := worker st;
     fullText := s;
     trace := trace st |}.

(** [clearStatusMessageAfterDelay(delay)] of [AppContext]: it only arms
    a timer. *)
Definition clearStatusMessageAfterDelay (delay : option Z) : Machine -> Machine :=
  record (EClearStatusAfter delay).

(** The initial React state of [AppProvider] and [FileUpload]. *)
Definition initial : Machine :=
  {| rawExtractedText := [];
     isLoading := false;
     statusMessage := None;
     currentFile := None;
     processingProgress := JsNumber.of_Z 0;
     processingMessage := [];
     ocrPageProgressDataRef :=
       {| currentPage := 0; totalPages := 0;
          baseProgress := JsNumber.of_Z 0; pageBudget := JsNumber.of_Z 0 |};
     worker := None;
     fullText := [];
     trace := [] |}.

(* ===================================================================== *)
(** ** The component *)
(* ===================================================================== *)

Section FileUpload.

(** The value of [processingMessage] in the render whose closures are
    running: the loggers compare against it, and it does not change
    while the operation runs. *)
Variable renderedMessage : jsstring.

Definition is_loading_status (s : jsstring) : bool :=
  JsString.eqb s (str "loading tesseract core")
  || JsString.eqb s (str "initializing api")
  || JsString.eqb s (str "loading language traineddata")
  || JsString.eqb s (str "initializing tesseract").

Definition hundred : number := JsNumber.of_Z 100.
Definition one : number := JsNumber.of_Z 1.

(** Logger for single image file OCR. *)
Definition imageOcrLogger (m : TesseractProgressUpdate) (st : Machine) : Machine :=
  match JsString.eqb (status m) (str "recognizing text"), progress m with
  | true, Some p =>
      let st := setProcessingProgress (JsNumber.round (JsNumber.mul p hundred)) st in
      setProcessingMessage
        (str "Reconhecendo texto... "
         ++ JsNumber.show_round (JsNumber.mul p hundred) ++ str "%") st
  | recognizing, _ =>
      if is_loading_status (status m) then
        if negb (JsString.eqb renderedMessage
                   (str "Reconhecendo texto... "
                    ++ JsNumber.show_round
                         (JsNumber.mul (JsNumber.or_zero (progress m)) hundred)
                    ++ str "%"))
           && JsNumber.ltb (JsNumber.or_zero (progress m)) one
        then setProcessingMessage (str "Inicializando OCR: " ++ status m) st
        else st
      else if negb (JsString.eqb (status m) (str "initialized api"))
              && negb (JsString.eqb (status m) (str "loaded language traineddata"))
              && JsNumber.ltb (JsNumber.or_zero (progress m)) one
      then
        if negb recognizing then setProcessingMessage (status m) st else st
      else st
  end.

(** The text of
    [`Analisando página ${currentPage}/${totalPages} (Progresso OCR: ${..}%)...`]. *)
Definition analysing_message (d : PageProgressData) (fraction : number) : jsstring :=
  str "Analisando página " ++ JsString.of_Z (Z.of_nat (currentPage d))
  ++ str "/" ++ JsString.of_Z (Z.of_nat (totalPages d))
  ++ str " (Progresso OCR: "
  ++ JsNumber.show_round (JsNumber.mul fraction hundred) ++ str "%)...".

(** Logger for PDF page-by-page OCR. *)
Definition pageAwarePdfOcrLogger (m : TesseractProgressUpdate) (st : Machine)
    : Machine :=
  let d := ocrPageProgressDataRef st in
  match JsString.eqb (status m) (str "recognizing text"), progress m with
  | true, Some p =>
      let currentPageProgress := JsNumber.round (JsNumber.mul p (pageBudget d)) in
      let overallProgress :=
        JsNumber.min hundred
          (JsNumber.round (JsNumber.add (baseProgress d) currentPageProgress)) in
      let st := setProcessingProgress overallProgress st in
      setProcessingMessage (analysing_message d p) st
  | recognizing, _ =>
      if is_loading_status (status m) then
        if negb (JsString.eqb renderedMessage
                   (analysing_message d (JsNumber.or_zero (progress m))))
           && JsNumber.ltb (JsNumber.or_zero (progress m)) one
        then setProcessingMessage
               (str "Inicializando OCR para página "
                ++ JsString.of_Z (Z.of_nat (currentPage d))
                ++ str ": " ++ status m) st
        else st
      else if negb (JsString.eqb (status m) (str "initialized api"))
              && negb (JsString.eqb (status m) (str "loaded language traineddata"))
              && JsNumber.ltb (JsNumber.or_zero (progress m)) one
      then
        if negb recognizing
        then setProcessingMessage
               (str "Status OCR pág. "
                ++ JsString.of_Z (Z.of_nat (currentPage d))
                ++ str ": " ++ status m) st
        else st
      else st
  end.

(** The worker hands each message of a call to the logger it was
    created with, in order. *)
Definition deliver (logger : TesseractProgressUpdate -> Machine -> Machine)
    (ms : list TesseractProgressUpdate) (st : Machine) : Machine :=
  fold_left (fun s m => logger m s) ms st.

(** [initializeTesseractWorker(loggerCallback)] *)
Definition initializeTesseractWorker
    (loggerCallback : TesseractProgressUpdate -> Machine -> Machine)
    (w : WorkerScript) : M Worker :=
  act (deliver loggerCallback (create_messages w)) ;;
  match create_settles w with
  | Resolved _ => act (record (ECreateWorker true)) ;; ret TheWorker
  | Rejected e => act (record (ECreateWorker false)) ;; throw e
  end.

(** [worker.recognize(..)] on a worker created with [logger]. *)
Definition recognize (logger : TesseractProgressUpdate -> Machine -> Machine)
    (r : RecognizeScript) : M jsstring :=
  act (record ERecognize) ;;
  act (deliver logger (recognize_messages r)) ;;
  await (recognize_settles r).

(** [worker.terminate()] *)
Definition terminate : M unit := act (record ETerminate).

(** [if (worker) await worker.terminate();] *)
Definition terminate_if_live : M unit :=
  fun st =>
    match worker st with
    | Some _ => terminate st
    | None => ret tt st
    end.

Definition zero : number := JsNumber.of_Z 0.
Definition newline : jsstring := [10%N].

(** The [finally] block of [ocrImageFile]. *)
Definition image_finally : M unit :=
  act (setIsLoading false) ;;
  act (setProcessingMessage []) ;;
  act (setProcessingProgress zero).

(** The statements of the [try] block after [worker.recognize]. *)
Definition image_finish (resultText : jsstring) : M unit :=
  terminate ;;
  act (set_worker None) ;;
  if JsString.eqb (JsString.trim resultText) [] then
    act (setRawExtractedText []) ;;
    act (setStatusMessage
           {| text := str "OCR concluído, mas nenhum texto foi detectado na imagem.";
              type := warning |})
  else
    act (setRawExtractedText resultText) ;;
    act (setStatusMessage
           {| text := str "Texto da imagem extraído com OCR com sucesso!";
              type := success |}) ;;
    act (clearStatusMessageAfterDelay None).

(** The [try] block of [ocrImageFile]. *)
Definition image_try (file : ImageScript) : M unit :=
  w <- initializeTesseractWorker imageOcrLogger (image_createWorker file) ;;
  act (set_worker (Some w)) ;;
  resultText <- recognize imageOcrLogger (image_recognize file) ;;
  image_finish resultText.

(** The [catch] block of [ocrImageFile]. *)
Definition image_catch (e : jsstring) : M unit :=
  act (record EConsoleError) ;;
  act (setRawExtractedText []) ;;
  act (setStatusMessage
         {| text := str "Falha ao processar imagem com OCR: " ++ e;
            type := error |}) ;;
  terminate_if_live.

Definition ocrImageFile (file : ImageScript) : M unit :=
  act (setProcessingMessage (str "Processando Imagem (OCR)...")) ;;
  act (setProcessingProgress zero) ;;
  act (set_worker None) ;;
  try_catch_finally (image_try file) image_catch image_finally.

(** The object assigned to the ref once the PDF is parsed. *)
Definition parsed_ref (numPages : nat) : PageProgressData :=
  {| currentPage := 0;
     totalPages := numPages;
     baseProgress := zero;
     pageBudget := JsNumber.div hundred (JsNumber.of_nat numPages) |}.

(** [((i - 1) / pdfDoc.numPages) * 100] *)
Definition base_of_page (numPages i : nat) : number :=
  JsNumber.mul
    (JsNumber.div (JsNumber.sub (JsNumber.of_nat i) one) (JsNumber.of_nat numPages))
    hundred.

(** The first statements of the loop body, up to the render-start
    progress update. *)
Definition start_page (numPages i : nat) (st : Machine) : Machine :=
  let d := ocrPageProgressDataRef st in
  let d := {| currentPage := i; totalPages := totalPages d;
              baseProgress := baseProgress d; pageBudget := pageBudget d |} in
  let d := {| currentPage := currentPage d; totalPages := totalPages d;
              baseProgress := base_of_page numPages i;
              pageBudget := pageBudget d |} in
  let st := set_ref d st in
  let st := setProcessingMessage
              (str "Renderizando página " ++ JsString.of_Z (Z.of_nat i)
               ++ str "/" ++ JsString.of_Z (Z.of_nat numPages)
               ++ str " do PDF...") st in
  setProcessingProgress
    (JsNumber.round
       (JsNumber.add (baseProgress d)
          (JsNumber.mul (pageBudget d) (JsNumber.lit (1 # 10))))) st.

(** One iteration of the [for] loop of [ocrPdfDocument]. *)
Definition ocrPage (numPages i : nat) (p : PageScript) : M unit :=
  act (start_page numPages i) ;;
  act (record (EGetPage i)) ;;
  await (getPage_settles p) ;;
  (if getContext_2d p then ret tt
   else throw (str "Não foi possível obter o contexto 2D do canvas.")) ;;
  act (record (ERender i)) ;;
  await (render_settles p) ;;
  act (setProcessingMessage
         (str "Analisando página " ++ JsString.of_Z (Z.of_nat i)
          ++ str "/" ++ JsString.of_Z (Z.of_nat numPages)
          ++ str " com OCR...")) ;;
  pageText <- recognize pageAwarePdfOcrLogger (page_recognize p) ;;
  act (fun st => set_fullText (fullText st ++ pageText ++ newline) st) ;;
  act (record (ECleanup i)).

(** [for (let i = ..; i <= pdfDoc.numPages; i++)], from page [i] on;
    [pages] are the pages [i], [i + 1], .., [numPages]. *)
Fixpoint ocrPages (numPages i : nat) (pages : list PageScript) : M unit :=
  match pages with
  | [] => ret tt
  | p :: rest => ocrPage numPages i p ;; ocrPages numPages (S i) rest
  end.

Definition reset_ref : PageProgressData :=
  {| currentPage := 0; totalPages := 0; baseProgress := zero; pageBudget := zero |}.

(** The [finally] block of [ocrPdfDocument]. *)
Definition pdf_finally : M unit :=
  act (setIsLoading false) ;;
  act (setProcessingMessage []) ;;
  act (setProcessingProgress zero) ;;
  act (set_ref reset_ref).

(** The statements of the [try] block after the loop. *)
Definition pdf_finish : M unit :=
  terminate ;;
  act (set_worker None) ;;
  fun st =>
    if JsString.eqb (JsString.trim (fullText st)) [] then
      (act (setRawExtractedText []) ;;
       act (setStatusMessage
              {| text := str "OCR do PDF concluído, mas nenhum texto foi detectado.";
                 type := warning |})) st
    else
      (act (setRawExtractedText (JsString.trim (fullText st))) ;;
       act (setStatusMessage
              {| text := str "Texto do PDF extraído com OCR com sucesso!";
                 type := success |}) ;;
       act (clearStatusMessageAfterDelay None)) st.

Definition pdf_catch (e : jsstring) : M unit :=
  act (record EConsoleError) ;;
  act (setRawExtractedText []) ;;
  act (setStatusMessage
         {| text := str "Falha ao processar PDF com OCR: " ++ e; type := error |}) ;;
  terminate_if_live.

(** The [try] block of [ocrPdfDocument]. *)
Definition pdf_try (file : PdfScript) : M unit :=
  act (record EArrayBuffer) ;;
  await (arrayBuffer_settles file) ;;
  act (record EGetDocument) ;;
  pdfDoc <- await (getDocument_settles file) ;;
  act (set_ref (parsed_ref (List.length pdfDoc))) ;;
  w <- initializeTesseractWorker pageAwarePdfOcrLogger (pdf_createWorker file) ;;
  act (set_worker (Some w)) ;;
  ocrPages (List.length pdfDoc) 1 pdfDoc ;;
  pdf_finish.

Definition ocrPdfDocument (file : PdfScript) : M unit :=
  act (setProcessingMessage (str "Iniciando processamento OCR do PDF...")) ;;
  act (setProcessingProgress zero) ;;
  act (set_worker None) ;;
  act (set_fullText []) ;;
  try_catch_finally (pdf_try file) pdf_catch pdf_finally.

(** What a dropped or chosen file is for the collaborators, whichever
    way the component treats it. *)
Record FileScript : Type := {
  as_pdf : PdfScript;
  as_image : ImageScript
}.

(** [handleFile], with the operation it starts run to its end.  The
    handler does not await the operation: this is the state once the
    operation has ended, when no other handler ran in the meantime. *)
Definition handleFile (selectedFile : option File) (content : FileScript)
    (st : Machine) : Machine :=
  match selectedFile with
  | Some f =>
      let st := setIsLoading true st in
      let st := setCurrentFile (Some f) st in
      let st := setRawExtractedText [] st in
      let st := setStatusMessage
                  {| text := str "Carregando arquivo: " ++ file_name f;
                     type := info |} st in
      let st := clearStatusMessageAfterDelay (Some 2000%Z) st in
      if JsString.eqb (file_type f) (str "application/pdf") then
        exec (ocrPdfDocument (as_pdf content)) st
      else if JsString.startsWith (file_type f) (str "image/") then
        exec (ocrImageFile (as_image content)) st
      else
        let st := setStatusMessage
                    {| text := str "Tipo de arquivo não suportado. Use PDF ou Imagem.";
                       type := warning |} st in
        let st := clearStatusMessageAfterDelay None st in
        let st := setIsLoading false st in
        setCurrentFile None st
  | None => st
  end.

End FileUpload.

(* ===================================================================== *)
(** ** What the statements talk about *)
(* ===================================================================== *)

(** The values passed to [setProcessingProgress], oldest first. *)
Fixpoint progress_values (t : list Effect) : list number :=
  match t with
  | [] => []
  | ESetProgress v :: t' => v :: progress_values t'
  | _ :: t' => progress_values t'
  end.

(** How many times [worker.terminate()] was called. *)
Fixpoint terminations (t : list Effect) : nat :=
  match t with
  | [] => 0
  | ETerminate :: t' => S (terminations t')
  | _ :: t' => terminations t'
  end.

(** How many workers [Tesseract.createWorker] handed out. *)
Fixpoint creations (t : list Effect) : nat :=
  match t with
  | [] => 0
  | ECreateWorker true :: t' => S (creations t')
  | _ :: t' => creations t'
  end.

(** The effects that only feed the progress display. *)
Definition is_display (e : Effect) : Prop :=
  match e with
  | ESetProgress _ | ESetMessage _ => True
  | _ => False
  end.

(** The effects that allocate or use a resource: a call to pdf.js or to
    Tesseract. *)
Definition is_resource (e : Effect) : bool :=
  match e with
  | EArrayBuffer | EGetDocument | ECreateWorker _ | ERecognize | ETerminate
  | EGetPage _ | ERender _ | ECleanup _ => true
  | _ => false
  end.

(** A call of [setProcessingProgress] or [setProcessingMessage]: a
    progress event. *)
Definition is_progress (e : Effect) : bool :=
  match e with
  | ESetProgress _ | ESetMessage _ => true
  | _ => false
  end.


(** The outcome the user is shown: the type of the status message. *)
Definition outcome (st : Machine) : option StatusType :=
  option_map type (statusMessage st).

(** A step that writes nothing but [processingProgress] and
    [processingMessage]. *)
Record display_step (st st' : Machine) : Prop := {
  ds_raw : rawExtractedText st' = rawExtractedText st;
  ds_loading : isLoading st' = isLoading st;
  ds_status : statusMessage st' = statusMessage st;
  ds_file : currentFile st' = currentFile st;
  ds_ref : ocrPageProgressDataRef st' = ocrPageProgressDataRef st;
  ds_worker : worker st' = worker st;
  ds_fullText : fullText st' = fullText st;
  ds_trace : exists out, trace st' = trace st ++ out /\ Forall is_display out
}.

(** [hoare P c Qn Qe]: started where [P] holds, [c] either completes
    normally in a state where [Qn] holds or throws in a state where [Qe]
    holds.  Every statement of the embedding terminates, so this is total
    correctness. *)
Definition hoare {A : Type} (P : Machine -> Prop) (c : M A)
    (Qn : A -> Machine -> Prop) (Qe : Machine -> Prop) : Prop :=
  forall st, P st ->
    match c st with
    | (Normal a, st') => Qn a st'
    | (Throw _, st') => Qe st'
    end.

(** A statement that keeps the invariant [I], however it completes. *)
Definition keeps {A : Type} (I : Machine -> Prop) (c : M A) : Prop :=
  hoare I c (fun _ => I) I.

(** The worker variable, and how many workers were terminated and created
    so far. *)
Definition account (st : Machine) : option Worker * nat * nat :=
  (worker st, terminations (trace st), creations (trace st)).

(** The effects of the page loop other than setter calls. *)
Definition is_page_effect (e : Effect) : bool :=
  match e with
  | ERecognize | EGetPage _ | ERender _ | ECleanup _ => true
  | _ => false
  end.

(** What an invariant must tolerate to hold throughout the page loop. *)
Record page_invariant (I : Machine -> Prop) : Prop := {
  pi_display : forall st st', display_step st st' -> I st -> I st';
  pi_record : forall e st, is_page_effect e = true -> I st -> I (record e st);
  pi_ref : forall d st, I st -> I (set_ref d st);
  pi_fullText : forall s st, I st -> I (set_fullText s st)
}.

(** The phases of the worker in an operation that started after [t0]
    terminations and [c0] creations.  No worker yet: *)
Definition no_worker (t0 c0 : nat) (st : Machine) : Prop :=
  account st = (None, t0, c0).

(** [createWorker] has resolved, the variable is not assigned yet. *)
Definition worker_created (t0 c0 : nat) (st : Machine) : Prop :=
  account st = (None, t0, c0 + 1).

(** The variable holds the live worker. *)
Definition worker_live (t0 c0 : nat) (st : Machine) : Prop :=
  account st = (Some TheWorker, t0, c0 + 1).

(** The worker was terminated, the variable still holds it. *)
Definition worker_terminated (t0 c0 : nat) (st : Machine) : Prop :=
  account st = (Some TheWorker, t0 + 1, c0 + 1).

(** The worker was terminated and the variable cleared. *)
Definition worker_released (t0 c0 : nat) (st : Machine) : Prop :=
  account st = (None, t0 + 1, c0 + 1).

(** What the [catch] block can find. *)
Definition may_throw (t0 c0 : nat) (st : Machine) : Prop :=
  no_worker t0 c0 st \/ worker_live t0 c0 st \/ worker_released t0 c0 st.

(** As many terminations as creations, and at most one of each. *)
Definition balanced (t0 c0 : nat) (st : Machine) : Prop :=
  exists k, k <= 1
    /\ creations (trace st) = c0 + k
    /\ terminations (trace st) = t0 + k.

(** The progress display as [FileUpload] first renders it. *)
Definition display_reset (st : Machine) : Prop :=
  isLoading st = false
  /\ processingMessage st = []
  /\ processingProgress st = JsNumber.of_Z 0.

(** [st] was reached from a state whose trace was [t]. *)
Definition extends (t : list Effect) (st : Machine) : Prop :=
  exists out, trace st = t ++ out.

(** Unless the status message announces a success, the raw extracted text
    is the empty string. *)
Definition no_stale_text (st : Machine) : Prop :=
  match outcome st with
  | Some success => True
  | _ => rawExtractedText st = []
  end.

(** A state that differs in the raw extracted text only. *)
Definition with_rawExtractedText (s : jsstring) (st : Machine) : Machine :=
  {| rawExtractedText := s;
     isLoading := isLoading st;
     statusMessage := statusMessage st;
     currentFile := currentFile st;
     processingProgress := processingProgress st;
     processingMessage := processingMessage st;
     ocrPageProgressDataRef := ocrPageProgressDataRef st;
     worker := worker st;
     fullText := fullText st;
     trace := trace st |}.

(** The first statements of [handleFile] for a file. *)
Definition accept_file (f : File) (st : Machine) : Machine :=
  clearStatusMessageAfterDelay (Some 2000%Z)
    (setStatusMessage
       {| text := str "Carregando arquivo: " ++ file_name f; type := info |}
       (setRawExtractedText [] (setCurrentFile (Some f) (setIsLoading true st)))).

Definition plain_text_file : File :=
  {| file_name := str "notes.txt"; file_type := str "text/plain"; file_size := 12 |}.

(** A content whose every collaborator call would resolve at once. *)
Definition blank_content : FileScript :=
  {| as_pdf :=
       {| arrayBuffer_settles := Resolved tt;
          getDocument_settles := Resolved [];
          pdf_createWorker :=
            {| create_messages := []; create_settles := Resolved tt |} |};
     as_image :=
       {| image_createWorker :=
            {| create_messages := []; create_settles := Resolved tt |};
          image_recognize :=
            {| recognize_messages := []; recognize_settles := Resolved [] |} |} |}.

(** A "recognizing text" message carrying the fraction [p]. *)
Definition recognizing (p : number) : TesseractProgressUpdate :=
  {| status := str "recognizing text"; progress := Some p |}.


(** What [pageAwarePdfOcrLogger] passes to [setProcessingProgress] for the
    fraction [p] while the ref holds [d]. *)
Definition pdf_overall (d : PageProgressData) (p : number) : number :=
  JsNumber.min hundred
    (JsNumber.round
       (JsNumber.add (baseProgress d)
          (JsNumber.round (JsNumber.mul p (pageBudget d))))).

(** What [imageOcrLogger] passes to [setProcessingProgress]. *)
Definition image_overall (p : number) : number :=
  JsNumber.round (JsNumber.mul p hundred).

(** The ref while page [i] of [numPages] is recognised. *)
Definition page_ref (numPages i : nat) : PageProgressData :=
  {| currentPage := i;
     totalPages := numPages;
     baseProgress := base_of_page numPages i;
     pageBudget := JsNumber.div hundred (JsNumber.of_nat numPages) |}.




(** The page counts a Number holds exactly. *)
Definition safe_count (n : nat) : Prop := (Z.of_nat n < 2 ^ 53)%Z.

(** A number without a fractional part. *)
Definition whole (a : number) : Prop := exists k, a = JsNumber.of_Z k.

(** The base progress of the specification's property, in its words:
    [round((i - 1) / N * 100)]. *)
Definition claimed_base (numPages i : nat) : number :=
  JsNumber.round (base_of_page numPages i).

(** A page that is fetched, rendered and recognised without an error:
    the messages of its recognition and its text. *)
Definition readable_page (p : list TesseractProgressUpdate * jsstring) : PageScript :=
  {| getPage_settles := Resolved tt;
     getContext_2d := true;
     render_settles := Resolved tt;
     page_recognize :=
       {| recognize_messages := fst p; recognize_settles := Resolved (snd p) |} |}.

(** A PDF that is read and parsed and whose worker is created, with the
    messages of the worker's creation and its pages. *)
Definition readable_pdf (init : list TesseractProgressUpdate)
    (pages : list (list TesseractProgressUpdate * jsstring)) : PdfScript :=
  {| arrayBuffer_settles := Resolved tt;
     getDocument_settles := Resolved (map readable_page pages);
     pdf_createWorker :=
       {| create_messages := init; create_settles := Resolved tt |} |}.

(** The page texts, each followed by a newline. *)
Definition joined (pages : list (list TesseractProgressUpdate * jsstring)) : jsstring :=
  List.concat (map (fun p => snd p ++ newline) pages).

(** The state in which the loop of a PDF without pages is skipped. *)
Definition zero_pages_worker_ready (rm : jsstring)
    (init : list TesseractProgressUpdate) (st : Machine) : Machine :=
  set_worker (Some TheWorker)
    (record (ECreateWorker true)
       (deliver (pageAwarePdfOcrLogger rm) init
          (set_ref (parsed_ref 0)
             (record EGetDocument (record EArrayBuffer st))))).

(** The state in which its [try] block completes, when the buffer was
    empty. *)
Definition zero_pages_finished (rm : jsstring)
    (init : list TesseractProgressUpdate) (st : Machine) : Machine :=
  setStatusMessage
    {| text := str "OCR do PDF concluído, mas nenhum texto foi detectado.";
       type := warning |}
    (setRawExtractedText []
       (set_worker None (record ETerminate (zero_pages_worker_ready rm init st)))).

(** An image whose worker is created and whose recognition resolves,
    with the messages of both and the recognised text. *)
Definition readable_image (init ms : list TesseractProgressUpdate)
    (resultText : jsstring) : ImageScript :=
  {| image_createWorker :=
       {| create_messages := init; create_settles := Resolved tt |};
     image_recognize :=
       {| recognize_messages := ms; recognize_settles := Resolved resultText |} |}.

(** A text of whitespace only. *)
Definition blank (s : jsstring) : Prop :=
  Forall (fun c => JsString.isWhiteSpace c = true) s.

(** An image whose recognition returns "Alpha" and a line break, as
    Tesseract ends a line. *)
Definition one_line_image : ImageScript :=
  {| image_createWorker := {| create_messages := []; create_settles := Resolved tt |};
     image_recognize :=
       {| recognize_messages := [recognizing (JsNumber.Num 1)];
          recognize_settles := Resolved (str "Alpha" ++ [10%N]) |} |}.

(* ===================================================================== *)
(** ** The other handlers of the component *)
(* ===================================================================== *)

(** The state of [FileUpload] beside [Machine]: the dragging flag and the
    value of the file input behind [fileInputRef] ([None] while the ref is
    null). *)
Record Component : Type := {
  machine : Machine;
  isDragging : bool;
  fileInput : option jsstring
}.

(** [if (fileInputRef.current) fileInputRef.current.value = ""] *)
Definition clear_fileInput (v : option jsstring) : option jsstring :=
  match v with
  | Some _ => Some []
  | None => None
  end.

(** [removeFile] *)
Definition removeFile (c : Component) : Component :=
  let m := setCurrentFile None (machine c) in
  let m := setRawExtractedText [] m in
  let input := clear_fileInput (fileInput c) in
  let m := setStatusMessage {| text := str "Arquivo removido."; type := info |} m in
  let m := clearStatusMessageAfterDelay None m in
  {| machine := m; isDragging := isDragging c; fileInput := input |}.

(** A call of [handleFile] with an element of a [FileList], which is
    [undefined] past its end; each file comes with its content. *)
Definition handle (rm : jsstring) (selected : option (File * FileScript))
    (m : Machine) : Machine :=
  match selected with
  | Some (f, content) => handleFile rm (Some f) content m
  | None => handleFile rm None blank_content m
  end.

(** [onFileChange]: [files] is [event.target.files], the target is the
    file input.  The handler belongs to the latest render, whose
    [processingMessage] its loggers see. *)
Definition onFileChange (files : option (list (File * FileScript)))
    (c : Component) : Component :=
  let selected :=
    match files with
    | Some l => nth_error l 0
    | None => None
    end in
  let m := handle (processingMessage (machine c)) selected (machine c) in
  {| machine := m; isDragging := isDragging c;
     fileInput := clear_fileInput (fileInput c) |}.

(** [onDrop]: [files] is [event.dataTransfer.files].  The callback is
    memoised with no dependencies, so it is the one of the first render,
    where [processingMessage] is the empty string. *)
Definition onDrop (files : option (list (File * FileScript)))
    (c : Component) : Component :=
  match files with
  | Some (first :: others) =>
      {| machine := handle [] (Some first) (machine c);
         isDragging := false;
         fileInput := clear_fileInput (fileInput c) |}
  | _ => {| machine := machine c; isDragging := false; fileInput := fileInput c |}
  end.



(* ===================================================================== *)
(** ** What a script makes the operations do *)
(* ===================================================================== *)

(** Everything in a trace but the calls of [setProcessingProgress] and
    [setProcessingMessage]. *)
Definition notable (t : list Effect) : list Effect :=
  filter (fun e => negb (is_progress e)) t.

(** The calls to pdf.js and Tesseract in a trace. *)
Definition calls (t : list Effect) : list Effect := filter is_resource t.

(** The status messages of the two operations. *)
Definition pdf_error_message (e : jsstring) : StatusMessage :=
  {| text := str "Falha ao processar PDF com OCR: " ++ e; type := error |}.

Definition pdf_empty_message : StatusMessage :=
  {| text := str "OCR do PDF concluído, mas nenhum texto foi detectado.";
     type := warning |}.

Definition pdf_success_message : StatusMessage :=
  {| text := str "Texto do PDF extraído com OCR com sucesso!"; type := success |}.

Definition image_error_message (e : jsstring) : StatusMessage :=
  {| text := str "Falha ao processar imagem com OCR: " ++ e; type := error |}.

Definition image_empty_message : StatusMessage :=
  {| text := str "OCR concluído, mas nenhum texto foi detectado na imagem.";
     type := warning |}.

Definition image_success_message : StatusMessage :=
  {| text := str "Texto da imagem extraído com OCR com sucesso!"; type := success |}.

Definition canvas_error : jsstring :=
  str "Não foi possível obter o contexto 2D do canvas.".

(** The error with which the processing of a page stops, if it does: the
    first of [getPage], the missing canvas context, [render] and
    [recognize] that fails. *)
Definition page_failure (p : PageScript) : option jsstring :=
  match getPage_settles p with
  | Rejected e => Some e
  | Resolved _ =>
      if getContext_2d p then
        match render_settles p with
        | Rejected e => Some e
        | Resolved _ =>
            match recognize_settles (page_recognize p) with
            | Rejected e => Some e
            | Resolved _ => None
            end
        end
      else Some canvas_error
  end.

(** The calls made for page [i], up to the one that fails. *)
Definition page_calls (i : nat) (p : PageScript) : list Effect :=
  EGetPage i ::
  match getPage_settles p with
  | Rejected _ => []
  | Resolved _ =>
      if getContext_2d p then
        ERender i ::
        match render_settles p with
        | Rejected _ => []
        | Resolved _ =>
            ERecognize ::
            match recognize_settles (page_recognize p) with
            | Rejected _ => []
            | Resolved _ => [ECleanup i]
            end
        end
      else []
  end.

(** What a processed page adds to the buffer. *)
Definition page_text (p : PageScript) : jsstring :=
  match page_failure p, recognize_settles (page_recognize p) with
  | None, Resolved t => t ++ [10%N]
  | _, _ => []
  end.

(** The same for the pages from page [i] on: the loop stops at the first
    page that fails. *)
Fixpoint pages_failure (pages : list PageScript) : option jsstring :=
  match pages with
  | [] => None
  | p :: rest =>
      match page_failure p with
      | Some e => Some e
      | None => pages_failure rest
      end
  end.

Fixpoint pages_calls (i : nat) (pages : list PageScript) : list Effect :=
  match pages with
  | [] => []
  | p :: rest =>
      page_calls i p
      ++ match page_failure p with
         | Some _ => []
         | None => pages_calls (S i) rest
         end
  end.

Fixpoint pages_text (pages : list PageScript) : jsstring :=
  match pages with
  | [] => []
  | p :: rest =>
      match page_failure p with
      | Some _ => []
      | None => page_text p ++ pages_text rest
      end
  end.

(** The error a PDF operation ends with, if any. *)
Definition pdf_failure (file : PdfScript) : option jsstring :=
  match arrayBuffer_settles file with
  | Rejected e => Some e
  | Resolved _ =>
      match getDocument_settles file with
      | Rejected e => Some e
      | Resolved pages =>
          match create_settles (pdf_createWorker file) with
          | Rejected e => Some e
          | Resolved _ => pages_failure pages
          end
      end
  end.

(** The buffer of a PDF operation that does not fail. *)
Definition pdf_text (file : PdfScript) : jsstring :=
  match getDocument_settles file with
  | Resolved pages => pages_text pages
  | Rejected _ => []
  end.

(** What the [catch] block of a PDF operation does; [live] says whether
    the worker variable holds a worker. *)
Definition pdf_caught (e : jsstring) (live : bool) : list Effect :=
  [EConsoleError; ESetRawText []; ESetStatus (pdf_error_message e)]
  ++ (if live then [ETerminate] else []).

(** What the end of its [try] block does with the buffer [buffer]. *)
Definition pdf_finished (buffer : jsstring) : list Effect :=
  ETerminate ::
  (if JsString.eqb (JsString.trim buffer) [] then
     [ESetRawText []; ESetStatus pdf_empty_message]
   else
     [ESetRawText (JsString.trim buffer); ESetStatus pdf_success_message;
      EClearStatusAfter None]).

(** Whether the worker of a PDF operation is created. *)
Definition pdf_worker_created (file : PdfScript) : bool :=
  match arrayBuffer_settles file, getDocument_settles file,
        create_settles (pdf_createWorker file) with
  | Resolved _, Resolved _, Resolved _ => true
  | _, _, _ => false
  end.

(** What its [try] block does up to the end of the loop, or up to the
    call that fails. *)
Definition pdf_opening (file : PdfScript) : list Effect :=
  EArrayBuffer ::
  match arrayBuffer_settles file with
  | Rejected _ => []
  | Resolved _ =>
      EGetDocument ::
      match getDocument_settles file with
      | Rejected _ => []
      | Resolved pages =>
          match create_settles (pdf_createWorker file) with
          | Rejected _ => [ECreateWorker false]
          | Resolved _ => ECreateWorker true :: pages_calls 1 pages
          end
      end
  end.

(** Everything a PDF operation does besides updating the progress
    display, as the script of the collaborators determines it. *)
Definition pdf_notable (file : PdfScript) : list Effect :=
  pdf_opening file
  ++ match pdf_failure file with
     | Some e => pdf_caught e (pdf_worker_created file)
     | None => pdf_finished (pdf_text file)
     end
  ++ [ESetLoading false].

(** The status message and the raw text a PDF operation ends with. *)
Definition pdf_verdict (file : PdfScript) : StatusMessage * jsstring :=
  match pdf_failure file with
  | Some e => (pdf_error_message e, [])
  | None =>
      if JsString.eqb (JsString.trim (pdf_text file)) [] then
        (pdf_empty_message, [])
      else (pdf_success_message, JsString.trim (pdf_text file))
  end.

(** The same for an image operation. *)
Definition image_failure (file : ImageScript) : option jsstring :=
  match create_settles (image_createWorker file) with
  | Rejected e => Some e
  | Resolved _ =>
      match recognize_settles (image_recognize file) with
      | Rejected e => Some e
      | Resolved _ => None
      end
  end.

Definition image_caught (e : jsstring) (live : bool) : list Effect :=
  [EConsoleError; ESetRawText []; ESetStatus (image_error_message e)]
  ++ (if live then [ETerminate] else []).

Definition image_worker_created (file : ImageScript) : bool :=
  match create_settles (image_createWorker file) with
  | Resolved _ => true
  | Rejected _ => false
  end.

Definition image_opening (file : ImageScript) : list Effect :=
  match create_settles (image_createWorker file) with
  | Rejected _ => [ECreateWorker false]
  | Resolved _ => [ECreateWorker true; ERecognize]
  end.

Definition image_finished (resultText : jsstring) : list Effect :=
  ETerminate ::
  (if JsString.eqb (JsString.trim resultText) [] then
     [ESetRawText []; ESetStatus image_empty_message]
   else
     [ESetRawText resultText; ESetStatus image_success_message;
      EClearStatusAfter None]).

Definition image_notable (file : ImageScript) : list Effect :=
  image_opening file
  ++ match image_failure file, recognize_settles (image_recognize file) with
     | Some e, _ => image_caught e (image_worker_created file)
     | None, Resolved t => image_finished t
     | None, Rejected _ => []
     end
  ++ [ESetLoading false].

Definition image_verdict (file : ImageScript) : StatusMessage * jsstring :=
  match image_failure file with
  | Some e => (image_error_message e, [])
  | None =>
      match recognize_settles (image_recognize file) with
      | Resolved t =>
          if JsString.eqb (JsString.trim t) [] then (image_empty_message, [])
          else (image_success_message, t)
      | Rejected _ => (image_empty_message, [])
      end
  end.

(** *** Disciplines a trace can follow *)

(** The life of the worker. *)
Inductive WorkerPhase : Type := Absent | Live | Gone.

(** Runs the trace from the phase [ph]: a worker is created only when
    there is none, recognises and is terminated only while it lives.
    [None] when the trace breaks the discipline. *)
Fixpoint lifecycle (ph : WorkerPhase) (t : list Effect) : option WorkerPhase :=
  match t with
  | [] => Some ph
  | ECreateWorker true :: t' =>
      match ph with Absent => lifecycle Live t' | _ => None end
  | ERecognize :: t' =>
      match ph with Live => lifecycle Live t' | _ => None end
  | ETerminate :: t' =>
      match ph with Live => lifecycle Gone t' | _ => None end
  | _ :: t' => lifecycle ph t'
  end.

(** Pages are fetched in the order 1, 2, .., one at a time: page [next]
    is fetched only while no page is open, rendered only while it is open,
    and closed by its cleanup.  The result is the next page and whether a
    page is left open. *)
Fixpoint paging (next : nat) (open : bool) (t : list Effect) : option (nat * bool) :=
  match t with
  | [] => Some (next, open)
  | EGetPage i :: t' =>
      if negb open && Nat.eqb i next then paging next true t' else None
  | ERender i :: t' =>
      if open && Nat.eqb i next then paging next true t' else None
  | ECleanup i :: t' =>
      if open && Nat.eqb i next then paging (S next) false t' else None
  | _ :: t' => paging next open t'
  end.

(** The calls of [setIsLoading] in a trace. *)
Fixpoint loading_calls (t : list Effect) : list bool :=
  match t with
  | [] => []
  | ESetLoading b :: t' => b :: loading_calls t'
  | _ :: t' => loading_calls t'
  end.

(** How a statement completes that fails with the error [o], if any. *)
Definition completion (o : option jsstring) : Completion unit :=
  match o with
  | None => Normal tt
  | Some e => Throw e
  end.

(** From [st] to [st'] the statements wrote neither the raw text, the
    loading flag, the status message nor the current file, and besides
    updating the progress display they did [done]. *)
Record run_frame (st st' : Machine) (done : list Effect) : Prop := {
  rf_raw : rawExtractedText st' = rawExtractedText st;
  rf_loading : isLoading st' = isLoading st;
  rf_status : statusMessage st' = statusMessage st;
  rf_file : currentFile st' = currentFile st;
  rf_notable : notable (trace st') = notable (trace st) ++ done
}.

(** *** What [handleFile] makes of a file *)

(** Its first statements, for every file. *)
Definition accepted (f : File) : list Effect :=
  [ESetLoading true; ESetCurrentFile (Some f); ESetRawText [];
   ESetStatus {| text := str "Carregando arquivo: " ++ file_name f; type := info |};
   EClearStatusAfter (Some 2000%Z)].

Definition unsupported_message : StatusMessage :=
  {| text := str "Tipo de arquivo não suportado. Use PDF ou Imagem.";
     type := warning |}.

(** The types for which [handleFile] starts an operation. *)
Definition supported (f : File) : bool :=
  JsString.eqb (file_type f) (str "application/pdf")
  || JsString.startsWith (file_type f) (str "image/").

(** Everything [handleFile] does for [f] besides updating the progress
    display, and what it ends with. *)
Definition file_notable (f : File) (content : FileScript) : list Effect :=
  accepted f
  ++ (if JsString.eqb (file_type f) (str "application/pdf") then
        pdf_notable (as_pdf content)
      else if JsString.startsWith (file_type f) (str "image/") then
        image_notable (as_image content)
      else
        [ESetStatus unsupported_message; EClearStatusAfter None;
         ESetLoading false; ESetCurrentFile None]).

Definition file_verdict (f : File) (content : FileScript)
    : StatusMessage * jsstring :=
  if JsString.eqb (file_type f) (str "application/pdf") then
    pdf_verdict (as_pdf content)
  else if JsString.startsWith (file_type f) (str "image/") then
    image_verdict (as_image content)
  else (unsupported_message, []).

(** The delays with which [clearStatusMessageAfterDelay] is called in a
    trace ([None]: the default of five seconds). *)
Fixpoint status_timers (t : list Effect) : list (option Z) :=
  match t with
  | [] => []
  | EClearStatusAfter d :: t' => d :: status_timers t'
  | _ :: t' => status_timers t'
  end.

(** The page loop's calls in a trace, and those of a page that is
    processed to its end. *)
Definition page_events (t : list Effect) : list Effect := filter is_page_effect t.

Definition page_round (i : nat) : list Effect :=
  [EGetPage i; ERender i; ERecognize; ECleanup i].

(** *** Scripts with a failure *)

(** A PDF of three pages whose second page cannot be rendered: the first
    page is recognised, the third is never reached. *)
Definition second_page_unrenderable : PdfScript :=
  {| arrayBuffer_settles := Resolved tt;
     getDocument_settles :=
       Resolved
         [ readable_page ([recognizing (JsNumber.Num 1)], str "Alpha");
           {| getPage_settles := Resolved tt;
              getContext_2d := true;
              render_settles := Rejected (str "render failed");
              page_recognize :=
                {| recognize_messages := [];
                   recognize_settles := Resolved (str "Beta") |} |};
           readable_page ([], str "Gamma") ];
     pdf_createWorker := {| create_messages := []; create_settles := Resolved tt |} |}.

(** A PDF whose bytes cannot be read. *)
Definition unreadable_pdf : PdfScript :=
  {| arrayBuffer_settles := Rejected (str "read failed");
     getDocument_settles := Resolved [];
     pdf_createWorker := {| create_messages := []; create_settles := Resolved tt |} |}.

(** An image whose recognition is rejected after the worker was created. *)
Definition unrecognizable_image : ImageScript :=
  {| image_createWorker := {| create_messages := []; create_settles := Resolved tt |};
     image_recognize :=
       {| recognize_messages := [recognizing (JsNumber.Num (1 # 2))];
          recognize_settles := Rejected (str "recognition failed") |} |}.


Definition png_file : File :=
  {| file_name := str "scan.png"; file_type := str "image/png"; file_size := 1024 |}.

(** A PDF that is read and parsed with no pages; [w] is how the creation
    of the worker goes. *)
Definition zero_page_pdf (w : WorkerScript) : PdfScript :=
  {| arrayBuffer_settles := Resolved tt;
     getDocument_settles := Resolved [];
     pdf_createWorker := w |}.

(** [pdfDoc.numPages] of a PDF, 0 when it is not parsed. *)
Definition pdf_numPages (file : PdfScript) : nat :=
  match getDocument_settles file with
  | Resolved pages => List.length pages
  | Rejected _ => 0
  end.

(* ===================================================================== *)
(** ** Handlers that run while an operation awaits *)
(* ===================================================================== *)

(** [handleFile] calls [ocrImageFile] and [ocrPdfDocument] without
    awaiting them, and the drop zone, the file input and the remove button
    stay active: while an operation awaits a promise, other handlers run.
    These are the two parts of [ocrImageFile] around
    [await worker.recognize(file)], for a worker that is created. *)

(** From the start to the call of [worker.recognize]. *)
Definition image_until_recognize (rm : jsstring) (file : ImageScript)
    (st : Machine) : Machine :=
  record ERecognize
    (set_worker (Some TheWorker)
       (record (ECreateWorker true)
          (deliver (imageOcrLogger rm) (create_messages (image_createWorker file))
             (set_worker None
                (setProcessingProgress zero
                   (setProcessingMessage (str "Processando Imagem (OCR)...")
                      st)))))).

(** From the messages of the recognition on: the rest of the [try] block,
    the [catch] block and the [finally] block. *)
Definition image_from_recognize (rm : jsstring) (file : ImageScript) : M unit :=
  try_catch_finally
    (act (deliver (imageOcrLogger rm) (recognize_messages (image_recognize file))) ;;
     resultText <- await (recognize_settles (image_recognize file)) ;;
     image_finish resultText)
    image_catch image_finally.

(** The image [scan.png] is dropped, and while it is recognised a text
    file is dropped, which is rejected; then the recognition resolves. *)
Definition overlap_started : Machine :=
  image_until_recognize [] one_line_image (accept_file png_file initial).

Definition overlap_rejected : Machine :=
  handleFile [] (Some plain_text_file) blank_content overlap_started.

Definition overlap_finished : Machine :=
  exec (image_from_recognize [] one_line_image) overlap_rejected.

(* ===================================================================== *)
(** ** Lemmas and theorems *)
(* ===================================================================== *)


Lemma terminations_app (a b : list Effect) :
  terminations (a ++ b) = terminations a + terminations b.
Proof.
  induction a as [|e a IH]; simpl; [reflexivity|].
  destruct e; simpl; rewrite ?IH; reflexivity.
Qed.

Lemma creations_app (a b : list Effect) :
  creations (a ++ b) = creations a + creations b.
Proof.
  induction a as [|e a IH]; simpl; [reflexivity|].
  destruct e as [| |[]| | | | | | | | | | | | |]; simpl; rewrite ?IH; reflexivity.
Qed.

Lemma display_terminations (out : list Effect) :
  Forall is_display out -> terminations out = 0.
Proof.
  induction 1 as [|e out He _ IH]; simpl; [reflexivity|].
  destruct e; simpl in *; try contradiction; exact IH.
Qed.

Lemma display_creations (out : list Effect) :
  Forall is_display out -> creations out = 0.
Proof.
  induction 1 as [|e out He _ IH]; simpl; [reflexivity|].
  destruct e; simpl in *; try contradiction; exact IH.
Qed.

(* ===================================================================== *)
(** ** What the loggers leave alone *)
(* ===================================================================== *)

Lemma display_step_refl (st : Machine) : display_step st st.
Proof.
  constructor; try reflexivity.
  exists []. rewrite app_nil_r. split; [reflexivity | constructor].
Qed.

Lemma display_step_trans (a b c : Machine) :
  display_step a b -> display_step b c -> display_step a c.
Proof.
  intros [r1 l1 s1 f1 d1 w1 t1 (o1 & e1 & h1)] [r2 l2 s2 f2 d2 w2 t2 (o2 & e2 & h2)].
  constructor; try congruence.
  exists (o1 ++ o2). split.
  - rewrite e2, e1, app_assoc. reflexivity.
  - apply Forall_app; split; assumption.
Qed.

Lemma display_setProcessingProgress (v : number) (st : Machine) :
  display_step st (setProcessingProgress v st).
Proof.
  constructor; try reflexivity.
  exists [ESetProgress v]. split; [reflexivity | repeat constructor].
Qed.

Lemma display_setProcessingMessage (m : jsstring) (st : Machine) :
  display_step st (setProcessingMessage m st).
Proof.
  constructor; try reflexivity.
  exists [ESetMessage m]. split; [reflexivity | repeat constructor].
Qed.

Create HintDb display.
#[local] Hint Resolve display_step_refl display_setProcessingProgress
  display_setProcessingMessage : display.

Lemma display_imageOcrLogger (rm : jsstring) (m : TesseractProgressUpdate)
    (st : Machine) :
  display_step st (imageOcrLogger rm m st).
Proof.
  unfold imageOcrLogger.
  destruct (JsString.eqb (status m) (str "recognizing text")), (progress m);
    repeat match goal with
           | |- context [if ?b then _ else _] => destruct b
           end;
    eauto using display_step_trans with display.
Qed.

Lemma display_pageAwarePdfOcrLogger (rm : jsstring) (m : TesseractProgressUpdate)
    (st : Machine) :
  display_step st (pageAwarePdfOcrLogger rm m st).
Proof.
  unfold pageAwarePdfOcrLogger.
  destruct (JsString.eqb (status m) (str "recognizing text")), (progress m);
    repeat match goal with
           | |- context [if ?b then _ else _] => destruct b
           end;
    eauto using display_step_trans with display.
Qed.

Lemma display_deliver (logger : TesseractProgressUpdate -> Machine -> Machine)
    (ms : list TesseractProgressUpdate) :
  (forall m st, display_step st (logger m st)) ->
  forall st, display_step st (deliver logger ms st).
Proof.
  intros Hl. unfold deliver.
  induction ms as [|m ms IH]; intros st; simpl.
  - apply display_step_refl.
  - eapply display_step_trans; [apply Hl | apply IH].
Qed.

(* ===================================================================== *)
(** ** Reasoning about statements *)
(* ===================================================================== *)

Section HoareRules.

Context {A B : Type}.

Lemma hoare_ret (P : Machine -> Prop) (a : A) (Qn : A -> Machine -> Prop)
    (Qe : Machine -> Prop) :
  (forall st, P st -> Qn a st) -> hoare P (ret a) Qn Qe.
Proof. intros H st HP. simpl. auto. Qed.

Lemma hoare_throw (P : Machine -> Prop) (e : jsstring)
    (Qn : A -> Machine -> Prop) (Qe : Machine -> Prop) :
  (forall st, P st -> Qe st) -> hoare P (throw (A := A) e) Qn Qe.
Proof. intros H st HP. simpl. auto. Qed.

Lemma hoare_await (P : Machine -> Prop) (p : Settled A)
    (Qn : A -> Machine -> Prop) (Qe : Machine -> Prop) :
  (forall a st, P st -> Qn a st) -> (forall st, P st -> Qe st) ->
  hoare P (await p) Qn Qe.
Proof. intros Hn He st HP. destruct p; simpl; auto. Qed.

Lemma hoare_bind (P : Machine -> Prop) (c : M A) (k : A -> M B)
    (R : A -> Machine -> Prop) (Qn : B -> Machine -> Prop)
    (Qe : Machine -> Prop) :
  hoare P c R Qe -> (forall a, hoare (R a) (k a) Qn Qe) ->
  hoare P (bind c k) Qn Qe.
Proof.
  intros Hc Hk st HP. unfold bind.
  specialize (Hc st HP). destruct (c st) as [[a|e] st']; [|exact Hc].
  apply (Hk a st' Hc).
Qed.

Lemma hoare_weaken (P P' : Machine -> Prop) (c : M A)
    (Qn Qn' : A -> Machine -> Prop) (Qe Qe' : Machine -> Prop) :
  hoare P' c Qn' Qe' ->
  (forall st, P st -> P' st) ->
  (forall a st, Qn' a st -> Qn a st) ->
  (forall st, Qe' st -> Qe st) ->
  hoare P c Qn Qe.
Proof.
  intros H HP Hn He st Hst. specialize (H st (HP st Hst)).
  destruct (c st) as [[a|e] st']; auto.
Qed.

End HoareRules.

Lemma hoare_act (P : Machine -> Prop) (f : Machine -> Machine)
    (Qn : unit -> Machine -> Prop) (Qe : Machine -> Prop) :
  (forall st, P st -> Qn tt (f st)) -> hoare P (act f) Qn Qe.
Proof. intros H st HP. simpl. auto. Qed.

(** The state a [try]/[catch]/[finally] statement ends in. *)
Lemma hoare_try_catch_finally (P Qb E Qf : Machine -> Prop) (body : M unit)
    (handler : jsstring -> M unit) (closing : M unit) :
  hoare P body (fun _ => Qb) E ->
  (forall e, hoare E (handler e) (fun _ => Qb) Qb) ->
  hoare Qb closing (fun _ => Qf) Qf ->
  forall st, P st -> Qf (exec (try_catch_finally body handler closing) st).
Proof.
  intros Hb Hh Hc st HP. unfold exec, try_catch_finally.
  specialize (Hb st HP). destruct (body st) as [[[]|e] st1].
  - specialize (Hc st1 Hb). destruct (closing st1) as [[[]|e'] st2]; exact Hc.
  - specialize (Hh e st1 Hb). destruct (handler e st1) as [r st2].
    assert (Qb st2) as H2 by (destruct r; exact Hh).
    specialize (Hc st2 H2). destruct (closing st2) as [[[]|e'] st3]; exact Hc.
Qed.

(** *** Statements that keep an invariant *)

Section Invariants.

Variable I : Machine -> Prop.

Lemma keeps_bind {A B : Type} (c : M A) (k : A -> M B) :
  keeps I c -> (forall a, keeps I (k a)) -> keeps I (bind c k).
Proof. intros Hc Hk. eapply hoare_bind; [exact Hc | exact Hk]. Qed.

Lemma keeps_ret {A : Type} (a : A) : keeps I (ret a).
Proof. apply hoare_ret. auto. Qed.

Lemma keeps_throw {A : Type} (e : jsstring) : keeps I (throw (A := A) e).
Proof. apply hoare_throw. auto. Qed.

Lemma keeps_await {A : Type} (p : Settled A) : keeps I (await p).
Proof. apply hoare_await; auto. Qed.

Lemma keeps_act (f : Machine -> Machine) :
  (forall st, I st -> I (f st)) -> keeps I (act f).
Proof. intros H. apply hoare_act. exact H. Qed.

Lemma keeps_if {A : Type} (b : bool) (c1 c2 : M A) :
  keeps I c1 -> keeps I c2 -> keeps I (if b then c1 else c2).
Proof. destruct b; auto. Qed.

End Invariants.

(* ===================================================================== *)
(** ** Accounting for the worker *)
(* ===================================================================== *)

Ltac account_tac :=
  intros;
  unfold account, start_page, clearStatusMessageAfterDelay,
    setRawExtractedText, setIsLoading, setStatusMessage, setCurrentFile,
    setProcessingProgress, setProcessingMessage, set_ref, set_fullText, record;
  cbn [worker trace];
  rewrite ?terminations_app, ?creations_app;
  cbn [terminations creations];
  rewrite ?Nat.add_0_r; reflexivity.

Lemma account_display (st st' : Machine) :
  display_step st st' -> account st' = account st.
Proof.
  intros [_ _ _ _ _ Hw _ (out & Ht & Hd)]. unfold account.
  rewrite Hw, Ht, terminations_app, creations_app.
  rewrite (display_terminations Hd), (display_creations Hd), !Nat.add_0_r.
  reflexivity.
Qed.

Lemma account_deliver_image (rm : jsstring) (ms : list TesseractProgressUpdate)
    (st : Machine) :
  account (deliver (imageOcrLogger rm) ms st) = account st.
Proof.
  apply account_display, display_deliver. apply display_imageOcrLogger.
Qed.

Lemma account_deliver_pdf (rm : jsstring) (ms : list TesseractProgressUpdate)
    (st : Machine) :
  account (deliver (pageAwarePdfOcrLogger rm) ms st) = account st.
Proof.
  apply account_display, display_deliver. apply display_pageAwarePdfOcrLogger.
Qed.

Section PageLoop.

Variable rm : jsstring.
Variable I : Machine -> Prop.
Hypothesis HI : page_invariant I.

Lemma keeps_recognize (logger : TesseractProgressUpdate -> Machine -> Machine)
    (r : RecognizeScript) :
  (forall m st, display_step st (logger m st)) ->
  keeps I (recognize logger r).
Proof.
  intros Hl. unfold recognize.
  apply keeps_bind; [| intros _].
  { apply keeps_act. intros st. apply (pi_record HI). reflexivity. }
  apply keeps_bind; [| intros _].
  { apply keeps_act. intros st. apply (pi_display HI).
    apply display_deliver, Hl. }
  apply keeps_await.
Qed.

Lemma start_page_invariant (numPages i : nat) (st : Machine) :
  I st -> I (start_page numPages i st).
Proof.
  intros H. unfold start_page. cbv zeta.
  eapply (pi_display HI); [apply display_setProcessingProgress|].
  eapply (pi_display HI); [apply display_setProcessingMessage|].
  apply (pi_ref HI). exact H.
Qed.

Lemma keeps_ocrPage (numPages i : nat) (p : PageScript) :
  keeps I (ocrPage rm numPages i p).
Proof.
  unfold ocrPage.
  apply keeps_bind; [apply keeps_act, start_page_invariant | intros _].
  apply keeps_bind; [| intros _].
  { apply keeps_act. intros st. apply (pi_record HI). reflexivity. }
  apply keeps_bind; [apply keeps_await | intros _].
  apply keeps_bind; [apply keeps_if; [apply keeps_ret | apply keeps_throw] | intros _].
  apply keeps_bind; [| intros _].
  { apply keeps_act. intros st. apply (pi_record HI). reflexivity. }
  apply keeps_bind; [apply keeps_await | intros _].
  apply keeps_bind; [| intros _].
  { apply keeps_act. intros st. apply (pi_display HI).
    apply display_setProcessingMessage. }
  apply keeps_bind;
    [apply keeps_recognize, display_pageAwarePdfOcrLogger | intros pageText].
  apply keeps_bind; [| intros _].
  { apply keeps_act. intros st. apply (pi_fullText HI). }
  apply keeps_act. intros st. apply (pi_record HI). reflexivity.
Qed.

Lemma keeps_ocrPages (numPages : nat) (pages : list PageScript) :
  forall i, keeps I (ocrPages rm numPages i pages).
Proof.
  induction pages as [|p rest IH]; intros i; simpl.
  - apply keeps_ret.
  - apply keeps_bind; [apply keeps_ocrPage | intros _; apply IH].
Qed.

End PageLoop.

Section Accounting.

(** An invariant that only looks at the account. *)
Variable I : Machine -> Prop.
Hypothesis I_account : forall st st', account st' = account st -> I st -> I st'.

Lemma keeps_quiet (f : Machine -> Machine) :
  (forall st, account (f st) = account st) -> keeps I (act f).
Proof. intros H. apply keeps_act. intros st. apply I_account, H. Qed.

Lemma account_page_invariant : page_invariant I.
Proof.
  constructor.
  - intros st st' H. apply I_account, account_display, H.
  - intros e st He. apply I_account. destruct e; try discriminate; account_tac.
  - intros d st. apply I_account. reflexivity.
  - intros s st. apply I_account. reflexivity.
Qed.

End Accounting.

Lemma account_inv (st : Machine) (w : option Worker) (t c : nat) :
  account st = (w, t, c) ->
  worker st = w /\ terminations (trace st) = t /\ creations (trace st) = c.
Proof. unfold account. intros H. injection H. auto. Qed.

Lemma account_intro (st : Machine) (w : option Worker) (t c : nat) :
  worker st = w -> terminations (trace st) = t -> creations (trace st) = c ->
  account st = (w, t, c).
Proof. unfold account. intros -> -> ->. reflexivity. Qed.

Lemma account_same (st st' : Machine) :
  account st' = account st ->
  worker st' = worker st
  /\ terminations (trace st') = terminations (trace st)
  /\ creations (trace st') = creations (trace st).
Proof. apply account_inv. Qed.

(** Opens the accounts in the context and computes the one in the goal. *)
Ltac account_open :=
  repeat match goal with
    | H : account _ = (_, _, _) |- _ =>
        apply account_inv in H; destruct H as (? & ? & ?)
    | H : account _ = account _ |- _ =>
        apply account_same in H; destruct H as (? & ? & ?)
    end.

Ltac account_close :=
  unfold setRawExtractedText, setStatusMessage, clearStatusMessageAfterDelay,
    setIsLoading, setCurrentFile, setProcessingProgress, setProcessingMessage,
    set_ref, set_fullText, set_worker, record;
  cbn [worker trace];
  rewrite ?terminations_app, ?creations_app;
  cbn [terminations creations].

Section WorkerLifecycle.

Variable rm : jsstring.

(** The counts of terminated and of created workers when the operation
    starts. *)
Variables t0 c0 : nat.

Ltac by_account :=
  let H := fresh in
  unfold no_worker, worker_created, worker_live, worker_released;
  intros ? ? H; rewrite H; trivial.

Lemma keeps_as_may_throw {A : Type} (I : Machine -> Prop) (c : M A) :
  keeps I c -> (forall st, I st -> may_throw t0 c0 st) ->
  hoare I c (fun _ => I) (may_throw t0 c0).
Proof. intros H Hi. eapply hoare_weaken; [exact H | auto | auto | exact Hi]. Qed.

Lemma hoare_initializeTesseractWorker
    (logger : TesseractProgressUpdate -> Machine -> Machine) (w : WorkerScript) :
  (forall ms st, account (deliver logger ms st) = account st) ->
  hoare (no_worker t0 c0) (initializeTesseractWorker logger w)
    (fun _ => worker_created t0 c0) (may_throw t0 c0).
Proof.
  intros Hl. unfold initializeTesseractWorker.
  eapply hoare_bind with (R := fun _ => no_worker t0 c0).
  - apply hoare_act. intros st H. unfold no_worker in *. rewrite Hl. exact H.
  - intros _. destruct (create_settles w).
    + eapply hoare_bind with (R := fun _ => worker_created t0 c0).
      * apply hoare_act. intros st H. unfold no_worker, worker_created in *.
        account_open. apply account_intro; account_close; congruence || lia.
      * intros _. apply hoare_ret. auto.
    + eapply hoare_bind with (R := fun _ => no_worker t0 c0).
      * apply hoare_act. intros st H. unfold no_worker in *.
        account_open. apply account_intro; account_close; congruence || lia.
      * intros _. apply hoare_throw. unfold may_throw. auto.
Qed.

Lemma hoare_assign_worker (w : Worker) :
  hoare (worker_created t0 c0) (act (set_worker (Some w)))
    (fun _ => worker_live t0 c0) (may_throw t0 c0).
Proof.
  apply hoare_act. intros st H. destruct w.
  unfold worker_created, worker_live in *. account_open.
  apply account_intro; account_close; congruence.
Qed.

Lemma terminate_if_live_balances (st : Machine) :
  may_throw t0 c0 st -> balanced t0 c0 (snd (terminate_if_live st)).
Proof.
  unfold may_throw, no_worker, worker_live, worker_released, terminate_if_live,
    balanced.
  intros [H|[H|H]]; account_open;
    match goal with Hw : worker st = _ |- _ => rewrite Hw end.
  - exists 0. cbn [ret snd]. repeat split; lia.
  - exists 1. unfold terminate, act. cbn [snd]. account_close.
    repeat split; lia.
  - exists 1. cbn [ret snd]. repeat split; lia.
Qed.

Lemma released_balanced (st : Machine) :
  worker_released t0 c0 st -> balanced t0 c0 st.
Proof.
  unfold worker_released, balanced. intros H. account_open.
  exists 1. repeat split; [lia | assumption | assumption].
Qed.

Lemma balanced_account (st st' : Machine) :
  account st' = account st -> balanced t0 c0 st -> balanced t0 c0 st'.
Proof.
  unfold balanced. intros H (k & Hk & Hc & Ht). account_open.
  exists k. repeat split; [assumption | congruence | congruence].
Qed.

Lemma may_throw_account (st st' : Machine) :
  account st' = account st -> may_throw t0 c0 st -> may_throw t0 c0 st'.
Proof.
  unfold may_throw, no_worker, worker_live, worker_released.
  intros H [H1|[H1|H1]]; rewrite H; auto.
Qed.

(** [await worker.terminate(); worker = null;] *)
Lemma hoare_release {A : Type} (k : M A) (Qn : A -> Machine -> Prop) :
  hoare (worker_released t0 c0) k Qn (may_throw t0 c0) ->
  hoare (worker_live t0 c0) (terminate ;; act (set_worker None) ;; k) Qn
    (may_throw t0 c0).
Proof.
  intros Hk.
  eapply hoare_bind with (R := fun _ => worker_terminated t0 c0).
  - apply hoare_act. intros st H. unfold worker_live, worker_terminated in *.
    account_open. apply account_intro; account_close; congruence || lia.
  - intros _. eapply hoare_bind with (R := fun _ => worker_released t0 c0).
    + apply hoare_act. intros st H.
      unfold worker_released, worker_terminated in *. account_open.
      apply account_intro; account_close; congruence || lia.
    + intros _. exact Hk.
Qed.

(** A block of setter calls after the release. *)
Ltac setters_after_release :=
  apply keeps_as_may_throw; [| unfold may_throw; auto];
  repeat lazymatch goal with
    | |- keeps _ (bind _ _) => apply keeps_bind; [| intros ?]
    | |- keeps _ (act _) => apply keeps_quiet; [by_account | account_tac]
    end.

(** The statements after the loop terminate the worker and clear the
    variable. *)
Lemma hoare_pdf_finish :
  hoare (worker_live t0 c0) pdf_finish
    (fun _ => worker_released t0 c0) (may_throw t0 c0).
Proof.
  unfold pdf_finish. apply hoare_release.
  intros st H.
  destruct (JsString.eqb (JsString.trim (fullText st)) []);
    match goal with
    | |- match ?c st with pair _ _ => _ end =>
        let L := fresh in
        assert (hoare (worker_released t0 c0) c
                  (fun _ => worker_released t0 c0) (may_throw t0 c0))
          as L by setters_after_release;
        exact (L st H)
    end.
Qed.

Lemma hoare_image_finish (resultText : jsstring) :
  hoare (worker_live t0 c0) (image_finish resultText)
    (fun _ => worker_released t0 c0) (may_throw t0 c0).
Proof.
  unfold image_finish. apply hoare_release.
  destruct (JsString.eqb (JsString.trim resultText) []); setters_after_release.
Qed.

(** A statement that keeps the phase [I], inside a [try] block. *)
Ltac quiet_step :=
  eapply hoare_bind;
    [ apply keeps_as_may_throw;
      [ lazymatch goal with
        | |- keeps _ (await _) => apply keeps_await
        | |- keeps _ (act _) => apply keeps_quiet; [by_account | account_tac]
        end
      | unfold may_throw; auto ]
    | intros ?; cbv beta ].

Lemma hoare_pdf_try (file : PdfScript) :
  hoare (no_worker t0 c0) (pdf_try rm file)
    (fun _ => worker_released t0 c0) (may_throw t0 c0).
Proof.
  unfold pdf_try.
  do 5 quiet_step.
  eapply hoare_bind;
    [ apply hoare_initializeTesseractWorker; apply account_deliver_pdf
    | intros w; cbv beta ].
  eapply hoare_bind; [apply hoare_assign_worker | intros ?; cbv beta].
  eapply hoare_bind;
    [ apply keeps_as_may_throw;
      [ apply keeps_ocrPages, account_page_invariant; by_account
      | unfold may_throw; auto ]
    | intros ?; cbv beta ].
  apply hoare_pdf_finish.
Qed.

Lemma hoare_image_try (file : ImageScript) :
  hoare (no_worker t0 c0) (image_try rm file)
    (fun _ => worker_released t0 c0) (may_throw t0 c0).
Proof.
  unfold image_try.
  eapply hoare_bind;
    [ apply hoare_initializeTesseractWorker; apply account_deliver_image
    | intros w; cbv beta ].
  eapply hoare_bind; [apply hoare_assign_worker | intros ?; cbv beta].
  eapply hoare_bind;
    [ apply keeps_as_may_throw;
      [ apply keeps_recognize;
        [ apply account_page_invariant; by_account
        | apply display_imageOcrLogger ]
      | unfold may_throw; auto ]
    | intros resultText; cbv beta ].
  apply hoare_image_finish.
Qed.

(** A [catch] block: setter calls, then the guarded termination. *)
Ltac catch_block :=
  repeat (eapply hoare_bind with (R := fun _ => may_throw t0 c0);
          [ apply hoare_act; intros ? ?;
            eapply may_throw_account; [| eassumption]; account_tac
          | intros ?; cbv beta ]);
  let st := fresh "st" in
  let H := fresh "H" in
  let Hb := fresh "Hb" in
  intros st H; pose proof (terminate_if_live_balances H) as Hb;
  destruct (terminate_if_live st) as [[[]|?] ?]; exact Hb.

Lemma hoare_pdf_catch (e : jsstring) :
  hoare (may_throw t0 c0) (pdf_catch e) (fun _ => balanced t0 c0) (balanced t0 c0).
Proof. unfold pdf_catch. catch_block. Qed.

Lemma hoare_image_catch (e : jsstring) :
  hoare (may_throw t0 c0) (image_catch e) (fun _ => balanced t0 c0) (balanced t0 c0).
Proof. unfold image_catch. catch_block. Qed.

(** A [finally] block: setter calls only. *)
Ltac finally_block :=
  repeat lazymatch goal with
    | |- hoare _ (bind _ _) _ _ =>
        eapply hoare_bind with (R := fun _ => balanced t0 c0); [| intros ?; cbv beta]
    | |- hoare _ (act _) _ _ =>
        apply hoare_act; intros ? ?;
        eapply balanced_account; [| eassumption]; account_tac
    end.

Lemma hoare_pdf_finally :
  hoare (balanced t0 c0) pdf_finally (fun _ => balanced t0 c0) (balanced t0 c0).
Proof. unfold pdf_finally. finally_block. Qed.

Lemma hoare_image_finally :
  hoare (balanced t0 c0) image_finally (fun _ => balanced t0 c0) (balanced t0 c0).
Proof. unfold image_finally. finally_block. Qed.

End WorkerLifecycle.

Lemma account_prelude (m : jsstring) (v : number) (st : Machine) :
  account (set_worker None (setProcessingProgress v (setProcessingMessage m st)))
  = (None, terminations (trace st), creations (trace st)).
Proof.
  apply account_intro; account_close; rewrite ?Nat.add_0_r; reflexivity.
Qed.

Lemma account_set_fullText (s : jsstring) (st : Machine) :
  account (set_fullText s st) = account st.
Proof. reflexivity. Qed.

Lemma exec_act_bind (f : Machine -> Machine) (k : M unit) (st : Machine) :
  exec (act f ;; k) st = exec k (f st).
Proof. reflexivity. Qed.

(* ===================================================================== *)
(** ** The worker is terminated once *)
(* ===================================================================== *)

(** C4.  Whatever the collaborators do, an image or PDF operation calls
    [worker.terminate()] exactly as often as [createWorker] handed out a
    worker, which is at most once: once when a worker was created (on the
    success, the empty and every error path), never when none was.  And a
    release that follows the release of the success path does nothing: after
    [terminate(); worker = null] the guarded [if (worker) terminate()] of the
    [catch] block has no effect at all. *)
Theorem worker_terminated_exactly_once (rm : jsstring) (st : Machine) :
  (forall file : ImageScript,
      exists k, k <= 1
        /\ creations (trace (exec (ocrImageFile rm file) st))
           = creations (trace st) + k
        /\ terminations (trace (exec (ocrImageFile rm file) st))
           = terminations (trace st) + k)
  /\ (forall file : PdfScript,
      exists k, k <= 1
        /\ creations (trace (exec (ocrPdfDocument rm file) st))
           = creations (trace st) + k
        /\ terminations (trace (exec (ocrPdfDocument rm file) st))
           = terminations (trace st) + k)
  /\ (forall s : Machine,
      exec (terminate ;; act (set_worker None) ;; terminate_if_live) s
      = exec (terminate ;; act (set_worker None)) s).
Proof.
  split; [|split].
  - intros file. unfold ocrImageFile. rewrite !exec_act_bind.
    apply (hoare_try_catch_finally
             (P := no_worker (terminations (trace st)) (creations (trace st)))
             (Qb := balanced (terminations (trace st)) (creations (trace st)))
             (E := may_throw (terminations (trace st)) (creations (trace st)))).
    + eapply hoare_weaken;
        [ apply (@hoare_image_try rm (terminations (trace st)) (creations (trace st)))
        | auto | | auto ].
      intros ? s. apply released_balanced.
    + apply hoare_image_catch.
    + apply hoare_image_finally.
    + apply account_prelude.
  - intros file. unfold ocrPdfDocument. rewrite !exec_act_bind.
    apply (hoare_try_catch_finally
             (P := no_worker (terminations (trace st)) (creations (trace st)))
             (Qb := balanced (terminations (trace st)) (creations (trace st)))
             (E := may_throw (terminations (trace st)) (creations (trace st)))).
    + eapply hoare_weaken;
        [ apply (@hoare_pdf_try rm (terminations (trace st)) (creations (trace st)))
        | auto | | auto ].
      intros ? s. apply released_balanced.
    + apply hoare_pdf_catch.
    + apply hoare_pdf_finally.
    + unfold no_worker. rewrite account_set_fullText. apply account_prelude.
  - intros s. reflexivity.
Qed.

(* ===================================================================== *)
(** ** The state an operation leaves *)
(* ===================================================================== *)

Lemma hoare_any {A : Type} (c : M A) :
  hoare (fun _ => True) c (fun _ _ => True) (fun _ => True).
Proof. intros st _. destruct (c st) as [[a|e] st']; exact Logic.I. Qed.

Lemma image_finally_resets :
  hoare (fun _ => True) image_finally (fun _ => display_reset) display_reset.
Proof. intros st _. unfold display_reset. cbn. auto. Qed.

Lemma pdf_finally_resets :
  hoare (fun _ => True) pdf_finally
    (fun _ st => display_reset st /\ ocrPageProgressDataRef st = reset_ref)
    (fun st => display_reset st /\ ocrPageProgressDataRef st = reset_ref).
Proof. intros st _. unfold display_reset. cbn. auto. Qed.

Lemma ocrImageFile_resets (rm : jsstring) (file : ImageScript) (st : Machine) :
  display_reset (exec (ocrImageFile rm file) st).
Proof.
  unfold ocrImageFile. rewrite !exec_act_bind.
  apply (hoare_try_catch_finally
           (P := fun _ => True) (Qb := fun _ => True) (E := fun _ => True)
           (Qf := display_reset));
    [apply hoare_any | intros e; apply hoare_any | apply image_finally_resets
    | exact Logic.I].
Qed.

Lemma ocrPdfDocument_resets (rm : jsstring) (file : PdfScript) (st : Machine) :
  display_reset (exec (ocrPdfDocument rm file) st)
  /\ ocrPageProgressDataRef (exec (ocrPdfDocument rm file) st) = reset_ref.
Proof.
  unfold ocrPdfDocument. rewrite !exec_act_bind.
  apply (hoare_try_catch_finally
           (P := fun _ => True) (Qb := fun _ => True) (E := fun _ => True)
           (Qf := fun s => display_reset s /\ ocrPageProgressDataRef s = reset_ref));
    [apply hoare_any | intros e; apply hoare_any | apply pdf_finally_resets
    | exact Logic.I].
Qed.

(** C9.  When an image or PDF operation has ended, on whichever path, the
    loading flag is false, the processing message is the empty string and the
    processing progress is 0; after a PDF operation the ref holds
    [{ currentPage: 0, totalPages: 0, baseProgress: 0, pageBudget: 0 }].  These
    are the values of the initial state, so the next operation starts from
    the same progress state. *)
Theorem progress_state_reset_after_operation (rm : jsstring) (st : Machine) :
  (forall file : ImageScript,
      isLoading (exec (ocrImageFile rm file) st) = isLoading initial
      /\ processingMessage (exec (ocrImageFile rm file) st) = []
      /\ processingProgress (exec (ocrImageFile rm file) st) = JsNumber.of_Z 0)
  /\ (forall file : PdfScript,
      isLoading (exec (ocrPdfDocument rm file) st) = isLoading initial
      /\ processingMessage (exec (ocrPdfDocument rm file) st) = []
      /\ processingProgress (exec (ocrPdfDocument rm file) st) = JsNumber.of_Z 0
      /\ ocrPageProgressDataRef (exec (ocrPdfDocument rm file) st)
         = {| currentPage := 0; totalPages := 0;
              baseProgress := JsNumber.of_Z 0; pageBudget := JsNumber.of_Z 0 |}
      /\ ocrPageProgressDataRef (exec (ocrPdfDocument rm file) st)
         = ocrPageProgressDataRef initial).
Proof.
  split; intros file.
  - apply ocrImageFile_resets.
  - destruct (ocrPdfDocument_resets rm file st) as [(H1 & H2 & H3) H4].
    repeat split; assumption.
Qed.

(* ===================================================================== *)
(** ** The trace only grows *)
(* ===================================================================== *)

Lemma extends_refl (st : Machine) : extends (trace st) st.
Proof. exists []. rewrite app_nil_r. reflexivity. Qed.

Lemma extends_app (t : list Effect) (st st' : Machine) (more : list Effect) :
  trace st' = trace st ++ more -> extends t st -> extends t st'.
Proof.
  intros H [out Ho]. exists (out ++ more). rewrite H, Ho, app_assoc. reflexivity.
Qed.

Lemma extends_same (t : list Effect) (st st' : Machine) :
  trace st' = trace st -> extends t st -> extends t st'.
Proof. intros H [out Ho]. exists out. congruence. Qed.

Lemma extends_page_invariant (t : list Effect) : page_invariant (extends t).
Proof.
  constructor.
  - intros st st' [_ _ _ _ _ _ _ (out & H & _)] Hst.
    eapply extends_app; eassumption.
  - intros e st _. apply (@extends_app t st _ [e]). reflexivity.
  - intros d st. apply extends_same. reflexivity.
  - intros s st. apply extends_same. reflexivity.
Qed.

(** A setter call or a recorded effect lengthens the trace by one, an
    assignment to a variable or to the ref leaves it. *)
Ltac extends_act :=
  apply keeps_act; intros ? ?;
  first
    [ eapply extends_same; [reflexivity | eassumption]
    | eapply extends_app; [reflexivity | eassumption] ].

Ltac extends_block :=
  repeat lazymatch goal with
    | |- keeps _ (bind _ _) => apply keeps_bind; [| intros ?]
    | |- keeps _ (await _) => apply keeps_await
    | |- keeps _ (ret _) => apply keeps_ret
    | |- keeps _ (throw _) => apply keeps_throw
    | |- keeps _ terminate => unfold terminate
    | |- keeps _ (act _) => extends_act
    end.

Section TraceGrows.

Variable rm : jsstring.
Variable t : list Effect.

Lemma extends_terminate_if_live : keeps (extends t) terminate_if_live.
Proof.
  intros st H. unfold terminate_if_live.
  destruct (worker st); [| exact H].
  revert H. apply (@extends_app t st _ [ETerminate]). reflexivity.
Qed.

Lemma extends_initializeTesseractWorker
    (logger : TesseractProgressUpdate -> Machine -> Machine) (w : WorkerScript) :
  (forall m st, display_step st (logger m st)) ->
  keeps (extends t) (initializeTesseractWorker logger w).
Proof.
  intros Hl. unfold initializeTesseractWorker.
  apply keeps_bind; [| intros _].
  { apply keeps_act. intros st. apply (pi_display (extends_page_invariant t)).
    apply display_deliver, Hl. }
  destruct (create_settles w); extends_block.
Qed.

Lemma extends_pdf_finish : keeps (extends t) pdf_finish.
Proof.
  unfold pdf_finish.
  apply keeps_bind; [extends_block | intros _].
  apply keeps_bind; [extends_block | intros _].
  intros st H.
  destruct (JsString.eqb (JsString.trim (fullText st)) []);
    match goal with
    | |- match ?c st with pair _ _ => _ end =>
        let L := fresh in
        assert (keeps (extends t) c) as L by extends_block;
        exact (L st H)
    end.
Qed.

Lemma extends_image_finish (resultText : jsstring) :
  keeps (extends t) (image_finish resultText).
Proof.
  unfold image_finish.
  apply keeps_bind; [extends_block | intros _].
  apply keeps_bind; [extends_block | intros _].
  destruct (JsString.eqb (JsString.trim resultText) []); extends_block.
Qed.

Lemma extends_pdf_try (file : PdfScript) : keeps (extends t) (pdf_try rm file).
Proof.
  unfold pdf_try.
  do 5 (apply keeps_bind; [extends_block | intros ?]).
  apply keeps_bind;
    [ apply extends_initializeTesseractWorker, display_pageAwarePdfOcrLogger
    | intros w ].
  apply keeps_bind; [extends_block | intros _].
  apply keeps_bind;
    [apply keeps_ocrPages, extends_page_invariant | intros _].
  apply extends_pdf_finish.
Qed.

Lemma extends_image_try (file : ImageScript) :
  keeps (extends t) (image_try rm file).
Proof.
  unfold image_try.
  apply keeps_bind;
    [ apply extends_initializeTesseractWorker, display_imageOcrLogger
    | intros w ].
  apply keeps_bind; [extends_block | intros _].
  apply keeps_bind;
    [ apply keeps_recognize;
      [apply extends_page_invariant | apply display_imageOcrLogger]
    | intros resultText ].
  apply extends_image_finish.
Qed.

Lemma extends_pdf_catch (e : jsstring) : keeps (extends t) (pdf_catch e).
Proof.
  unfold pdf_catch.
  do 3 (apply keeps_bind; [extends_block | intros _]).
  apply extends_terminate_if_live.
Qed.

Lemma extends_image_catch (e : jsstring) : keeps (extends t) (image_catch e).
Proof.
  unfold image_catch.
  do 3 (apply keeps_bind; [extends_block | intros _]).
  apply extends_terminate_if_live.
Qed.

Lemma extends_ocrPdfDocument (file : PdfScript) (st : Machine) :
  extends t st -> extends t (exec (ocrPdfDocument rm file) st).
Proof.
  intros H. unfold ocrPdfDocument. rewrite !exec_act_bind.
  apply (hoare_try_catch_finally
           (P := extends t) (Qb := extends t) (E := extends t) (Qf := extends t)).
  - apply extends_pdf_try.
  - apply extends_pdf_catch.
  - unfold pdf_finally. change (keeps (extends t)
      (act (setIsLoading false) ;; act (setProcessingMessage []) ;;
       act (setProcessingProgress zero) ;; act (set_ref reset_ref))).
    extends_block.
  - eapply extends_same; [reflexivity|].
    eapply extends_same; [reflexivity|].
    eapply extends_app; [reflexivity|].
    eapply extends_app; [reflexivity|]. exact H.
Qed.

Lemma extends_ocrImageFile (file : ImageScript) (st : Machine) :
  extends t st -> extends t (exec (ocrImageFile rm file) st).
Proof.
  intros H. unfold ocrImageFile. rewrite !exec_act_bind.
  apply (hoare_try_catch_finally
           (P := extends t) (Qb := extends t) (E := extends t) (Qf := extends t)).
  - apply extends_image_try.
  - apply extends_image_catch.
  - unfold image_finally. change (keeps (extends t)
      (act (setIsLoading false) ;; act (setProcessingMessage []) ;;
       act (setProcessingProgress zero))).
    extends_block.
  - eapply extends_same; [reflexivity|].
    eapply extends_app; [reflexivity|].
    eapply extends_app; [reflexivity|]. exact H.
Qed.

End TraceGrows.

(* ===================================================================== *)
(** ** No text without a success *)
(* ===================================================================== *)

Lemma no_stale_text_same (st st' : Machine) :
  statusMessage st' = statusMessage st ->
  rawExtractedText st' = rawExtractedText st ->
  no_stale_text st -> no_stale_text st'.
Proof. unfold no_stale_text, outcome. intros -> ->. trivial. Qed.

Ltac peel :=
  eapply hoare_bind with (R := fun _ _ => True);
    [apply hoare_any | intros ?; cbv beta].

Section Verdict.

Variable rm : jsstring.

Lemma pdf_finish_verdict :
  hoare (fun _ => True) pdf_finish (fun _ => no_stale_text) (fun _ => True).
Proof.
  unfold pdf_finish. do 2 peel. intros st _.
  destruct (JsString.eqb (JsString.trim (fullText st)) []);
    unfold bind, act; cbn [fst snd]; reflexivity || exact Logic.I.
Qed.

Lemma image_finish_verdict (resultText : jsstring) :
  hoare (fun _ => True) (image_finish resultText)
    (fun _ => no_stale_text) (fun _ => True).
Proof.
  unfold image_finish. do 2 peel. intros st _.
  destruct (JsString.eqb (JsString.trim resultText) []);
    unfold bind, act; cbn [fst snd]; reflexivity || exact Logic.I.
Qed.

Lemma terminate_if_live_verdict :
  hoare no_stale_text terminate_if_live (fun _ => no_stale_text) no_stale_text.
Proof.
  intros st H. unfold terminate_if_live. destruct (worker st); [| exact H].
  revert H. apply no_stale_text_same; reflexivity.
Qed.

Lemma pdf_catch_verdict (e : jsstring) :
  hoare (fun _ => True) (pdf_catch e) (fun _ => no_stale_text) no_stale_text.
Proof.
  unfold pdf_catch.
  eapply hoare_bind with (R := fun _ _ => True);
    [apply hoare_act; intros; exact Logic.I | intros _].
  eapply hoare_bind with (R := fun _ st => rawExtractedText st = []);
    [apply hoare_act; reflexivity | intros _].
  eapply hoare_bind with (R := fun _ => no_stale_text);
    [apply hoare_act; intros st H; exact H | intros _].
  apply terminate_if_live_verdict.
Qed.

Lemma image_catch_verdict (e : jsstring) :
  hoare (fun _ => True) (image_catch e) (fun _ => no_stale_text) no_stale_text.
Proof.
  unfold image_catch.
  eapply hoare_bind with (R := fun _ _ => True);
    [apply hoare_act; intros; exact Logic.I | intros _].
  eapply hoare_bind with (R := fun _ st => rawExtractedText st = []);
    [apply hoare_act; reflexivity | intros _].
  eapply hoare_bind with (R := fun _ => no_stale_text);
    [apply hoare_act; intros st H; exact H | intros _].
  apply terminate_if_live_verdict.
Qed.

Lemma pdf_finally_verdict :
  hoare no_stale_text pdf_finally (fun _ => no_stale_text) no_stale_text.
Proof.
  intros st H. unfold pdf_finally, bind, act. cbn [fst snd].
  revert H. apply no_stale_text_same; reflexivity.
Qed.

Lemma image_finally_verdict :
  hoare no_stale_text image_finally (fun _ => no_stale_text) no_stale_text.
Proof.
  intros st H. unfold image_finally, bind, act. cbn [fst snd].
  revert H. apply no_stale_text_same; reflexivity.
Qed.

Lemma ocrPdfDocument_verdict (file : PdfScript) (st : Machine) :
  no_stale_text (exec (ocrPdfDocument rm file) st).
Proof.
  unfold ocrPdfDocument. rewrite !exec_act_bind.
  apply (hoare_try_catch_finally
           (P := fun _ => True) (Qb := no_stale_text) (E := fun _ => True)
           (Qf := no_stale_text)); [| | | exact Logic.I].
  - unfold pdf_try. do 8 peel. apply pdf_finish_verdict.
  - apply pdf_catch_verdict.
  - apply pdf_finally_verdict.
Qed.

Lemma ocrImageFile_verdict (file : ImageScript) (st : Machine) :
  no_stale_text (exec (ocrImageFile rm file) st).
Proof.
  unfold ocrImageFile. rewrite !exec_act_bind.
  apply (hoare_try_catch_finally
           (P := fun _ => True) (Qb := no_stale_text) (E := fun _ => True)
           (Qf := no_stale_text)); [| | | exact Logic.I].
  - unfold image_try. do 3 peel. apply image_finish_verdict.
  - apply image_catch_verdict.
  - apply image_finally_verdict.
Qed.

End Verdict.

Lemma accept_file_forgets (f : File) (old : jsstring) (st : Machine) :
  accept_file f (with_rawExtractedText old st) = accept_file f st.
Proof. reflexivity. Qed.

Lemma trace_record (e : Effect) (st : Machine) :
  trace (record e st) = trace st ++ [e].
Proof. reflexivity. Qed.

Lemma trace_setRawExtractedText (s : jsstring) (st : Machine) :
  trace (setRawExtractedText s st) = trace st ++ [ESetRawText s].
Proof. reflexivity. Qed.

Lemma trace_setIsLoading (b : bool) (st : Machine) :
  trace (setIsLoading b st) = trace st ++ [ESetLoading b].
Proof. reflexivity. Qed.

Lemma trace_setStatusMessage (m : StatusMessage) (st : Machine) :
  trace (setStatusMessage m st) = trace st ++ [ESetStatus m].
Proof. reflexivity. Qed.

Lemma trace_setCurrentFile (f : option File) (st : Machine) :
  trace (setCurrentFile f st) = trace st ++ [ESetCurrentFile f].
Proof. reflexivity. Qed.

Lemma trace_setProcessingProgress (v : number) (st : Machine) :
  trace (setProcessingProgress v st) = trace st ++ [ESetProgress v].
Proof. reflexivity. Qed.

Lemma trace_setProcessingMessage (m : jsstring) (st : Machine) :
  trace (setProcessingMessage m st) = trace st ++ [ESetMessage m].
Proof. reflexivity. Qed.

Lemma trace_clearStatusMessageAfterDelay (d : option Z) (st : Machine) :
  trace (clearStatusMessageAfterDelay d st) = trace st ++ [EClearStatusAfter d].
Proof. reflexivity. Qed.

Lemma trace_set_ref (d : PageProgressData) (st : Machine) :
  trace (set_ref d st) = trace st.
Proof. reflexivity. Qed.

Lemma trace_set_worker (w : option Worker) (st : Machine) :
  trace (set_worker w st) = trace st.
Proof. reflexivity. Qed.

Lemma trace_set_fullText (s : jsstring) (st : Machine) :
  trace (set_fullText s st) = trace st.
Proof. reflexivity. Qed.

Create Rewrite HintDb trace_db.
#[local] Hint Rewrite trace_record trace_setRawExtractedText trace_setIsLoading
  trace_setStatusMessage trace_setCurrentFile trace_setProcessingProgress
  trace_setProcessingMessage trace_clearStatusMessageAfterDelay trace_set_ref
  trace_set_worker trace_set_fullText : trace_db.

Lemma accept_file_trace (f : File) (st : Machine) :
  trace (accept_file f st)
  = trace st ++ [ESetLoading true; ESetCurrentFile (Some f); ESetRawText [];
                 ESetStatus {| text := str "Carregando arquivo: " ++ file_name f;
                               type := info |};
                 EClearStatusAfter (Some 2000%Z)].
Proof.
  unfold accept_file. autorewrite with trace_db.
  rewrite <- !app_assoc. reflexivity.
Qed.

Lemma handleFile_accepts (rm : jsstring) (f : File) (content : FileScript)
    (st : Machine) :
  handleFile rm (Some f) content st
  = if JsString.eqb (file_type f) (str "application/pdf") then
      exec (ocrPdfDocument rm (as_pdf content)) (accept_file f st)
    else if JsString.startsWith (file_type f) (str "image/") then
      exec (ocrImageFile rm (as_image content)) (accept_file f st)
    else
      setCurrentFile None
        (setIsLoading false
           (clearStatusMessageAfterDelay None
              (setStatusMessage
                 {| text := str "Tipo de arquivo não suportado. Use PDF ou Imagem.";
                    type := warning |}
                 (accept_file f st)))).
Proof. reflexivity. Qed.

(** C10, as the code has it, for an operation that runs to its end with
    no other handler in between.  Accepting a file clears the raw extracted
    text before anything is processed: the first three effects of
    [handleFile] are
    [setIsLoading(true)], [setCurrentFile(file)], [setRawExtractedText('')],
    and everything else the operation does comes after them.  The text that
    was there before cannot influence the run: two states that differ in it
    only are taken to the same state.  And when the run ends, the raw text is
    the empty string unless the status message reports a success, so an
    error or empty outcome leaves it empty; this also holds for each
    operation from any state. *)
Theorem stale_text_never_survives (rm : jsstring) (f : File)
    (content : FileScript) (st : Machine) :
  (exists rest,
      trace (handleFile rm (Some f) content st)
      = trace st
        ++ [ESetLoading true; ESetCurrentFile (Some f); ESetRawText []] ++ rest)
  /\ (forall old,
      handleFile rm (Some f) content (with_rawExtractedText old st)
      = handleFile rm (Some f) content st)
  /\ match outcome (handleFile rm (Some f) content st) with
     | Some success => True
     | _ => rawExtractedText (handleFile rm (Some f) content st) = []
     end
  /\ match outcome (exec (ocrImageFile rm (as_image content)) st) with
     | Some success => True
     | _ => rawExtractedText (exec (ocrImageFile rm (as_image content)) st) = []
     end
  /\ match outcome (exec (ocrPdfDocument rm (as_pdf content)) st) with
     | Some success => True
     | _ => rawExtractedText (exec (ocrPdfDocument rm (as_pdf content)) st) = []
     end.
Proof.
  split; [|split; [|split; [|split]]].
  - assert (extends (trace (accept_file f st)) (handleFile rm (Some f) content st))
      as [out Hout].
    { rewrite handleFile_accepts.
      destruct (JsString.eqb (file_type f) (str "application/pdf")).
      - apply extends_ocrPdfDocument, extends_refl.
      - destruct (JsString.startsWith (file_type f) (str "image/")).
        + apply extends_ocrImageFile, extends_refl.
        + eexists. autorewrite with trace_db. rewrite <- !app_assoc. reflexivity. }
    rewrite Hout, accept_file_trace.
    eexists. rewrite <- !app_assoc. cbn [app]. reflexivity.
  - intros old. rewrite !handleFile_accepts, accept_file_forgets. reflexivity.
  - rewrite handleFile_accepts.
    destruct (JsString.eqb (file_type f) (str "application/pdf")).
    + apply ocrPdfDocument_verdict.
    + destruct (JsString.startsWith (file_type f) (str "image/")).
      * apply ocrImageFile_verdict.
      * reflexivity.
  - apply ocrImageFile_verdict.
  - apply ocrPdfDocument_verdict.
Qed.

(** The two parts of [ocrImageFile] make up the operation. *)
Lemma image_resumes (rm : jsstring) (file : ImageScript) (st : Machine) :
  create_settles (image_createWorker file) = Resolved tt ->
  exec (ocrImageFile rm file) st
  = exec (image_from_recognize rm file) (image_until_recognize rm file st).
Proof.
  destruct file as [[cm cs] r]. cbn [image_createWorker create_settles].
  intros ->. reflexivity.
Qed.

(** C10 as stated fails: [handleFile] does not await the operation it
    starts.  While [scan.png] is recognised a text file is dropped and
    rejected, which leaves no current file and an empty raw text; when the
    recognition resolves, the earlier operation writes its text and its
    success message into that state. *)
Lemma stale_text_survives_overlap :
  exec (image_from_recognize [] one_line_image) overlap_started
  = handleFile [] (Some png_file)
      {| as_pdf := unreadable_pdf; as_image := one_line_image |} initial
  /\ currentFile overlap_started = Some png_file
  /\ isLoading overlap_started = true
  /\ rawExtractedText overlap_rejected = []
  /\ currentFile overlap_rejected = None
  /\ outcome overlap_rejected = Some warning
  /\ rawExtractedText overlap_finished = str "Alpha" ++ [10%N]
  /\ currentFile overlap_finished = None
  /\ outcome overlap_finished = Some success
  /\ rawExtractedText overlap_finished <> [].
Proof.
  repeat split; try (vm_compute; reflexivity).
  vm_compute. discriminate.
Qed.

(* ===================================================================== *)
(** ** Unsupported files *)
(* ===================================================================== *)

Lemma eqb_eq (a b : jsstring) : JsString.eqb a b = true <-> a = b.
Proof.
  revert b. induction a as [|x a IH]; intros [|y b]; simpl;
    try (split; [discriminate | discriminate]); [tauto|].
  rewrite andb_true_iff, N.eqb_eq, IH. split.
  - intros [-> ->]. reflexivity.
  - intros H. injection H. auto.
Qed.

Lemma startsWith_spec (s p : jsstring) :
  JsString.startsWith s p = true <-> exists rest, s = p ++ rest.
Proof.
  revert s. induction p as [|y p IH]; intros s; simpl.
  - split; [intros _; exists s; reflexivity | intros _; destruct s; reflexivity].
  - destruct s as [|x s].
    + split; [discriminate | intros [rest H]; discriminate].
    + cbn [JsString.startsWith]. rewrite andb_true_iff, N.eqb_eq, IH. split.
      * intros [-> [rest ->]]. exists rest. reflexivity.
      * intros [rest H]. injection H as -> ->. split; [reflexivity | eauto].
Qed.

(** C7, as the code has it.  A file whose type is neither
    [application/pdf] nor starts with [image/] is rejected with a warning,
    not with the error of a failed operation: besides the setter calls of
    acceptance, the run
    only sets the status message "Tipo de arquivo não suportado. Use PDF ou
    Imagem." (of type [warning]), arms its timer, and clears the loading
    flag and the current file.  No call to pdf.js or Tesseract is made (no
    worker created, no parsing, no recognition) and neither
    [setProcessingProgress] nor [setProcessingMessage] is called. *)
Theorem unsupported_type_rejected_before_allocation (rm : jsstring) (f : File)
    (content : FileScript) (st : Machine) :
  file_type f <> str "application/pdf" ->
  (forall rest, file_type f <> str "image/" ++ rest) ->
  let st' := handleFile rm (Some f) content st in
  (exists out,
      trace st' = trace st ++ out
      /\ Forall (fun e => is_resource e = false /\ is_progress e = false) out)
  /\ outcome st' = Some warning
  /\ statusMessage st'
     = Some {| text := str "Tipo de arquivo não suportado. Use PDF ou Imagem.";
               type := warning |}
  /\ currentFile st' = None
  /\ isLoading st' = false
  /\ rawExtractedText st' = []
  /\ worker st' = worker st
  /\ processingProgress st' = processingProgress st
  /\ processingMessage st' = processingMessage st.
Proof.
  intros Hpdf Himg st'. subst st'. rewrite handleFile_accepts.
  destruct (JsString.eqb (file_type f) (str "application/pdf")) eqn:E1.
  { apply eqb_eq in E1. contradiction. }
  destruct (JsString.startsWith (file_type f) (str "image/")) eqn:E2.
  { apply startsWith_spec in E2. destruct E2 as [rest E2].
    exfalso. exact (Himg rest E2). }
  split; [| repeat split].
  eexists. split.
  - autorewrite with trace_db. rewrite accept_file_trace, <- !app_assoc.
    cbn [app]. reflexivity.
  - repeat constructor.
Qed.

Lemma unsupported_type_rejected_witness :
  file_type plain_text_file <> str "application/pdf"
  /\ (forall rest, file_type plain_text_file <> str "image/" ++ rest)
  /\ outcome (handleFile [] (Some plain_text_file) blank_content initial)
     = Some warning
  /\ currentFile (handleFile [] (Some plain_text_file) blank_content initial) = None.
Proof.
  assert (file_type plain_text_file <> str "application/pdf") as H1
    by (vm_compute; discriminate).
  assert (forall rest, file_type plain_text_file <> str "image/" ++ rest) as H2
    by (intros rest; vm_compute; discriminate).
  pose proof (@unsupported_type_rejected_before_allocation
                [] plain_text_file blank_content initial H1 H2)
    as (_ & Ho & _ & Hc & _).
  repeat split; assumption.
Defined.

(** C7 as stated fails in its outcome: the rejected file does not end in
    the outcome of a failed operation (a status message of type [error])
    but in a warning, the type of the empty outcome. *)
Lemma unsupported_type_not_failed :
  outcome (handleFile [] (Some plain_text_file) blank_content initial)
  = Some warning
  /\ outcome (handleFile [] (Some plain_text_file) blank_content initial)
     <> Some error
  /\ outcome (exec (ocrImageFile [] (readable_image [] [] [])) initial)
     = Some warning
  /\ outcome (exec (ocrImageFile [] unrecognizable_image) initial) = Some error.
Proof.
  repeat split; try (vm_compute; reflexivity).
  vm_compute. discriminate.
Qed.

(* ===================================================================== *)
(** ** Rounding to binary64 *)
(* ===================================================================== *)

Section Binary64.

Local Open Scope Q_scope.

Local Abbreviation rne := JsNumber.rne.
Local Abbreviation pow2 := JsNumber.pow2.
Local Abbreviation ilog2 := JsNumber.ilog2.
Local Abbreviation grid := JsNumber.grid.
Local Abbreviation nearest := JsNumber.nearest.
Local Abbreviation fin := JsNumber.fin.

Lemma pow2_pos (e : Z) : 0 < pow2 e.
Proof. apply Qpower_0_lt. reflexivity. Qed.

Lemma pow2_le (a b : Z) : (a <= b)%Z -> pow2 a <= pow2 b.
Proof. intros H. apply Qpower_le_compat_l; [exact H | discriminate]. Qed.

Lemma pow2_lt (a b : Z) : (a < b)%Z -> pow2 a < pow2 b.
Proof. intros H. apply Qpower_lt_compat_l; [exact H | reflexivity]. Qed.

Lemma pow2_plus (a b : Z) : pow2 (a + b) == pow2 a * pow2 b.
Proof. apply Qpower_plus. discriminate. Qed.

Lemma pow2_succ (a : Z) : pow2 (a + 1) == 2 * pow2 a.
Proof. rewrite pow2_plus. unfold JsNumber.pow2 at 2. simpl. ring. Qed.

Lemma pow2_Z (n : Z) : (0 <= n)%Z -> pow2 n == inject_Z (2 ^ n).
Proof. intros H. rewrite Zpower_Qpower by exact H. reflexivity. Qed.

(** *** Rounding to the nearest integer, ties to even *)

Lemma rne_floor (q : Q) : (Qfloor q <= rne q <= Qfloor q + 1)%Z.
Proof.
  unfold JsNumber.rne. destruct (Qcompare _ _); [destruct (Z.even _) | |]; lia.
Qed.

Lemma rne_mono (x y : Q) : x <= y -> (rne x <= rne y)%Z.
Proof.
  intros H. pose proof (Qfloor_resp_le x y H) as F.
  pose proof (rne_floor x) as Rx. pose proof (rne_floor y) as Ry.
  destruct (Z.eq_dec (Qfloor x) (Qfloor y)) as [E|E]; [| lia].
  clear Rx Ry. unfold JsNumber.rne. rewrite <- E.
  destruct (Qcompare_spec (x - inject_Z (Qfloor x)) (1 # 2)) as [Cx|Cx|Cx];
    destruct (Qcompare_spec (y - inject_Z (Qfloor x)) (1 # 2)) as [Cy|Cy|Cy];
    destruct (Z.even (Qfloor x)); try lia; exfalso; lra.
Qed.

Lemma rne_inject_Z (k : Z) : rne (inject_Z k) = k.
Proof.
  unfold JsNumber.rne. rewrite Qfloor_Z.
  assert (Qcompare (inject_Z k - inject_Z k) (1 # 2) = Lt) as ->.
  { apply (proj1 (Qlt_alt _ _)). lra. }
  reflexivity.
Qed.

Lemma rne_ge (k : Z) (q : Q) : inject_Z k <= q -> (k <= rne q)%Z.
Proof. intros H. rewrite <- (rne_inject_Z k). apply rne_mono, H. Qed.

Lemma rne_le (k : Z) (q : Q) : q <= inject_Z k -> (rne q <= k)%Z.
Proof. intros H. rewrite <- (rne_inject_Z k). apply rne_mono, H. Qed.

(** *** The binary exponent *)

Lemma ilog2_bounds (q D N A B E : Q) :
  0 < D -> 0 < E -> 0 < B ->
  q * D == N -> A <= N -> N < 2 * A -> B <= D -> D < 2 * B -> E * B == A ->
  E < 2 * q /\ q < 2 * E.
Proof.
  intros HD HE HB Hq N1 N2 D1 D2 HA. split.
  - apply Qmult_lt_r with (z := D); [exact HD |].
    assert (E * D < E * (2 * B)) as H1 by (apply Qmult_lt_l; assumption).
    lra.
  - apply Qmult_lt_r with (z := D); [exact HD |].
    assert (E * B <= E * D) as H1
      by (apply Qmult_le_l; assumption).
    lra.
Qed.

Lemma ilog2_spec (q : Q) :
  0 < q -> pow2 (ilog2 q) <= q /\ q < pow2 (ilog2 q + 1).
Proof.
  intros Hq. destruct q as [n d].
  assert (0 < n)%Z as Hn by (unfold Qlt in Hq; cbn in Hq; lia).
  unfold JsNumber.ilog2. cbn [Qnum Qden].
  set (ln := Z.log2 n). set (ld := Z.log2 (Z.pos d)).
  destruct (Z.log2_spec n Hn) as [N1 N2]. fold ln in N1, N2.
  destruct (Z.log2_spec (Z.pos d) eq_refl) as [D1 D2]. fold ld in D1, D2.
  assert (0 <= ln)%Z as Ln by apply Z.log2_nonneg.
  assert (0 <= ld)%Z as Ld by apply Z.log2_nonneg.
  assert (pow2 ln <= inject_Z n) as N1q
    by (rewrite pow2_Z by exact Ln; rewrite <- Zle_Qle; exact N1).
  assert (inject_Z n < 2 * pow2 ln) as N2q.
  { rewrite <- pow2_succ, pow2_Z by lia. rewrite <- Zlt_Qlt.
    replace (ln + 1)%Z with (Z.succ ln) by lia. exact N2. }
  assert (pow2 ld <= inject_Z (Z.pos d)) as D1q
    by (rewrite pow2_Z by exact Ld; rewrite <- Zle_Qle; exact D1).
  assert (inject_Z (Z.pos d) < 2 * pow2 ld) as D2q.
  { rewrite <- pow2_succ, pow2_Z by lia. rewrite <- Zlt_Qlt.
    replace (ld + 1)%Z with (Z.succ ld) by lia. exact D2. }
  assert (pow2 (ln - ld) * pow2 ld == pow2 ln) as HA.
  { rewrite <- pow2_plus. replace (ln - ld + ld)%Z with ln by lia. reflexivity. }
  assert ((n # d) * inject_Z (Z.pos d) == inject_Z n) as Hq'.
  { unfold Qeq. cbn. lia. }
  assert (0 < inject_Z (Z.pos d)) as HD by reflexivity.
  destruct (ilog2_bounds HD (pow2_pos (ln - ld)) (pow2_pos ld) Hq' N1q N2q D1q D2q HA)
    as [L U].
  destruct (Qle_bool (pow2 (ln - ld)) (n # d)) eqn:C.
  - apply Qle_bool_iff in C. split; [exact C |].
    rewrite pow2_succ. exact U.
  - assert (n # d < pow2 (ln - ld)) as C'.
    { apply Qnot_le_lt. intros H. apply Qle_bool_iff in H. congruence. }
    replace (ln - ld - 1 + 1)%Z with (ln - ld)%Z by lia.
    split; [| exact C'].
    assert (2 * pow2 (ln - ld - 1) == pow2 (ln - ld)) as H2.
    { rewrite <- pow2_succ. replace (ln - ld - 1 + 1)%Z with (ln - ld)%Z by lia.
      reflexivity. }
    lra.
Qed.

Lemma ilog2_mono (x y : Q) : 0 < x -> x <= y -> (ilog2 x <= ilog2 y)%Z.
Proof.
  intros Hx H. assert (0 < y) as Hy by lra.
  destruct (ilog2_spec Hx) as [X1 X2]. destruct (ilog2_spec Hy) as [Y1 Y2].
  destruct (Z.le_gt_cases (ilog2 x) (ilog2 y)) as [L|L]; [exact L |].
  assert (pow2 (ilog2 y + 1) <= pow2 (ilog2 x)) as P by (apply pow2_le; lia).
  exfalso. lra.
Qed.

(** *** Rounding to the nearest binary64 number *)

Lemma grid_mono (x y : Q) : 0 < x -> x <= y -> (grid x <= grid y)%Z.
Proof. intros Hx H. unfold JsNumber.grid. pose proof (ilog2_mono Hx H). lia. Qed.

Lemma nearest_nonneg (q : Q) : 0 < q -> 0 <= nearest q.
Proof.
  intros H. unfold JsNumber.nearest. apply Qmult_le_0_compat.
  - change 0 with (inject_Z 0). rewrite <- Zle_Qle. apply rne_ge.
    apply Qlt_le_weak, Qlt_shift_div_l; [apply pow2_pos |].
    change (inject_Z 0) with 0. rewrite Qmult_0_l. exact H.
  - apply Qlt_le_weak, pow2_pos.
Qed.

Lemma nearest_mono (x y : Q) : 0 < x -> x <= y -> nearest x <= nearest y.
Proof.
  intros Hx H. assert (0 < y) as Hy by lra.
  pose proof (grid_mono Hx H) as G.
  destruct (Z.eq_dec (grid x) (grid y)) as [E|E].
  - unfold JsNumber.nearest. rewrite <- E.
    apply Qmult_le_compat_r; [| apply Qlt_le_weak, pow2_pos].
    rewrite <- Zle_Qle. apply rne_mono.
    apply Qmult_le_compat_r; [exact H |].
    apply Qlt_le_weak, Qinv_lt_0_compat, pow2_pos.
  - assert (grid x < grid y)%Z as L by lia.
    assert (grid y = ilog2 y - 52)%Z as Gy by (unfold JsNumber.grid in *; lia).
    destruct (ilog2_spec Hx) as [_ X2]. destruct (ilog2_spec Hy) as [Y1 _].
    assert (ilog2 x + 1 <= ilog2 y)%Z as Le by (unfold JsNumber.grid in *; lia).
    pose proof (pow2_le Le) as P.
    apply Qle_trans with (pow2 (ilog2 y)).
    + unfold JsNumber.nearest.
      assert (pow2 (ilog2 y) == inject_Z (2 ^ (ilog2 y - grid x)) * pow2 (grid x)) as ->.
      { rewrite <- pow2_Z by lia. rewrite <- pow2_plus.
        replace (ilog2 y - grid x + grid x)%Z with (ilog2 y) by lia. reflexivity. }
      apply Qmult_le_compat_r; [| apply Qlt_le_weak, pow2_pos].
      rewrite <- Zle_Qle. apply rne_le.
      apply Qle_shift_div_r; [apply pow2_pos |].
      rewrite <- pow2_Z by lia. rewrite <- pow2_plus.
      replace (ilog2 y - grid x + grid x)%Z with (ilog2 y) by lia. lra.
    + unfold JsNumber.nearest.
      assert (pow2 (ilog2 y) == inject_Z (2 ^ 52) * pow2 (grid y)) as ->.
      { rewrite <- pow2_Z by lia. rewrite <- pow2_plus.
        replace (52 + grid y)%Z with (ilog2 y) by lia. reflexivity. }
      apply Qmult_le_compat_r; [| apply Qlt_le_weak, pow2_pos].
      rewrite <- Zle_Qle. apply rne_ge.
      apply Qle_shift_div_l; [apply pow2_pos |].
      rewrite <- pow2_Z by lia. rewrite <- pow2_plus.
      replace (52 + grid y)%Z with (ilog2 y) by lia. exact Y1.
Qed.

Lemma fin_mono (x y : Q) : x <= y -> JsNumber.le (fin x) (fin y).
Proof.
  intros H. unfold JsNumber.fin.
  destruct (Qcompare_spec x 0) as [Cx|Cx|Cx];
    destruct (Qcompare_spec y 0) as [Cy|Cy|Cy];
    try (exfalso; lra).
  - cbn [JsNumber.le]. lra.
  - destruct (Qle_bool _ _); cbn [JsNumber.le]; [exact I |].
    rewrite Qred_correct. apply nearest_nonneg, Cy.
  - destruct (Qle_bool _ _); cbn [JsNumber.le]; [exact I |].
    rewrite Qred_correct.
    assert (0 < - x) as Hx by lra. pose proof (nearest_nonneg Hx). lra.
  - assert (0 < - y) as Hy by lra. assert (- y <= - x) as H' by lra.
    pose proof (nearest_mono Hy H') as M.
    destruct (Qle_bool (pow2 1024) (nearest (- x))) eqn:Ox;
      [destruct (Qle_bool (pow2 1024) (nearest (- y))); exact I |].
    destruct (Qle_bool (pow2 1024) (nearest (- y))) eqn:Oy.
    + apply Qle_bool_iff in Oy.
      assert (Qle_bool (pow2 1024) (nearest (- x)) = true)
        by (apply Qle_bool_iff; lra).
      congruence.
    + cbn [JsNumber.le]. rewrite !Qred_correct. lra.
  - assert (0 < - x) as Hx by lra. pose proof (nearest_nonneg Hx).
    destruct (Qle_bool (pow2 1024) (nearest (- x)));
      [destruct (Qle_bool (pow2 1024) (nearest y)); exact I |].
    destruct (Qle_bool (pow2 1024) (nearest y)); [exact I |].
    cbn [JsNumber.le]. rewrite !Qred_correct. assert (0 < y) as Hy by lra.
    pose proof (nearest_nonneg Hy). lra.
  - pose proof (nearest_mono Cx H) as M.
    destruct (Qle_bool (pow2 1024) (nearest y)) eqn:Oy.
    + destruct (Qle_bool (pow2 1024) (nearest x)); exact I.
    + destruct (Qle_bool (pow2 1024) (nearest x)) eqn:Ox.
      * apply Qle_bool_iff in Ox.
        assert (Qle_bool (pow2 1024) (nearest y) = true)
          by (apply Qle_bool_iff; lra).
        congruence.
      * cbn [JsNumber.le]. rewrite !Qred_correct. exact M.
Qed.

Lemma rne_proper (x y : Q) : x == y -> rne x = rne y.
Proof.
  intros H. apply Z.le_antisymm; apply rne_mono; rewrite H; apply Qle_refl.
Qed.


(** A finite result is in lowest terms. *)
Lemma fin_canonical (q r : Q) : fin q = JsNumber.Num r -> Qred r = r.
Proof.
  unfold JsNumber.fin.
  assert (forall x, Qred (Qred x) = Qred x) as Inv
    by (intros x; apply Qred_complete, Qred_correct).
  destruct (Qcompare q 0); try destruct (Qle_bool _ _); intros H;
    try discriminate H;
    match type of H with
    | JsNumber.Num ?v = _ => assert (r = v) as -> by congruence
    end;
    [reflexivity | apply Inv ..].
Qed.

Lemma le_antisym (a b : JsNumber.t) :
  (forall r, a = JsNumber.Num r -> Qred r = r) ->
  (forall r, b = JsNumber.Num r -> Qred r = r) ->
  JsNumber.le a b -> JsNumber.le b a -> a = b.
Proof.
  intros Ca Cb. destruct a as [x| | |], b as [y| | |]; cbn [JsNumber.le];
    try contradiction; try reflexivity.
  intros H1 H2. rewrite <- (Ca x eq_refl), <- (Cb y eq_refl).
  f_equal. apply Qred_complete. lra.
Qed.

Lemma fin_proper (x y : Q) : x == y -> fin x = fin y.
Proof.
  intros H. apply le_antisym.
  - intros r. apply fin_canonical.
  - intros r. apply fin_canonical.
  - apply fin_mono. rewrite H. apply Qle_refl.
  - apply fin_mono. rewrite H. apply Qle_refl.
Qed.

(** Rounding keeps a number between two numbers it is between. *)
Lemma fin_between (a b a' b' q : Q) :
  fin a = JsNumber.Num a' -> fin b = JsNumber.Num b' ->
  a <= q -> q <= b ->
  exists r, fin q = JsNumber.Num r /\ a' <= r /\ r <= b'.
Proof.
  intros Ha Hb H1 H2.
  pose proof (fin_mono H1) as L. pose proof (fin_mono H2) as U.
  rewrite Ha in L. rewrite Hb in U.
  destruct (fin q) as [r| | |]; cbn [JsNumber.le] in L, U; try contradiction.
  exists r. repeat split; assumption.
Qed.

Lemma ilog2_integer (k : Z) :
  (0 < k < 2 ^ 53)%Z -> (0 <= ilog2 (inject_Z k) <= 52)%Z.
Proof.
  intros [H0 H1].
  assert (0 < inject_Z k) as Hq
    by (change 0 with (inject_Z 0); rewrite <- Zlt_Qlt; exact H0).
  destruct (ilog2_spec Hq) as [L U].
  assert (inject_Z k < pow2 53) as B
    by (rewrite pow2_Z by lia; rewrite <- Zlt_Qlt; exact H1).
  assert (pow2 0 <= inject_Z k) as A.
  { rewrite pow2_Z by lia. rewrite <- Zle_Qle. change (2 ^ 0)%Z with 1%Z. lia. }
  split.
  - destruct (Z.le_gt_cases 0 (ilog2 (inject_Z k))) as [G|G]; [exact G |].
    assert (pow2 (ilog2 (inject_Z k) + 1) <= pow2 0) by (apply pow2_le; lia).
    exfalso. lra.
  - destruct (Z.le_gt_cases (ilog2 (inject_Z k)) 52) as [G|G]; [exact G |].
    assert (pow2 53 <= pow2 (ilog2 (inject_Z k))) by (apply pow2_le; lia).
    exfalso. lra.
Qed.

Lemma nearest_integer (k : Z) :
  (0 < k < 2 ^ 53)%Z -> nearest (inject_Z k) == inject_Z k.
Proof.
  intros H. pose proof (ilog2_integer H) as [E0 E1].
  unfold JsNumber.nearest, JsNumber.grid.
  set (g := Z.max (ilog2 (inject_Z k) - 52) (-1074)).
  assert (-1074 <= g <= 0)%Z as G by (unfold g; lia).
  assert (pow2 g * pow2 (- g) == 1) as P.
  { rewrite <- pow2_plus. replace (g + - g)%Z with 0%Z by lia. reflexivity. }
  assert (inject_Z k / pow2 g == inject_Z (k * 2 ^ (- g))) as D.
  { rewrite inject_Z_mult, <- pow2_Z by lia.
    unfold Qdiv, JsNumber.pow2. rewrite Qpower_opp. reflexivity. }
  rewrite (rne_proper D), rne_inject_Z, inject_Z_mult, <- pow2_Z by lia.
  rewrite <- Qmult_assoc, (Qmult_comm (pow2 (- g))), P. ring.
Qed.

(** The integers a Number holds exactly. *)
Lemma fin_integer (k : Z) :
  (0 <= k < 2 ^ 53)%Z -> fin (inject_Z k) = JsNumber.Num (inject_Z k).
Proof.
  intros [H0 H1]. destruct (Z.eq_dec k 0) as [->|N]; [reflexivity |].
  assert (0 < k < 2 ^ 53)%Z as H by lia.
  pose proof (nearest_integer H) as E.
  assert (0 < inject_Z k) as Hq
    by (change 0 with (inject_Z 0); rewrite <- Zlt_Qlt; lia).
  unfold JsNumber.fin.
  destruct (Qcompare_spec (inject_Z k) 0) as [C|C|C]; try (exfalso; lra).
  assert (Qle_bool (pow2 1024) (nearest (inject_Z k)) = false) as ->.
  { destruct (Qle_bool (pow2 1024) (nearest (inject_Z k))) eqn:O; [| reflexivity].
    apply Qle_bool_iff in O. rewrite E in O.
    assert (inject_Z k < pow2 53)
      by (rewrite pow2_Z by lia; rewrite <- Zlt_Qlt; exact H1).
    assert (pow2 53 <= pow2 1024) by (apply pow2_le; lia).
    exfalso. lra. }
  f_equal. rewrite (Qred_complete _ _ E).
  apply Qcanon.Qred_identity. cbn [Qnum Qden inject_Z]. apply Z.gcd_1_r.
Qed.

End Binary64.

(* ===================================================================== *)
(** ** Progress arithmetic *)
(* ===================================================================== *)

Lemma round_Z_le (x y : Q) :
  (x <= y)%Q -> (JsNumber.round_Z x <= JsNumber.round_Z y)%Z.
Proof.
  intros H. unfold JsNumber.round_Z. apply Qfloor_resp_le.
  apply Qplus_le_compat; [exact H | apply Qle_refl].
Qed.






Lemma sign_pos (g : Q) : (0 < g)%Q -> JsNumber.sign g = Gt.
Proof.
  unfold JsNumber.sign, Qlt. cbn [Qnum Qden]. rewrite Z.mul_1_r, Z.mul_0_l.
  intros H. apply Z.compare_gt_iff. exact H.
Qed.











(** The first [i - 1] pages of [numPages] as a Number, and the base and
    the budget of page [i]: for a page count a Number holds exactly they
    are finite, the base from 0 to 100 and the budget positive. *)
Lemma pages_before (i : nat) :
  1 <= i -> safe_count i ->
  JsNumber.sub (JsNumber.of_nat i) one
  = JsNumber.Num (inject_Z (Z.of_nat i - 1)).
Proof.
  intros H1 H2. unfold safe_count in H2.
  unfold JsNumber.of_nat, one, JsNumber.of_Z. cbn [JsNumber.sub].
  rewrite (@fin_proper _ (inject_Z (Z.of_nat i - 1))).
  - apply fin_integer. lia.
  - unfold Z.sub. rewrite inject_Z_plus, inject_Z_opp. reflexivity.
Qed.

Lemma page_share_finite (numPages i : nat) :
  1 <= i -> i <= numPages -> safe_count numPages ->
  exists c, (0 <= c)%Q /\ (c <= 1)%Q
    /\ JsNumber.div (JsNumber.sub (JsNumber.of_nat i) one) (JsNumber.of_nat numPages)
       = JsNumber.Num c.
Proof.
  intros Hi HN Hs.
  assert (safe_count i) as Hsi by (unfold safe_count in *; lia).
  rewrite (pages_before Hi Hsi).
  unfold JsNumber.of_nat, JsNumber.of_Z. cbn [JsNumber.div].
  assert (0 < inject_Z (Z.of_nat numPages))%Q as Pn
    by (change 0%Q with (inject_Z 0); rewrite <- Zlt_Qlt; lia).
  rewrite (sign_pos Pn).
  assert (0 <= inject_Z (Z.of_nat i - 1))%Q as A
    by (change 0%Q with (inject_Z 0); rewrite <- Zle_Qle; lia).
  assert (inject_Z (Z.of_nat i - 1) <= inject_Z (Z.of_nat numPages))%Q as B
    by (rewrite <- Zle_Qle; lia).
  destruct (@fin_between 0 1 0 1
              (inject_Z (Z.of_nat i - 1) / inject_Z (Z.of_nat numPages))%Q)
    as (c & E & L & U); try reflexivity.
  - apply Qle_shift_div_l; [exact Pn |]. rewrite Qmult_0_l. exact A.
  - apply Qle_shift_div_r; [exact Pn |]. rewrite Qmult_1_l. exact B.
  - exists c. repeat split; assumption.
Qed.

Lemma page_ref_finite (numPages i : nat) :
  1 <= i -> i <= numPages -> safe_count numPages ->
  exists b g, (0 <= b)%Q /\ (b <= 100)%Q /\ (0 < g)%Q /\ (g <= 100)%Q
    /\ baseProgress (page_ref numPages i) = JsNumber.Num b
    /\ pageBudget (page_ref numPages i) = JsNumber.Num g.
Proof.
  intros Hi HN Hs.
  destruct (page_share_finite Hi HN Hs) as (c & C0 & C1 & Ec).
  assert (0 < inject_Z (Z.of_nat numPages))%Q as Pn
    by (change 0%Q with (inject_Z 0); rewrite <- Zlt_Qlt; lia).
  assert (inject_Z (Z.of_nat numPages) <= inject_Z (2 ^ 53))%Q as Bn
    by (rewrite <- Zle_Qle; unfold safe_count in Hs; lia).
  assert (1 <= inject_Z (Z.of_nat numPages))%Q as Ln
    by (change 1%Q with (inject_Z 1); rewrite <- Zle_Qle; lia).
  unfold page_ref, base_of_page. cbn [baseProgress pageBudget]. rewrite Ec.
  unfold hundred, JsNumber.of_nat, JsNumber.of_Z. cbn [JsNumber.mul JsNumber.div].
  rewrite (sign_pos Pn).
  destruct (@fin_between 0 100 0 100 (c * inject_Z 100)%Q)
    as (b & Eb & Lb & Ub); try reflexivity.
  - change (inject_Z 100) with 100%Q. lra.
  - change (inject_Z 100) with 100%Q. lra.
  - destruct (@fin_between (1 # 140737488355328) 100 (1 # 140737488355328) 100
                (inject_Z 100 / inject_Z (Z.of_nat numPages))%Q)
      as (g & Eg & Lg & Ug); try reflexivity.
    + apply Qle_shift_div_l; [exact Pn |].
      change (inject_Z 100) with 100%Q.
      change (inject_Z (2 ^ 53)) with 9007199254740992%Q in Bn.
      assert ((1 # 140737488355328) * inject_Z (Z.of_nat numPages)
              <= (1 # 140737488355328) * 9007199254740992)%Q as M
        by (apply Qmult_le_l; [reflexivity | exact Bn]).
      assert ((1 # 140737488355328) * 9007199254740992 == 64)%Q as V by reflexivity.
      lra.
    + apply Qle_shift_div_r; [exact Pn |].
      change (inject_Z 100) with 100%Q.
      assert (100 * 1 <= 100 * inject_Z (Z.of_nat numPages))%Q as M
        by (apply Qmult_le_l; [reflexivity | exact Ln]).
      lra.
    + exists b, g. repeat split; try assumption.
      apply Qlt_le_trans with (1 # 140737488355328)%Q; [reflexivity | exact Lg].
Qed.



Lemma start_page_sets_ref (numPages i : nat) (st : Machine) :
  totalPages (ocrPageProgressDataRef st) = numPages ->
  pageBudget (ocrPageProgressDataRef st)
  = JsNumber.div hundred (JsNumber.of_nat numPages) ->
  ocrPageProgressDataRef (start_page numPages i st) = page_ref numPages i.
Proof.
  intros Ht Hb. unfold start_page, page_ref.
  cbn [ocrPageProgressDataRef setProcessingProgress setProcessingMessage set_ref
       record currentPage totalPages baseProgress pageBudget].
  rewrite Ht, Hb. reflexivity.
Qed.

(* ===================================================================== *)
(** ** Progress within a page *)
(* ===================================================================== *)




(** Between pages the values of the logger can step back by one: the
    last value of page 2 of 6 is round(16.67 + 17) = 34, the first of
    page 3 can be round(33.33 + 0) = 33. *)
Example page_change_can_lower_progress :
  pdf_overall (page_ref 6 2) (JsNumber.Num 1) = JsNumber.of_Z 34
  /\ pdf_overall (page_ref 6 3) (JsNumber.Num 0) = JsNumber.of_Z 33.
Proof. split; vm_compute; reflexivity. Qed.

(** A lower fraction need not lower the value: 0.504 and 0.5 both set 50
    for an image. *)
Example lower_fraction_same_value :
  image_overall (JsNumber.lit (504 # 1000)) = JsNumber.of_Z 50
  /\ image_overall (JsNumber.lit (1 # 2)) = JsNumber.of_Z 50.
Proof. split; vm_compute; reflexivity. Qed.

(** The value set when the rendering of a page starts can exceed what
    the logger sets next: 10, then 5 for the fraction 0.05. *)
Example render_start_then_lower :
  progress_values
    (trace
       (exec (ocrPdfDocument []
                (readable_pdf []
                   [([recognizing (JsNumber.lit (5 # 100))], str "Alpha")]))
          initial))
  = [JsNumber.of_Z 0; JsNumber.of_Z 10; JsNumber.of_Z 5; JsNumber.of_Z 0].
Proof. vm_compute. reflexivity. Qed.

(* ===================================================================== *)
(** ** The overall progress formula *)
(* ===================================================================== *)





(* ===================================================================== *)
(** ** The base progress of a page *)
(* ===================================================================== *)

Lemma round_Z_inject_Z (k : Z) : JsNumber.round_Z (inject_Z k) = k.
Proof.
  unfold JsNumber.round_Z, Qfloor, inject_Z, Qplus. cbn [Qnum Qden Pos.mul].
  rewrite Z.mul_1_r. change (Z.pos 2) with 2%Z.
  replace (k * 2 + 1)%Z with (1 + k * 2)%Z by ring.
  rewrite Z.div_add by discriminate. reflexivity.
Qed.

Lemma round_fixes_whole (q : Q) :
  JsNumber.round (JsNumber.Num q) = JsNumber.Num q <-> whole (JsNumber.Num q).
Proof.
  unfold whole. cbn [JsNumber.round]. split.
  - intros H. exists (JsNumber.round_Z q). symmetry. exact H.
  - intros [k H]. unfold JsNumber.of_Z in H. injection H as ->.
    rewrite round_Z_inject_Z. reflexivity.
Qed.

(** C8, as the code has it.  Before page [i] of [numPages] is fetched,
    [1 <= i <= numPages], the ref records the base progress
    [((i - 1) / N) * 100] as binary64 computes it, a number from 0 to 100,
    without rounding it to an integer.  The recorded value is
    [Math.round((i - 1) / N * 100)] exactly when it is a whole number: for
    N = 4, i = 2 it is 25, for N = 20, i = 12 it is 55.00000000000001. *)
Theorem base_progress_recorded_unrounded (numPages i : nat) (st : Machine) :
  1 <= i -> i <= numPages -> safe_count numPages ->
  baseProgress (ocrPageProgressDataRef (start_page numPages i st))
  = JsNumber.mul
      (JsNumber.div (JsNumber.sub (JsNumber.of_nat i) (JsNumber.of_Z 1))
                    (JsNumber.of_nat numPages))
      (JsNumber.of_Z 100)
  /\ (exists b,
        baseProgress (ocrPageProgressDataRef (start_page numPages i st))
        = JsNumber.Num b /\ (0 <= b)%Q /\ (b <= 100)%Q)
  /\ (claimed_base numPages i
      = baseProgress (ocrPageProgressDataRef (start_page numPages i st))
      <-> whole (baseProgress (ocrPageProgressDataRef (start_page numPages i st))))
  /\ baseProgress (ocrPageProgressDataRef (start_page 4 2 st)) = JsNumber.of_Z 25
  /\ baseProgress (ocrPageProgressDataRef (start_page 20 12 st))
     = JsNumber.lit (5500000000000001 # 100000000000000).
Proof.
  intros Hi HN Hs.
  destruct (page_ref_finite Hi HN Hs) as (b & g & B0 & B1 & _ & _ & Eb & _).
  assert (baseProgress (ocrPageProgressDataRef (start_page numPages i st))
          = base_of_page numPages i) as E by reflexivity.
  unfold page_ref in Eb. cbn [baseProgress] in Eb.
  split; [exact E | split; [| split; [| split]]].
  - exists b. rewrite E, Eb. repeat split; assumption.
  - rewrite E. unfold claimed_base. rewrite Eb. apply round_fixes_whole.
  - change (base_of_page 4 2 = JsNumber.of_Z 25). vm_compute. reflexivity.
  - change (base_of_page 20 12
            = JsNumber.lit (5500000000000001 # 100000000000000)).
    vm_compute. reflexivity.
Qed.

Lemma base_progress_witness :
  exists b,
    baseProgress
      (ocrPageProgressDataRef (start_page 4 2 (set_ref (parsed_ref 4) initial)))
    = JsNumber.Num b
    /\ whole (JsNumber.Num b).
Proof.
  assert (1 <= 2) as H0 by lia.
  assert (2 <= 4) as H1 by lia.
  assert (safe_count 4) as Hs by (unfold safe_count; cbn; lia).
  destruct (@base_progress_recorded_unrounded 4 2
              (set_ref (parsed_ref 4) initial) H0 H1 Hs)
    as (_ & (b & Hb & _) & Hiff & _).
  exists b. split; [exact Hb |].
  rewrite <- Hb. apply Hiff. vm_compute. reflexivity.
Defined.

(** C8 as stated fails: before page 2 of 3 the recorded base progress is
    33.33333333333333, not round(100/3) = 33. *)
Lemma base_progress_not_rounded :
  baseProgress
    (ocrPageProgressDataRef (start_page 3 2 (set_ref (parsed_ref 3) initial)))
  = JsNumber.lit (3333333333333333 # 100000000000000)
  /\ claimed_base 3 2 = JsNumber.of_Z 33
  /\ baseProgress
       (ocrPageProgressDataRef (start_page 3 2 (set_ref (parsed_ref 3) initial)))
     <> claimed_base 3 2.
Proof.
  repeat split; try (vm_compute; reflexivity).
  vm_compute. discriminate.
Qed.

(* ===================================================================== *)
(** ** PDFs whose every call resolves *)
(* ===================================================================== *)

Section ReadablePdf.

Variable rm : jsstring.

Lemma ocrPage_readable (numPages i : nat)
    (p : list TesseractProgressUpdate * jsstring) (st : Machine) :
  exists st',
    ocrPage rm numPages i (readable_page p) st = (Normal tt, st')
    /\ fullText st' = fullText st ++ snd p ++ newline.
Proof.
  eexists. split; [reflexivity|].
  cbn [fullText record set_fullText].
  rewrite (ds_fullText
             (@display_deliver _ (fst p) (display_pageAwarePdfOcrLogger rm) _)).
  reflexivity.
Qed.

Lemma ocrPages_readable (numPages : nat)
    (pages : list (list TesseractProgressUpdate * jsstring)) :
  forall i st, exists st',
    ocrPages rm numPages i (map readable_page pages) st = (Normal tt, st')
    /\ fullText st' = fullText st ++ joined pages.
Proof.
  induction pages as [|p pages IH]; intros i st.
  - exists st. split; [reflexivity|]. unfold joined. cbn [map List.concat].
    rewrite app_nil_r. reflexivity.
  - destruct (ocrPage_readable numPages i p st) as (s1 & H1 & F1).
    destruct (IH (S i) s1) as (s2 & H2 & F2).
    exists s2. split.
    + cbn [map ocrPages]. unfold bind at 1. rewrite H1. exact H2.
    + rewrite F2, F1. unfold joined. cbn [map List.concat].
      rewrite <- !app_assoc. reflexivity.
Qed.

(** What the statements after the loop leave: the trimmed buffer as the
    raw text, with a warning when it is empty and a success otherwise. *)
Lemma pdf_finish_result (st : Machine) :
  exists st',
    pdf_finish st = (Normal tt, st')
    /\ rawExtractedText st' = JsString.trim (fullText st)
    /\ fullText st' = fullText st
    /\ outcome st'
       = Some (if JsString.eqb (JsString.trim (fullText st)) []
               then warning else success).
Proof.
  unfold pdf_finish, bind, terminate, act.
  change (fullText (set_worker None (record ETerminate st))) with (fullText st).
  destruct (JsString.eqb (JsString.trim (fullText st)) []) eqn:E.
  - eexists. split; [reflexivity|]. apply eqb_eq in E.
    repeat split. symmetry. exact E.
  - eexists. split; [reflexivity|]. repeat split.
Qed.

Lemma pdf_try_readable (init : list TesseractProgressUpdate)
    (pages : list (list TesseractProgressUpdate * jsstring)) (st : Machine) :
  exists s,
    pdf_try rm (readable_pdf init pages) st = pdf_finish s
    /\ fullText s = fullText st ++ joined pages.
Proof.
  destruct (ocrPages_readable (List.length (map readable_page pages)) pages 1
              (set_worker (Some TheWorker)
                 (record (ECreateWorker true)
                    (deliver (pageAwarePdfOcrLogger rm) init
                       (set_ref (parsed_ref (List.length (map readable_page pages)))
                          (record EGetDocument (record EArrayBuffer st)))))))
    as (s & Hs & Fs).
  exists s. split.
  - unfold pdf_try, readable_pdf.
    cbn [arrayBuffer_settles getDocument_settles pdf_createWorker].
    unfold initializeTesseractWorker.
    cbn [create_messages create_settles].
    unfold bind, act, await, ret. unfold bind in Hs. rewrite Hs. reflexivity.
  - rewrite Fs. cbn [fullText set_worker record].
    rewrite (ds_fullText
               (@display_deliver _ init (display_pageAwarePdfOcrLogger rm) _)).
    reflexivity.
Qed.

Lemma ocrPdfDocument_readable (init : list TesseractProgressUpdate)
    (pages : list (list TesseractProgressUpdate * jsstring)) (st : Machine) :
  rawExtractedText (exec (ocrPdfDocument rm (readable_pdf init pages)) st)
  = JsString.trim (joined pages)
  /\ fullText (exec (ocrPdfDocument rm (readable_pdf init pages)) st)
     = joined pages
  /\ outcome (exec (ocrPdfDocument rm (readable_pdf init pages)) st)
     = Some (if JsString.eqb (JsString.trim (joined pages)) []
             then warning else success).
Proof.
  unfold ocrPdfDocument. rewrite !exec_act_bind.
  match goal with |- context [exec _ ?s0] => set (st0 := s0) end.
  destruct (pdf_try_readable init pages st0) as (s & Hs & Fs).
  destruct (pdf_finish_result s) as (s' & Hf & Hraw & Hfull & Hout).
  assert (fullText s = joined pages) as Fj by (rewrite Fs; reflexivity).
  assert (exec (try_catch_finally (pdf_try rm (readable_pdf init pages))
                  pdf_catch pdf_finally) st0
          = snd (pdf_finally s')) as ->.
  { unfold exec, try_catch_finally. rewrite Hs, Hf.
    destruct (pdf_finally s') as [[[]|e] s'']; reflexivity. }
  unfold pdf_finally, bind, act. cbn [snd rawExtractedText fullText outcome].
  change (rawExtractedText s' = JsString.trim (joined pages)
          /\ fullText s' = joined pages
          /\ outcome s'
             = Some (if JsString.eqb (JsString.trim (joined pages)) []
                     then warning else success)).
  rewrite Hraw, Hfull, Hout, Fj. repeat split.
Qed.

End ReadablePdf.

(** C6.  When every call of a PDF operation resolves, the buffer ends as
    the page texts in page order, each followed by one newline, and the raw
    extracted text is that buffer trimmed.  For two pages recognised as
    "Alpha" and "Beta" the raw extracted text is "Alpha\nBeta", whatever
    messages the worker logs. *)
Theorem pdf_pages_joined_by_newline (rm : jsstring)
    (init : list TesseractProgressUpdate)
    (pages : list (list TesseractProgressUpdate * jsstring)) (st : Machine) :
  fullText (exec (ocrPdfDocument rm (readable_pdf init pages)) st)
  = List.concat (map (fun p => snd p ++ [10%N]) pages)
  /\ rawExtractedText (exec (ocrPdfDocument rm (readable_pdf init pages)) st)
     = JsString.trim (List.concat (map (fun p => snd p ++ [10%N]) pages))
  /\ (forall ms1 ms2,
        rawExtractedText
          (exec (ocrPdfDocument rm
                   (readable_pdf init [(ms1, str "Alpha"); (ms2, str "Beta")])) st)
        = str "Alpha" ++ [10%N] ++ str "Beta"
        /\ outcome
             (exec (ocrPdfDocument rm
                      (readable_pdf init [(ms1, str "Alpha"); (ms2, str "Beta")])) st)
           = Some success).
Proof.
  destruct (ocrPdfDocument_readable rm init pages st) as (Hraw & Hfull & _).
  split; [exact Hfull | split; [exact Hraw |]].
  intros ms1 ms2.
  destruct (ocrPdfDocument_readable rm init
              [(ms1, str "Alpha"); (ms2, str "Beta")] st) as (Hr & _ & Ho).
  rewrite Hr, Ho. split; vm_compute; reflexivity.
Qed.

(* ===================================================================== *)
(** ** Trimming *)
(* ===================================================================== *)

Lemma trimStart_split (s : jsstring) :
  exists l, blank l /\ s = l ++ JsString.trimStart s.
Proof.
  induction s as [|c s (l & Hl & Hs)]; simpl.
  - exists []. split; [constructor | reflexivity].
  - destruct (JsString.isWhiteSpace c) eqn:E.
    + exists (c :: l). split; [constructor; assumption |].
      simpl. f_equal. exact Hs.
    + exists []. split; [constructor | reflexivity].
Qed.

Lemma trimStart_blank (s : jsstring) : blank s -> JsString.trimStart s = [].
Proof.
  induction 1 as [|c s Hc _ IH]; simpl; [reflexivity|].
  rewrite Hc. exact IH.
Qed.

Lemma trimStart_nil (s : jsstring) : JsString.trimStart s = [] -> blank s.
Proof.
  intros H. destruct (trimStart_split s) as (l & Hl & Hs).
  rewrite H, app_nil_r in Hs. subst s. exact Hl.
Qed.

Lemma blank_rev (s : jsstring) : blank s -> blank (rev s).
Proof. unfold blank. apply Forall_rev. Qed.

(** [trim] removes a blank prefix and a blank suffix and nothing else. *)
Lemma trim_split (s : jsstring) :
  exists l r, blank l /\ blank r /\ s = l ++ JsString.trim s ++ r.
Proof.
  destruct (trimStart_split s) as (l & Hl & Hs).
  destruct (trimStart_split (rev (JsString.trimStart s))) as (r & Hr & Hrev).
  exists l, (rev r). split; [exact Hl | split; [apply blank_rev, Hr |]].
  unfold JsString.trim, JsString.trimEnd.
  rewrite <- rev_app_distr, <- Hrev, rev_involutive. exact Hs.
Qed.

(** The trimmed text is empty exactly for a blank text. *)
Lemma trim_nil_iff (s : jsstring) : JsString.trim s = [] <-> blank s.
Proof.
  split.
  - intros H. destruct (trim_split s) as (l & r & Hl & Hr & Hs).
    rewrite H in Hs. simpl in Hs. subst s. apply Forall_app. split; assumption.
  - intros H. unfold JsString.trim, JsString.trimEnd.
    rewrite (trimStart_blank H). reflexivity.
Qed.

Example trim_keeps_inner_whitespace :
  JsString.trim (str "  a  b " ++ [10%N; 160%N]) = str "a  b".
Proof. vm_compute. reflexivity. Qed.

Example round_ties_go_up :
  JsNumber.round (JsNumber.Num (5 # 2)) = JsNumber.of_Z 3
  /\ JsNumber.round (JsNumber.Num (-5 # 2)) = JsNumber.of_Z (-2)
  /\ JsNumber.round (JsNumber.Num (249 # 100)) = JsNumber.of_Z 2.
Proof. repeat split. Qed.

Example literal_code_units :
  str "página" = [112; 225; 103; 105; 110; 97]%N.
Proof. vm_compute. reflexivity. Qed.

(* ===================================================================== *)
(** ** The text of an image *)
(* ===================================================================== *)

(** What an image operation surfaces when every call resolves: nothing
    and a warning for a blank text, otherwise the text as recognised. *)
Lemma ocrImageFile_readable (rm : jsstring)
    (init ms : list TesseractProgressUpdate) (resultText : jsstring)
    (st : Machine) :
  (blank resultText ->
   rawExtractedText (exec (ocrImageFile rm (readable_image init ms resultText)) st)
   = []
   /\ outcome (exec (ocrImageFile rm (readable_image init ms resultText)) st)
      = Some warning)
  /\ (~ blank resultText ->
      rawExtractedText
        (exec (ocrImageFile rm (readable_image init ms resultText)) st)
      = resultText
      /\ outcome (exec (ocrImageFile rm (readable_image init ms resultText)) st)
         = Some success).
Proof.
  assert (forall s, exists s',
             image_try rm (readable_image init ms resultText) s
             = image_finish resultText s') as Htry
    by (intros s; eexists; reflexivity).
  unfold ocrImageFile. rewrite !exec_act_bind.
  match goal with |- context [exec _ ?s0] => set (st0 := s0) end.
  destruct (Htry st0) as (s1 & Hs1).
  unfold exec, try_catch_finally. rewrite Hs1. unfold image_finish.
  destruct (JsString.eqb (JsString.trim resultText) []) eqn:E.
  - split; [intros _; split; reflexivity |].
    intros Hb. exfalso. apply Hb, trim_nil_iff, eqb_eq, E.
  - split; [| intros _; split; reflexivity].
    intros Hb. apply trim_nil_iff in Hb. apply eqb_eq in Hb. congruence.
Qed.

(** C5 on the image path: [ocrImageFile] tests the trimmed text for
    emptiness but passes the text as recognised to [setRawExtractedText];
    [ocrPdfDocument], given the same text for its only page, passes the
    trimmed text. *)
Lemma image_text_surfaced_untrimmed :
  rawExtractedText (exec (ocrImageFile [] one_line_image) initial)
  = str "Alpha" ++ [10%N]
  /\ outcome (exec (ocrImageFile [] one_line_image) initial) = Some success
  /\ JsString.trim (str "Alpha" ++ [10%N]) = str "Alpha"
  /\ rawExtractedText (exec (ocrImageFile [] one_line_image) initial)
     <> JsString.trim (str "Alpha" ++ [10%N])
  /\ rawExtractedText
       (exec (ocrPdfDocument [] (readable_pdf [] [([], str "Alpha" ++ [10%N])]))
          initial)
     = str "Alpha".
Proof.
  repeat split; try (vm_compute; reflexivity).
  vm_compute. discriminate.
Qed.

(* ===================================================================== *)
(** ** Running the operations on a script *)
(* ===================================================================== *)

Lemma notable_app (a b : list Effect) : notable (a ++ b) = notable a ++ notable b.
Proof. apply filter_app. Qed.

Lemma notable_display (out : list Effect) : Forall is_display out -> notable out = [].
Proof.
  induction 1 as [|e out He _ IH]; [reflexivity|].
  destruct e; simpl in He; try contradiction; exact IH.
Qed.

Lemma display_step_notable (st st' : Machine) :
  display_step st st' -> notable (trace st') = notable (trace st).
Proof.
  intros [_ _ _ _ _ _ _ (out & Ht & Hd)].
  rewrite Ht, notable_app, (notable_display Hd), app_nil_r. reflexivity.
Qed.

Lemma rf_refl (st : Machine) : run_frame st st [].
Proof. constructor; try reflexivity. rewrite app_nil_r. reflexivity. Qed.

Lemma rf_trans (a b c : Machine) (d1 d2 d : list Effect) :
  run_frame a b d1 -> run_frame b c d2 -> d = d1 ++ d2 -> run_frame a c d.
Proof.
  intros [r1 l1 s1 f1 n1] [r2 l2 s2 f2 n2] ->.
  constructor; try congruence. rewrite n2, n1, app_assoc. reflexivity.
Qed.

Lemma rf_display (a b c : Machine) (d : list Effect) :
  run_frame a b d -> display_step b c -> run_frame a c d.
Proof.
  intros [r1 l1 s1 f1 n1] H.
  constructor; try (rewrite <- ?r1, <- ?l1, <- ?s1, <- ?f1; apply H).
  rewrite (display_step_notable H). exact n1.
Qed.

Lemma rf_record (a b : Machine) (d d' : list Effect) (e : Effect) :
  run_frame a b d -> is_progress e = false -> d' = d ++ [e] ->
  run_frame a (record e b) d'.
Proof.
  intros [r1 l1 s1 f1 n1] He ->. constructor; try assumption.
  rewrite trace_record, notable_app, n1, <- app_assoc. f_equal.
  unfold notable. cbn [filter]. rewrite He. reflexivity.
Qed.

Lemma rf_set_ref (a b : Machine) (d : list Effect) (r : PageProgressData) :
  run_frame a b d -> run_frame a (set_ref r b) d.
Proof. intros [r1 l1 s1 f1 n1]. constructor; assumption. Qed.

Lemma rf_set_worker (a b : Machine) (d : list Effect) (w : option Worker) :
  run_frame a b d -> run_frame a (set_worker w b) d.
Proof. intros [r1 l1 s1 f1 n1]. constructor; assumption. Qed.

Lemma rf_set_fullText (a b : Machine) (d : list Effect) (s : jsstring) :
  run_frame a b d -> run_frame a (set_fullText s b) d.
Proof. intros [r1 l1 s1 f1 n1]. constructor; assumption. Qed.

Lemma display_start_page (numPages i : nat) (st : Machine) :
  display_step (set_ref (ocrPageProgressDataRef (start_page numPages i st)) st)
    (start_page numPages i st).
Proof.
  unfold start_page. cbv zeta.
  eapply display_step_trans;
    [apply display_setProcessingMessage | apply display_setProcessingProgress].
Qed.

Lemma rf_start_page (a b : Machine) (d : list Effect) (numPages i : nat) :
  run_frame a b d -> run_frame a (start_page numPages i b) d.
Proof.
  intros H. eapply rf_display; [| apply display_start_page].
  apply rf_set_ref, H.
Qed.

Lemma rf_setProcessingMessage (a b : Machine) (d : list Effect) (m : jsstring) :
  run_frame a b d -> run_frame a (setProcessingMessage m b) d.
Proof. intros H. eapply rf_display; [exact H | apply display_setProcessingMessage]. Qed.

Lemma rf_setProcessingProgress (a b : Machine) (d : list Effect) (v : number) :
  run_frame a b d -> run_frame a (setProcessingProgress v b) d.
Proof. intros H. eapply rf_display; [exact H | apply display_setProcessingProgress]. Qed.

Lemma rf_deliver (logger : TesseractProgressUpdate -> Machine -> Machine)
    (ms : list TesseractProgressUpdate) (a b : Machine) (d : list Effect) :
  (forall m st, display_step st (logger m st)) ->
  run_frame a b d -> run_frame a (deliver logger ms b) d.
Proof. intros Hl H. eapply rf_display; [exact H | apply display_deliver, Hl]. Qed.

(** Solves [run_frame st s d] for a state [s] written as statements
    applied to [st]. *)
Ltac run_frame_tac logger_display :=
  lazymatch goal with
  | |- run_frame ?s ?s _ => apply rf_refl
  | |- run_frame _ (record _ _) _ =>
      eapply rf_record;
        [run_frame_tac logger_display | reflexivity | reflexivity]
  | |- run_frame _ (set_fullText _ _) _ =>
      apply rf_set_fullText; run_frame_tac logger_display
  | |- run_frame _ (set_worker _ _) _ =>
      apply rf_set_worker; run_frame_tac logger_display
  | |- run_frame _ (set_ref _ _) _ =>
      apply rf_set_ref; run_frame_tac logger_display
  | |- run_frame _ (start_page _ _ _) _ =>
      apply rf_start_page; run_frame_tac logger_display
  | |- run_frame _ (setProcessingMessage _ _) _ =>
      apply rf_setProcessingMessage; run_frame_tac logger_display
  | |- run_frame _ (setProcessingProgress _ _) _ =>
      apply rf_setProcessingProgress; run_frame_tac logger_display
  | |- run_frame _ (deliver _ _ _) _ =>
      apply rf_deliver; [exact logger_display | run_frame_tac logger_display]
  end.

(** The worker variable and the buffer through the statements of the page
    loop. *)
Lemma worker_record (e : Effect) (st : Machine) : worker (record e st) = worker st.
Proof. reflexivity. Qed.

Lemma worker_set_fullText (s : jsstring) (st : Machine) :
  worker (set_fullText s st) = worker st.
Proof. reflexivity. Qed.

Lemma worker_setProcessingMessage (m : jsstring) (st : Machine) :
  worker (setProcessingMessage m st) = worker st.
Proof. reflexivity. Qed.

Lemma worker_start_page (numPages i : nat) (st : Machine) :
  worker (start_page numPages i st) = worker st.
Proof. reflexivity. Qed.

Lemma worker_deliver_pdf (rm : jsstring) (ms : list TesseractProgressUpdate)
    (st : Machine) :
  worker (deliver (pageAwarePdfOcrLogger rm) ms st) = worker st.
Proof. apply (ds_worker (@display_deliver _ ms (display_pageAwarePdfOcrLogger rm) st)). Qed.

Lemma worker_deliver_image (rm : jsstring) (ms : list TesseractProgressUpdate)
    (st : Machine) :
  worker (deliver (imageOcrLogger rm) ms st) = worker st.
Proof. apply (ds_worker (@display_deliver _ ms (display_imageOcrLogger rm) st)). Qed.

Lemma fullText_record (e : Effect) (st : Machine) :
  fullText (record e st) = fullText st.
Proof. reflexivity. Qed.

Lemma fullText_set_fullText (s : jsstring) (st : Machine) :
  fullText (set_fullText s st) = s.
Proof. reflexivity. Qed.

Lemma fullText_set_worker (w : option Worker) (st : Machine) :
  fullText (set_worker w st) = fullText st.
Proof. reflexivity. Qed.

Lemma fullText_set_ref (d : PageProgressData) (st : Machine) :
  fullText (set_ref d st) = fullText st.
Proof. reflexivity. Qed.

Lemma fullText_setProcessingMessage (m : jsstring) (st : Machine) :
  fullText (setProcessingMessage m st) = fullText st.
Proof. reflexivity. Qed.

Lemma fullText_start_page (numPages i : nat) (st : Machine) :
  fullText (start_page numPages i st) = fullText st.
Proof. reflexivity. Qed.

Lemma fullText_deliver_pdf (rm : jsstring) (ms : list TesseractProgressUpdate)
    (st : Machine) :
  fullText (deliver (pageAwarePdfOcrLogger rm) ms st) = fullText st.
Proof. apply (ds_fullText (@display_deliver _ ms (display_pageAwarePdfOcrLogger rm) st)). Qed.

Create Rewrite HintDb vars_db.
#[local] Hint Rewrite worker_record worker_set_fullText worker_setProcessingMessage
  worker_start_page worker_deliver_pdf worker_deliver_image fullText_record
  fullText_set_fullText fullText_set_worker fullText_set_ref
  fullText_setProcessingMessage fullText_start_page fullText_deliver_pdf : vars_db.

Section PageRuns.

Variable rm : jsstring.

(** One page: how the iteration completes, what it calls and what it adds
    to the buffer are read off the script of the page. *)
Lemma ocrPage_run (numPages i : nat) (p : PageScript) (st : Machine) :
  exists st',
    ocrPage rm numPages i p st = (completion (page_failure p), st')
    /\ run_frame st st' (page_calls i p)
    /\ worker st' = worker st
    /\ fullText st' = fullText st ++ page_text p.
Proof.
  destruct p as [gp ctx rn [ms rs]].
  unfold page_failure, page_calls, page_text, page_failure.
  cbn [getPage_settles getContext_2d render_settles page_recognize
       recognize_settles].
  unfold canvas_error.
  destruct gp as [[]|e1]; [destruct ctx; [destruct rn as [[]|e2];
    [destruct rs as [t|e3] | ] | ] | ];
    (eexists; split; [reflexivity |];
     split; [run_frame_tac (display_pageAwarePdfOcrLogger rm) |];
     split; autorewrite with vars_db; rewrite ?app_nil_r; reflexivity).
Qed.

Lemma ocrPages_run (numPages : nat) (pages : list PageScript) :
  forall i st, exists st',
    ocrPages rm numPages i pages st = (completion (pages_failure pages), st')
    /\ run_frame st st' (pages_calls i pages)
    /\ worker st' = worker st
    /\ fullText st' = fullText st ++ pages_text pages.
Proof.
  induction pages as [|p rest IH]; intros i st.
  - exists st. repeat split; try apply rf_refl. cbn. rewrite app_nil_r. reflexivity.
  - destruct (ocrPage_run numPages i p st) as (s1 & H1 & F1 & W1 & T1).
    cbn [ocrPages pages_failure pages_calls pages_text]. unfold bind at 1.
    rewrite H1. destruct (page_failure p) as [e|] eqn:Ef; cbn [completion].
    + exists s1. rewrite !app_nil_r.
      split; [reflexivity | split; [exact F1 | split; [exact W1 |]]].
      rewrite T1. unfold page_text. rewrite Ef, app_nil_r. reflexivity.
    + destruct (IH (S i) s1) as (s2 & H2 & F2 & W2 & T2).
      exists s2. split; [exact H2 | split; [| split]].
      * eapply rf_trans; [exact F1 | exact F2 | reflexivity].
      * congruence.
      * rewrite T2, T1, app_assoc. reflexivity.
Qed.

End PageRuns.

Lemma exec_try_normal (body : M unit) (handler : jsstring -> M unit)
    (closing : M unit) (st s1 : Machine) :
  body st = (Normal tt, s1) ->
  exec (try_catch_finally body handler closing) st = exec closing s1.
Proof.
  intros H. unfold exec, try_catch_finally. rewrite H.
  destruct (closing s1) as [[[]|e] s2]; reflexivity.
Qed.

Lemma exec_try_throw (body : M unit) (handler : jsstring -> M unit)
    (closing : M unit) (st s1 : Machine) (e : jsstring) :
  body st = (Throw e, s1) ->
  exec (try_catch_finally body handler closing) st
  = exec closing (exec (handler e) s1).
Proof.
  intros H. unfold exec, try_catch_finally. rewrite H.
  destruct (handler e s1) as [r s2]. cbn [snd].
  destruct (closing s2) as [[[]|e'] s3]; reflexivity.
Qed.

Lemma exec_pdf_finally (st : Machine) :
  exec pdf_finally st
  = set_ref reset_ref
      (setProcessingProgress zero (setProcessingMessage [] (setIsLoading false st))).
Proof. reflexivity. Qed.

Lemma exec_image_finally (st : Machine) :
  exec image_finally st
  = setProcessingProgress zero (setProcessingMessage [] (setIsLoading false st)).
Proof. reflexivity. Qed.

Lemma exec_pdf_catch (e : jsstring) (st : Machine) :
  exec (pdf_catch e) st
  = (match worker st with Some _ => record ETerminate | None => fun s => s end)
      (setStatusMessage (pdf_error_message e)
         (setRawExtractedText [] (record EConsoleError st))).
Proof.
  unfold exec, pdf_catch, bind, act, terminate_if_live.
  change (worker (setStatusMessage
                    {| text := str "Falha ao processar PDF com OCR: " ++ e;
                       type := error |}
                    (setRawExtractedText [] (record EConsoleError st))))
    with (worker st).
  destruct (worker st); reflexivity.
Qed.

Lemma exec_image_catch (e : jsstring) (st : Machine) :
  exec (image_catch e) st
  = (match worker st with Some _ => record ETerminate | None => fun s => s end)
      (setStatusMessage (image_error_message e)
         (setRawExtractedText [] (record EConsoleError st))).
Proof.
  unfold exec, image_catch, bind, act, terminate_if_live.
  change (worker (setStatusMessage
                    {| text := str "Falha ao processar imagem com OCR: " ++ e;
                       type := error |}
                    (setRawExtractedText [] (record EConsoleError st))))
    with (worker st).
  destruct (worker st); reflexivity.
Qed.

(** The end of the [try] block of a PDF operation. *)
Lemma pdf_finish_run (st : Machine) :
  exists st',
    pdf_finish st = (Normal tt, st')
    /\ notable (trace st') = notable (trace st) ++ pdf_finished (fullText st)
    /\ statusMessage st'
       = Some (if JsString.eqb (JsString.trim (fullText st)) []
               then pdf_empty_message else pdf_success_message)
    /\ rawExtractedText st'
       = (if JsString.eqb (JsString.trim (fullText st)) []
          then [] else JsString.trim (fullText st))
    /\ currentFile st' = currentFile st
    /\ worker st' = None.
Proof.
  unfold pdf_finish, pdf_finished, bind, terminate, act.
  change (fullText (set_worker None (record ETerminate st))) with (fullText st).
  destruct (JsString.eqb (JsString.trim (fullText st)) []);
    (eexists; split; [reflexivity |]; split; [| repeat split]);
    autorewrite with trace_db; rewrite !notable_app, <- !app_assoc; reflexivity.
Qed.

Lemma image_finish_run (resultText : jsstring) (st : Machine) :
  exists st',
    image_finish resultText st = (Normal tt, st')
    /\ notable (trace st') = notable (trace st) ++ image_finished resultText
    /\ statusMessage st'
       = Some (if JsString.eqb (JsString.trim resultText) []
               then image_empty_message else image_success_message)
    /\ rawExtractedText st'
       = (if JsString.eqb (JsString.trim resultText) [] then [] else resultText)
    /\ currentFile st' = currentFile st
    /\ worker st' = None.
Proof.
  unfold image_finish, image_finished.
  destruct (JsString.eqb (JsString.trim resultText) []);
    (eexists; split; [reflexivity |]; split; [| repeat split]);
    autorewrite with trace_db; rewrite !notable_app, <- !app_assoc; reflexivity.
Qed.

Section OperationRuns.

Variable rm : jsstring.

(** The [try] block of a PDF operation up to the end of the loop. *)
Lemma pdf_try_run (file : PdfScript) (st : Machine) :
  exists s1,
    match pdf_failure file with
    | Some e => pdf_try rm file st = (Throw e, s1)
    | None => pdf_try rm file st = pdf_finish s1
    end
    /\ run_frame st s1 (pdf_opening file)
    /\ worker s1 = (if pdf_worker_created file then Some TheWorker else worker st)
    /\ (pdf_failure file = None -> fullText s1 = fullText st ++ pdf_text file).
Proof.
  destruct file as [ab gd [cm cs]].
  unfold pdf_failure, pdf_opening, pdf_worker_created, pdf_text.
  cbn [arrayBuffer_settles getDocument_settles pdf_createWorker create_settles].
  destruct ab as [[]|e1]; [destruct gd as [pages|e2]; [destruct cs as [[]|e3] |] |].
  - destruct (ocrPages_run rm (List.length pages) pages 1
                (set_worker (Some TheWorker)
                   (record (ECreateWorker true)
                      (deliver (pageAwarePdfOcrLogger rm) cm
                         (set_ref (parsed_ref (List.length pages))
                            (record EGetDocument (record EArrayBuffer st)))))))
      as (s4 & H & F & W & T).
    exists s4. split; [| split; [| split]].
    + unfold pdf_try, initializeTesseractWorker.
      cbn [arrayBuffer_settles getDocument_settles pdf_createWorker
           create_settles create_messages].
      unfold bind, act, await, ret. unfold bind in H. rewrite H.
      destruct (pages_failure pages); reflexivity.
    + eapply rf_trans
        with (d1 := [EArrayBuffer; EGetDocument; ECreateWorker true]);
        [| exact F | reflexivity].
      run_frame_tac (display_pageAwarePdfOcrLogger rm).
    + rewrite W. reflexivity.
    + intros ?. rewrite T. autorewrite with vars_db. reflexivity.
  - eexists. split; [reflexivity |].
    split; [run_frame_tac (display_pageAwarePdfOcrLogger rm) |].
    split; [autorewrite with vars_db; reflexivity | discriminate].
  - eexists. split; [reflexivity |].
    split; [run_frame_tac (display_pageAwarePdfOcrLogger rm) |].
    split; [autorewrite with vars_db; reflexivity | discriminate].
  - eexists. split; [reflexivity |].
    split; [run_frame_tac (display_pageAwarePdfOcrLogger rm) |].
    split; [autorewrite with vars_db; reflexivity | discriminate].
Qed.

Lemma image_try_run (file : ImageScript) (st : Machine) :
  exists s1,
    match image_failure file, recognize_settles (image_recognize file) with
    | Some e, _ => image_try rm file st = (Throw e, s1)
    | None, Resolved t => image_try rm file st = image_finish t s1
    | None, Rejected _ => False
    end
    /\ run_frame st s1 (image_opening file)
    /\ worker s1 = (if image_worker_created file then Some TheWorker else worker st).
Proof.
  destruct file as [[cm cs] [ms rs]].
  unfold image_failure, image_opening, image_worker_created.
  cbn [image_createWorker image_recognize create_settles recognize_settles].
  destruct cs as [[]|e1]; [destruct rs as [t|e2] |];
    (eexists; split; [reflexivity |];
     split; [run_frame_tac (display_imageOcrLogger rm) |];
     autorewrite with vars_db; reflexivity).
Qed.

(** A PDF operation on a script: what it does besides updating the
    progress display, and what it leaves on the screen. *)
Lemma ocrPdfDocument_run (file : PdfScript) (st : Machine) :
  notable (trace (exec (ocrPdfDocument rm file) st))
  = notable (trace st) ++ pdf_notable file
  /\ statusMessage (exec (ocrPdfDocument rm file) st)
     = Some (fst (pdf_verdict file))
  /\ rawExtractedText (exec (ocrPdfDocument rm file) st) = snd (pdf_verdict file)
  /\ currentFile (exec (ocrPdfDocument rm file) st) = currentFile st
  /\ isLoading (exec (ocrPdfDocument rm file) st) = false.
Proof.
  pose (st0 := set_fullText []
                 (set_worker None
                    (setProcessingProgress zero
                       (setProcessingMessage
                          (str "Iniciando processamento OCR do PDF...") st)))).
  assert (F0 : run_frame st st0 [])
    by (unfold st0; run_frame_tac (display_pageAwarePdfOcrLogger rm)).
  assert (W0 : worker st0 = None) by reflexivity.
  assert (T0 : fullText st0 = []) by reflexivity.
  change (exec (ocrPdfDocument rm file) st)
    with (exec (try_catch_finally (pdf_try rm file) pdf_catch pdf_finally) st0).
  destruct (pdf_try_run file st0) as (s1 & E & F & W & T).
  rewrite W0 in W. rewrite T0 in T. clearbody st0.
  unfold pdf_notable, pdf_verdict.
  destruct (pdf_failure file) as [e|].
  - rewrite (@exec_try_throw _ pdf_catch pdf_finally _ _ _ E), exec_pdf_finally, exec_pdf_catch, W.
    unfold pdf_caught.
    destruct (pdf_worker_created file);
      (split; [| split; [reflexivity | split; [reflexivity | split; [| reflexivity]]]];
       [ autorewrite with trace_db;
         rewrite !notable_app, (rf_notable F), (rf_notable F0);
         rewrite <- !app_assoc; reflexivity
       | transitivity (currentFile s1); [reflexivity |];
         rewrite (rf_file F), (rf_file F0); reflexivity ]).
  - specialize (T eq_refl). cbn [app] in T.
    destruct (pdf_finish_run s1) as (s2 & E2 & N2 & S2 & R2 & C2 & W2).
    rewrite E2 in E. rewrite (@exec_try_normal _ pdf_catch pdf_finally _ _ E), exec_pdf_finally.
    rewrite T in N2, S2, R2.
    split; [| split; [| split; [| split; [| reflexivity]]]].
    + autorewrite with trace_db.
      rewrite !notable_app, N2, (rf_notable F), (rf_notable F0).
      rewrite <- !app_assoc. reflexivity.
    + transitivity (statusMessage s2); [reflexivity |]. rewrite S2.
      destruct (JsString.eqb (JsString.trim (pdf_text file)) []); reflexivity.
    + transitivity (rawExtractedText s2); [reflexivity |]. rewrite R2.
      destruct (JsString.eqb (JsString.trim (pdf_text file)) []); reflexivity.
    + transitivity (currentFile s2); [reflexivity |].
      rewrite C2, (rf_file F), (rf_file F0). reflexivity.
Qed.

(** The same for an image operation. *)
Lemma ocrImageFile_run (file : ImageScript) (st : Machine) :
  notable (trace (exec (ocrImageFile rm file) st))
  = notable (trace st) ++ image_notable file
  /\ statusMessage (exec (ocrImageFile rm file) st)
     = Some (fst (image_verdict file))
  /\ rawExtractedText (exec (ocrImageFile rm file) st) = snd (image_verdict file)
  /\ currentFile (exec (ocrImageFile rm file) st) = currentFile st
  /\ isLoading (exec (ocrImageFile rm file) st) = false.
Proof.
  pose (st0 := set_worker None
                 (setProcessingProgress zero
                    (setProcessingMessage (str "Processando Imagem (OCR)...") st))).
  assert (F0 : run_frame st st0 [])
    by (unfold st0; run_frame_tac (display_imageOcrLogger rm)).
  assert (W0 : worker st0 = None) by reflexivity.
  change (exec (ocrImageFile rm file) st)
    with (exec (try_catch_finally (image_try rm file) image_catch image_finally) st0).
  destruct (image_try_run file st0) as (s1 & E & F & W).
  rewrite W0 in W. clearbody st0.
  unfold image_notable, image_verdict.
  destruct (image_failure file) as [e|].
  - rewrite (@exec_try_throw _ image_catch image_finally _ _ _ E), exec_image_finally, exec_image_catch, W.
    unfold image_caught.
    destruct (image_worker_created file);
      (split; [| split; [reflexivity | split; [reflexivity | split; [| reflexivity]]]];
       [ autorewrite with trace_db;
         rewrite !notable_app, (rf_notable F), (rf_notable F0);
         rewrite <- !app_assoc; reflexivity
       | transitivity (currentFile s1); [reflexivity |];
         rewrite (rf_file F), (rf_file F0); reflexivity ]).
  - destruct (recognize_settles (image_recognize file)) as [t|e]; [| contradiction].
    destruct (image_finish_run t s1) as (s2 & E2 & N2 & S2 & R2 & C2 & W2).
    rewrite E2 in E. rewrite (@exec_try_normal _ image_catch image_finally _ _ E), exec_image_finally.
    split; [| split; [| split; [| split; [| reflexivity]]]].
    + autorewrite with trace_db.
      rewrite !notable_app, N2, (rf_notable F), (rf_notable F0).
      rewrite <- !app_assoc. reflexivity.
    + transitivity (statusMessage s2); [reflexivity |]. rewrite S2.
      destruct (JsString.eqb (JsString.trim t) []); reflexivity.
    + transitivity (rawExtractedText s2); [reflexivity |]. rewrite R2.
      destruct (JsString.eqb (JsString.trim t) []); reflexivity.
    + transitivity (currentFile s2); [reflexivity |].
      rewrite C2, (rf_file F), (rf_file F0). reflexivity.
Qed.

End OperationRuns.

(** [handleFile] on a script. *)
Lemma handleFile_run (rm : jsstring) (f : File) (content : FileScript)
    (st : Machine) :
  notable (trace (handleFile rm (Some f) content st))
  = notable (trace st) ++ file_notable f content
  /\ statusMessage (handleFile rm (Some f) content st)
     = Some (fst (file_verdict f content))
  /\ rawExtractedText (handleFile rm (Some f) content st)
     = snd (file_verdict f content)
  /\ currentFile (handleFile rm (Some f) content st)
     = (if supported f then Some f else None)
  /\ isLoading (handleFile rm (Some f) content st) = false.
Proof.
  rewrite handleFile_accepts. unfold file_notable, file_verdict, supported.
  assert (A : notable (trace (accept_file f st)) = notable (trace st) ++ accepted f).
  { rewrite accept_file_trace, notable_app. reflexivity. }
  destruct (JsString.eqb (file_type f) (str "application/pdf"));
    [| destruct (JsString.startsWith (file_type f) (str "image/"))];
    cbn [orb].
  - destruct (ocrPdfDocument_run rm (as_pdf content) (accept_file f st))
      as (N & S & R & C & L).
    rewrite N, A, <- app_assoc. repeat split; assumption.
  - destruct (ocrImageFile_run rm (as_image content) (accept_file f st))
      as (N & S & R & C & L).
    rewrite N, A, <- app_assoc. repeat split; assumption.
  - repeat split. autorewrite with trace_db.
    rewrite !notable_app, A, <- !app_assoc. reflexivity.
Qed.

(** *** The disciplines skip the progress display *)

Lemma notable_cons (e : Effect) (t : list Effect) :
  notable (e :: t) = if is_progress e then notable t else e :: notable t.
Proof. unfold notable. cbn [filter]. destruct (is_progress e); reflexivity. Qed.

Lemma calls_notable (t : list Effect) : calls (notable t) = calls t.
Proof.
  induction t as [|e t IH]; [reflexivity |].
  rewrite notable_cons. destruct e; cbn [is_progress]; unfold calls in *;
    cbn [filter is_resource]; rewrite ?IH; reflexivity.
Qed.

Lemma calls_app (a b : list Effect) : calls (a ++ b) = calls a ++ calls b.
Proof. apply filter_app. Qed.

Lemma page_events_notable (t : list Effect) :
  page_events (notable t) = page_events t.
Proof.
  induction t as [|e t IH]; [reflexivity |].
  rewrite notable_cons. destruct e; cbn [is_progress]; unfold page_events in *;
    cbn [filter is_page_effect]; rewrite ?IH; reflexivity.
Qed.

Lemma page_events_app (a b : list Effect) :
  page_events (a ++ b) = page_events a ++ page_events b.
Proof. apply filter_app. Qed.

Lemma lifecycle_notable (t : list Effect) :
  forall ph, lifecycle ph (notable t) = lifecycle ph t.
Proof.
  induction t as [|e t IH]; intros ph; [reflexivity |].
  rewrite notable_cons.
  destruct e as [| |[|]| | | | | | | | | | | | |]; cbn [is_progress lifecycle];
    try apply IH; destruct ph; try reflexivity; apply IH.
Qed.

Lemma lifecycle_app (a : list Effect) :
  forall ph b,
    lifecycle ph (a ++ b)
    = match lifecycle ph a with
      | Some ph' => lifecycle ph' b
      | None => None
      end.
Proof.
  induction a as [|e a IH]; intros ph b; [reflexivity |].
  destruct e as [| |[|]| | | | | | | | | | | | |]; cbn [app lifecycle];
    try apply IH; destruct ph; try reflexivity; apply IH.
Qed.

Lemma paging_notable (t : list Effect) :
  forall next open, paging next open (notable t) = paging next open t.
Proof.
  induction t as [|e t IH]; intros next open; [reflexivity |].
  rewrite notable_cons.
  destruct e; cbn [is_progress paging]; try apply IH;
    match goal with |- context [if ?b then _ else _] => destruct b end;
    try reflexivity; apply IH.
Qed.

Lemma paging_app (a : list Effect) :
  forall next open b,
    paging next open (a ++ b)
    = match paging next open a with
      | Some (next', open') => paging next' open' b
      | None => None
      end.
Proof.
  induction a as [|e a IH]; intros next open b; [reflexivity |].
  destruct e; cbn [app paging]; try apply IH;
    match goal with |- context [if ?c then _ else _] => destruct c end;
    try reflexivity; apply IH.
Qed.

Lemma loading_calls_notable (t : list Effect) :
  loading_calls (notable t) = loading_calls t.
Proof.
  induction t as [|e t IH]; [reflexivity |].
  rewrite notable_cons.
  destruct e; cbn [is_progress loading_calls]; rewrite ?IH; reflexivity.
Qed.

Lemma loading_calls_app (a b : list Effect) :
  loading_calls (a ++ b) = loading_calls a ++ loading_calls b.
Proof.
  induction a as [|e a IH]; [reflexivity |].
  destruct e; cbn [app loading_calls]; rewrite ?IH; reflexivity.
Qed.

Lemma status_timers_notable (t : list Effect) :
  status_timers (notable t) = status_timers t.
Proof.
  induction t as [|e t IH]; [reflexivity |].
  rewrite notable_cons.
  destruct e; cbn [is_progress status_timers]; rewrite ?IH; reflexivity.
Qed.

Lemma status_timers_app (a b : list Effect) :
  status_timers (a ++ b) = status_timers a ++ status_timers b.
Proof.
  induction a as [|e a IH]; [reflexivity |].
  destruct e; cbn [app status_timers]; rewrite ?IH; reflexivity.
Qed.

(** *** The disciplines on what a script makes the operations do *)

Ltac page_cases p :=
  destruct p as [gp ctx rn [ms rs]];
  unfold page_calls, page_failure;
  cbn [getPage_settles getContext_2d render_settles page_recognize
       recognize_settles];
  destruct gp as [[]|?]; [destruct ctx; [destruct rn as [[]|?];
    [destruct rs as [?|?] | ] | ] | ].

Lemma lifecycle_page_calls (i : nat) (p : PageScript) :
  lifecycle Live (page_calls i p) = Some Live.
Proof. page_cases p; reflexivity. Qed.

Lemma lifecycle_pages_calls (pages : list PageScript) :
  forall i, lifecycle Live (pages_calls i pages) = Some Live.
Proof.
  induction pages as [|p rest IH]; intros i; [reflexivity |].
  cbn [pages_calls]. rewrite lifecycle_app, lifecycle_page_calls.
  destruct (page_failure p); [reflexivity | apply IH].
Qed.

Lemma lifecycle_pdf_notable (file : PdfScript) :
  lifecycle Absent (pdf_notable file)
  = Some (if pdf_worker_created file then Gone else Absent).
Proof.
  destruct file as [ab gd [cm cs]].
  unfold pdf_notable, pdf_opening, pdf_failure, pdf_worker_created, pdf_text,
    pdf_caught, pdf_finished.
  cbn [arrayBuffer_settles getDocument_settles pdf_createWorker create_settles].
  destruct ab as [[]|?]; [destruct gd as [pages|?]; [destruct cs as [[]|?] |] |];
    try reflexivity.
  cbn [app lifecycle]. rewrite lifecycle_app, lifecycle_pages_calls.
  destruct (pages_failure pages); [reflexivity |].
  destruct (JsString.eqb (JsString.trim (pages_text pages)) []); reflexivity.
Qed.

Lemma lifecycle_image_notable (file : ImageScript) :
  lifecycle Absent (image_notable file)
  = Some (if image_worker_created file then Gone else Absent).
Proof.
  destruct file as [[cm cs] [ms rs]].
  unfold image_notable, image_opening, image_failure, image_worker_created,
    image_caught, image_finished.
  cbn [image_createWorker image_recognize create_settles recognize_settles].
  destruct cs as [[]|?]; [destruct rs as [t|?] |]; try reflexivity.
  destruct (JsString.eqb (JsString.trim t) []); reflexivity.
Qed.

Lemma paging_page_calls (i : nat) (p : PageScript) :
  paging i false (page_calls i p)
  = Some (match page_failure p with
          | Some _ => (i, true)
          | None => (S i, false)
          end).
Proof.
  page_cases p; cbn [paging negb andb]; rewrite ?Nat.eqb_refl;
    cbn [paging negb andb]; rewrite ?Nat.eqb_refl; reflexivity.
Qed.

Lemma paging_pages_calls (pages : list PageScript) :
  forall i, exists k b,
    paging i false (pages_calls i pages) = Some (k, b)
    /\ k <= i + List.length pages
    /\ (b = true -> k < i + List.length pages)
    /\ (pages_failure pages = None -> k = i + List.length pages /\ b = false).
Proof.
  induction pages as [|p rest IH]; intros i.
  - exists i, false. cbn [pages_calls paging List.length pages_failure].
    split; [reflexivity | split; [lia | split; [discriminate |]]].
    intros ?. split; [lia | reflexivity].
  - cbn [pages_calls pages_failure List.length].
    rewrite paging_app, paging_page_calls.
    destruct (page_failure p) as [e|].
    + exists i, true. cbn [paging].
      split; [reflexivity | split; [lia | split; [lia | discriminate]]].
    + destruct (IH (S i)) as (k & b & E & L & O & F).
      exists k, b. rewrite E.
      split; [reflexivity | split; [lia | split]].
      * intros Hb. specialize (O Hb). lia.
      * intros H. destruct (F H) as [Hk Hb]. split; [lia | exact Hb].
Qed.

Lemma getPage_in_page_calls (i j : nat) (p : PageScript) :
  In (EGetPage j) (page_calls i p) -> j = i.
Proof.
  page_cases p; cbn [In]; intros H;
    repeat match goal with
      | H : _ \/ _ |- _ => destruct H as [H|H]
      end;
    try contradiction; try discriminate H; injection H; auto.
Qed.

Lemma getPage_in_pages_calls (pages : list PageScript) :
  forall i j, In (EGetPage j) (pages_calls i pages) ->
    i <= j < i + List.length pages.
Proof.
  induction pages as [|p rest IH]; intros i j H; [contradiction |].
  cbn [pages_calls List.length] in *. apply in_app_or in H. destruct H as [H|H].
  - apply getPage_in_page_calls in H. lia.
  - destruct (page_failure p); [contradiction |].
    apply IH in H. lia.
Qed.

Lemma page_events_page_calls (i : nat) (p : PageScript) :
  page_failure p = None -> page_events (page_calls i p) = page_round i.
Proof. page_cases p; intros H; try discriminate H; reflexivity. Qed.

Lemma page_events_pages_calls (pages : list PageScript) :
  forall i,
    pages_failure pages = None ->
    page_events (pages_calls i pages)
    = flat_map page_round (seq i (List.length pages)).
Proof.
  induction pages as [|p rest IH]; intros i H; [reflexivity |].
  cbn [pages_calls pages_failure List.length seq flat_map] in *.
  destruct (page_failure p) as [e|] eqn:Ep; [discriminate H |].
  rewrite page_events_app, (page_events_page_calls i p Ep), (IH (S i) H).
  reflexivity.
Qed.

Lemma loading_calls_pages_calls (pages : list PageScript) :
  forall i, loading_calls (pages_calls i pages) = [].
Proof.
  induction pages as [|p rest IH]; intros i; [reflexivity |].
  cbn [pages_calls]. rewrite loading_calls_app.
  assert (loading_calls (page_calls i p) = []) as -> by (page_cases p; reflexivity).
  destruct (page_failure p); [reflexivity | apply IH].
Qed.

Lemma status_timers_pages_calls (pages : list PageScript) :
  forall i, status_timers (pages_calls i pages) = [].
Proof.
  induction pages as [|p rest IH]; intros i; [reflexivity |].
  cbn [pages_calls]. rewrite status_timers_app.
  assert (status_timers (page_calls i p) = []) as -> by (page_cases p; reflexivity).
  destruct (page_failure p); [reflexivity | apply IH].
Qed.

Ltac pdf_cases file :=
  destruct file as [ab gd [cm cs]];
  unfold pdf_notable, pdf_verdict, pdf_opening, pdf_failure, pdf_worker_created,
    pdf_text, pdf_caught, pdf_finished;
  cbn [arrayBuffer_settles getDocument_settles pdf_createWorker create_settles];
  destruct ab as [[]|?]; [destruct gd as [pages|?]; [destruct cs as [[]|?] |] |].

Ltac image_cases file :=
  destruct file as [[cm cs] [ms rs]];
  unfold image_notable, image_verdict, image_opening, image_failure,
    image_worker_created, image_caught, image_finished;
  cbn [image_createWorker image_recognize create_settles recognize_settles];
  destruct cs as [[]|?]; [destruct rs as [t|?] |].

Lemma loading_calls_pdf_notable (file : PdfScript) :
  loading_calls (pdf_notable file) = [false].
Proof.
  pdf_cases file; try reflexivity.
  cbn [app loading_calls].
  rewrite loading_calls_app, loading_calls_pages_calls.
  destruct (pages_failure pages); [reflexivity |].
  destruct (JsString.eqb (JsString.trim (pages_text pages)) []); reflexivity.
Qed.

Lemma loading_calls_image_notable (file : ImageScript) :
  loading_calls (image_notable file) = [false].
Proof.
  image_cases file; try reflexivity.
  destruct (JsString.eqb (JsString.trim t) []); reflexivity.
Qed.

Lemma status_timers_pdf_notable (file : PdfScript) :
  status_timers (pdf_notable file)
  = match type (fst (pdf_verdict file)) with
    | success => [None]
    | _ => []
    end.
Proof.
  pdf_cases file; try reflexivity.
  cbn [app status_timers].
  rewrite status_timers_app, status_timers_pages_calls.
  destruct (pages_failure pages); [reflexivity |].
  destruct (JsString.eqb (JsString.trim (pages_text pages)) []); reflexivity.
Qed.

Lemma status_timers_image_notable (file : ImageScript) :
  status_timers (image_notable file)
  = match type (fst (image_verdict file)) with
    | success => [None]
    | _ => []
    end.
Proof.
  image_cases file; try reflexivity.
  destruct (JsString.eqb (JsString.trim t) []); reflexivity.
Qed.

Lemma pdf_verdict_success (file : PdfScript) :
  type (fst (pdf_verdict file)) = success <-> snd (pdf_verdict file) <> [].
Proof.
  unfold pdf_verdict. destruct (pdf_failure file) as [e|].
  - cbn [fst snd type pdf_error_message]. split; [discriminate | congruence].
  - destruct (JsString.eqb (JsString.trim (pdf_text file)) []) eqn:E;
      cbn [fst snd type pdf_empty_message pdf_success_message].
    + split; [discriminate | congruence].
    + split; [| reflexivity]. intros ? H. rewrite H in E. discriminate E.
Qed.

Lemma image_verdict_success (file : ImageScript) :
  type (fst (image_verdict file)) = success <-> snd (image_verdict file) <> [].
Proof.
  unfold image_verdict. destruct (image_failure file) as [e|].
  - cbn [fst snd type image_error_message]. split; [discriminate | congruence].
  - destruct (recognize_settles (image_recognize file)) as [t|e].
    + destruct (JsString.eqb (JsString.trim t) []) eqn:E;
        cbn [fst snd type image_empty_message image_success_message].
      * split; [discriminate | congruence].
      * split; [| reflexivity]. intros ? H. rewrite H in E. discriminate E.
    + cbn [fst snd type image_empty_message]. split; [discriminate | congruence].
Qed.

Lemma file_verdict_success (f : File) (content : FileScript) :
  type (fst (file_verdict f content)) = success
  <-> snd (file_verdict f content) <> [].
Proof.
  unfold file_verdict.
  destruct (JsString.eqb (file_type f) (str "application/pdf"));
    [apply pdf_verdict_success |].
  destruct (JsString.startsWith (file_type f) (str "image/"));
    [apply image_verdict_success |].
  cbn [fst snd type unsupported_message]. split; [discriminate | congruence].
Qed.

(* ===================================================================== *)
(** ** A PDF without pages *)
(* ===================================================================== *)

Section ZeroPages.

Variable rm : jsstring.
Variable init : list TesseractProgressUpdate.

Lemma pdf_try_zero_pages (st : Machine) :
  pdf_try rm (readable_pdf init []) st = pdf_finish (zero_pages_worker_ready rm init st).
Proof. reflexivity. Qed.

Lemma zero_pages_ref (st : Machine) :
  ocrPageProgressDataRef (zero_pages_worker_ready rm init st) = parsed_ref 0.
Proof.
  unfold zero_pages_worker_ready. cbn [ocrPageProgressDataRef set_worker record].
  rewrite (ds_ref (@display_deliver _ init (display_pageAwarePdfOcrLogger rm) _)).
  reflexivity.
Qed.

Lemma zero_pages_fullText (st : Machine) :
  fullText (zero_pages_worker_ready rm init st) = fullText st.
Proof.
  unfold zero_pages_worker_ready. cbn [fullText set_worker record].
  rewrite (ds_fullText (@display_deliver _ init (display_pageAwarePdfOcrLogger rm) _)).
  reflexivity.
Qed.

Lemma zero_pages_trace (st : Machine) :
  exists out,
    Forall is_display out
    /\ trace (zero_pages_worker_ready rm init st)
       = trace st ++ [EArrayBuffer; EGetDocument] ++ out ++ [ECreateWorker true].
Proof.
  unfold zero_pages_worker_ready.
  destruct (ds_trace (@display_deliver _ init (display_pageAwarePdfOcrLogger rm)
                        (set_ref (parsed_ref 0)
                           (record EGetDocument (record EArrayBuffer st)))))
    as (out & Ht & Hd).
  exists out. split; [exact Hd|].
  autorewrite with trace_db. rewrite Ht. autorewrite with trace_db.
  rewrite <- !app_assoc. reflexivity.
Qed.

Lemma pdf_finish_keeps_ref (st : Machine) :
  ocrPageProgressDataRef (exec pdf_finish st) = ocrPageProgressDataRef st.
Proof.
  unfold exec, pdf_finish, bind, terminate, act.
  destruct (JsString.eqb _ []); reflexivity.
Qed.

Lemma pdf_finish_blank (st : Machine) :
  fullText st = [] ->
  pdf_finish st
  = (Normal tt,
     setStatusMessage
       {| text := str "OCR do PDF concluído, mas nenhum texto foi detectado.";
          type := warning |}
       (setRawExtractedText [] (set_worker None (record ETerminate st)))).
Proof.
  intros H. unfold pdf_finish, bind, terminate, act.
  change (fullText (set_worker None (record ETerminate st))) with (fullText st).
  rewrite H. reflexivity.
Qed.

Lemma ocrPdfDocument_zero_pages (st : Machine) :
  exec (ocrPdfDocument rm (readable_pdf init [])) st
  = exec pdf_finally
      ((zero_pages_finished rm init)
         (set_fullText []
            (set_worker None
               (setProcessingProgress zero
                  (setProcessingMessage
                     (str "Iniciando processamento OCR do PDF...") st))))).
Proof.
  unfold ocrPdfDocument. rewrite !exec_act_bind.
  unfold exec at 1, try_catch_finally.
  rewrite pdf_try_zero_pages, pdf_finish_blank
    by (rewrite zero_pages_fullText; reflexivity).
  reflexivity.
Qed.

End ZeroPages.

(** C3, as the code has it.  The operation has no check for a PDF without
    pages and raises no error of its own for it.  When the file is read and
    parsed with a page count of 0, the page budget [100 / 0] is evaluated, to
    [Infinity], and the operation goes on to create the worker.  If the
    worker is created the loop is skipped, the worker is terminated, and the
    operation ends with the warning "OCR do PDF concluído, mas nenhum texto
    foi detectado." and an empty raw text; besides what the logger does
    with the messages of the worker's creation, the progress is only set to
    0 when the operation starts and when it ends.  If the creation of the
    worker is rejected the operation ends with the error message of a
    failed PDF operation, as for any other PDF. *)
Theorem zero_page_pdf_ends_empty (rm : jsstring) (w : WorkerScript)
    (st : Machine) :
  JsNumber.div (JsNumber.of_Z 100) (JsNumber.of_Z 0) = JsNumber.PosInf
  /\ pageBudget (ocrPageProgressDataRef (exec (pdf_try rm (zero_page_pdf w)) st))
     = JsNumber.PosInf
  /\ rawExtractedText (exec (ocrPdfDocument rm (zero_page_pdf w)) st) = []
  /\ match create_settles w with
     | Resolved _ =>
         statusMessage (exec (ocrPdfDocument rm (zero_page_pdf w)) st)
         = Some {| text := str "OCR do PDF concluído, mas nenhum texto foi detectado.";
                   type := warning |}
         /\ exists out,
              Forall is_display out
              /\ trace (exec (ocrPdfDocument rm (zero_page_pdf w)) st)
                 = trace st
                   ++ [ESetMessage (str "Iniciando processamento OCR do PDF...");
                       ESetProgress (JsNumber.of_Z 0); EArrayBuffer; EGetDocument]
                   ++ out
                   ++ [ECreateWorker true; ETerminate; ESetRawText [];
                       ESetStatus
                         {| text := str "OCR do PDF concluído, mas nenhum texto foi detectado.";
                            type := warning |};
                       ESetLoading false; ESetMessage [];
                       ESetProgress (JsNumber.of_Z 0)]
     | Rejected e =>
         statusMessage (exec (ocrPdfDocument rm (zero_page_pdf w)) st)
         = Some {| text := str "Falha ao processar PDF com OCR: " ++ e;
                   type := error |}
         /\ notable (trace (exec (ocrPdfDocument rm (zero_page_pdf w)) st))
            = notable (trace st)
              ++ [EArrayBuffer; EGetDocument; ECreateWorker false; EConsoleError;
                  ESetRawText [];
                  ESetStatus
                    {| text := str "Falha ao processar PDF com OCR: " ++ e;
                       type := error |};
                  ESetLoading false]
     end.
Proof.
  destruct w as [init [[]|e]].
  - change (zero_page_pdf {| create_messages := init; create_settles := Resolved tt |})
      with (readable_pdf init []).
    cbn [create_settles].
    split; [reflexivity | split; [| split; [| split]]].
    + unfold exec. rewrite pdf_try_zero_pages.
      change (snd (pdf_finish (zero_pages_worker_ready rm init st)))
        with (exec pdf_finish (zero_pages_worker_ready rm init st)).
      rewrite pdf_finish_keeps_ref, zero_pages_ref. reflexivity.
    + rewrite ocrPdfDocument_zero_pages. reflexivity.
    + rewrite ocrPdfDocument_zero_pages. reflexivity.
    + rewrite ocrPdfDocument_zero_pages.
      match goal with
      | |- context [zero_pages_finished rm init ?s] =>
          destruct (zero_pages_trace rm init s) as (out & Hd & Ht)
      end.
      exists out. split; [exact Hd|].
      unfold exec, pdf_finally, bind, act. cbn [snd].
      unfold zero_pages_finished. autorewrite with trace_db.
      rewrite Ht. autorewrite with trace_db.
      rewrite <- !app_assoc. reflexivity.
  - cbn [create_settles].
    destruct (ocrPdfDocument_run rm
                (zero_page_pdf {| create_messages := init; create_settles := Rejected e |})
                st) as (N & S & R & _).
    split; [reflexivity | split; [| split; [exact R | split; [exact S | exact N]]]].
    change (exec (pdf_try rm
                    (zero_page_pdf
                       {| create_messages := init; create_settles := Rejected e |}))
              st)
      with (record (ECreateWorker false)
              (deliver (pageAwarePdfOcrLogger rm) init
                 (set_ref (parsed_ref 0)
                    (record EGetDocument (record EArrayBuffer st))))).
    cbn [ocrPageProgressDataRef record].
    rewrite (ds_ref (@display_deliver _ init (display_pageAwarePdfOcrLogger rm) _)).
    reflexivity.
Qed.

(** C3 as stated fails: a PDF that parses with no pages ends with the
    warning of an empty result and not with an error, after a worker was
    created and the budget was computed as 100 / 0. *)
Lemma zero_pages_not_rejected :
  outcome (exec (ocrPdfDocument [] (readable_pdf [] [])) initial) = Some warning
  /\ outcome (exec (ocrPdfDocument [] (readable_pdf [] [])) initial) <> Some error
  /\ creations (trace (exec (ocrPdfDocument [] (readable_pdf [] [])) initial)) = 1
  /\ progress_values (trace (exec (ocrPdfDocument [] (readable_pdf [] [])) initial))
     = [JsNumber.of_Z 0; JsNumber.of_Z 0]
  /\ pageBudget
       (ocrPageProgressDataRef (exec (pdf_try [] (readable_pdf [] [])) initial))
     = JsNumber.PosInf.
Proof.
  repeat split; try (vm_compute; reflexivity).
  vm_compute. discriminate.
Qed.

(* ===================================================================== *)
(** ** What the operations do on every script *)
(* ===================================================================== *)

(** X1.  When a call of a PDF operation is rejected (reading the file,
    parsing it, creating the worker, or fetching, rendering or recognising a
    page, or a canvas without 2D context), the operation ends with the
    error message "Falha ao processar PDF com OCR: " followed by the detail
    of the first such failure, with the empty raw text, whatever the pages
    before it had recognised, and with the loading flag lowered. *)
Theorem pdf_error_reports_first_failure (rm : jsstring) (file : PdfScript)
    (e : jsstring) (st : Machine) :
  pdf_failure file = Some e ->
  statusMessage (exec (ocrPdfDocument rm file) st)
  = Some {| text := str "Falha ao processar PDF com OCR: " ++ e; type := error |}
  /\ rawExtractedText (exec (ocrPdfDocument rm file) st) = []
  /\ isLoading (exec (ocrPdfDocument rm file) st) = false.
Proof.
  intros H.
  destruct (ocrPdfDocument_run rm file st) as (_ & S & R & _ & L).
  unfold pdf_verdict in S, R. rewrite H in S, R.
  split; [exact S | split; [exact R | exact L]].
Qed.

Lemma pdf_error_reports_first_failure_witness :
  pdf_failure second_page_unrenderable = Some (str "render failed")
  /\ rawExtractedText
       (exec (ocrPdfDocument [] second_page_unrenderable)
          (with_rawExtractedText (str "old text") initial)) = [].
Proof.
  assert (H : pdf_failure second_page_unrenderable = Some (str "render failed"))
    by reflexivity.
  split; [exact H |].
  exact (proj1 (proj2 (@pdf_error_reports_first_failure [] second_page_unrenderable
                         (str "render failed")
                         (with_rawExtractedText (str "old text") initial) H))).
Defined.

(** X2.  When the creation of the worker or the recognition of an image is
    rejected, the operation ends with the error message "Falha ao processar
    imagem com OCR: " followed by the detail of the rejection, with the
    empty raw text and the loading flag lowered. *)
Theorem image_error_reports_failure (rm : jsstring) (file : ImageScript)
    (e : jsstring) (st : Machine) :
  image_failure file = Some e ->
  statusMessage (exec (ocrImageFile rm file) st)
  = Some {| text := str "Falha ao processar imagem com OCR: " ++ e; type := error |}
  /\ rawExtractedText (exec (ocrImageFile rm file) st) = []
  /\ isLoading (exec (ocrImageFile rm file) st) = false.
Proof.
  intros H.
  destruct (ocrImageFile_run rm file st) as (_ & S & R & _ & L).
  unfold image_verdict in S, R. rewrite H in S, R.
  split; [exact S | split; [exact R | exact L]].
Qed.

Lemma image_error_reports_failure_witness :
  image_failure unrecognizable_image = Some (str "recognition failed")
  /\ rawExtractedText
       (exec (ocrImageFile [] unrecognizable_image)
          (with_rawExtractedText (str "old text") initial)) = [].
Proof.
  assert (H : image_failure unrecognizable_image = Some (str "recognition failed"))
    by reflexivity.
  split; [exact H |].
  exact (proj1 (proj2 (@image_error_reports_failure [] unrecognizable_image
                         (str "recognition failed")
                         (with_rawExtractedText (str "old text") initial) H))).
Defined.

(** X3.  Besides updating the progress display, a PDF operation does
    exactly what [pdf_notable] lists for the script: the calls up to the
    first one that is rejected and none after it, then on a failure the
    console error, the empty raw text, the error message and the
    termination of the worker if it was created, otherwise the termination
    of the worker, the raw text and the warning or success message; and at
    the end [setIsLoading(false)]. *)
Theorem pdf_operation_follows_script (rm : jsstring) (file : PdfScript)
    (st : Machine) :
  notable (trace (exec (ocrPdfDocument rm file) st))
  = notable (trace st) ++ pdf_notable file.
Proof. exact (proj1 (ocrPdfDocument_run rm file st)). Qed.

(** X4.  The same for an image operation and [image_notable]: a rejected
    creation of the worker is followed by no recognition and no
    termination, a rejected recognition by the termination of the
    worker. *)
Theorem image_operation_follows_script (rm : jsstring) (file : ImageScript)
    (st : Machine) :
  notable (trace (exec (ocrImageFile rm file) st))
  = notable (trace st) ++ image_notable file.
Proof. exact (proj1 (ocrImageFile_run rm file st)). Qed.

(** X5.  A PDF that cannot be read or parsed costs no worker: the only
    calls to pdf.js and Tesseract are [file.arrayBuffer()] and, when the
    bytes were read, [getDocument]; no worker is created or terminated and
    no page is fetched. *)
Theorem unreadable_pdf_allocates_no_worker (rm : jsstring) (file : PdfScript)
    (st : Machine) :
  (exists e, arrayBuffer_settles file = Rejected e)
  \/ (exists e, getDocument_settles file = Rejected e) ->
  calls (trace (exec (ocrPdfDocument rm file) st))
  = calls (trace st)
    ++ match arrayBuffer_settles file with
       | Rejected _ => [EArrayBuffer]
       | Resolved _ => [EArrayBuffer; EGetDocument]
       end.
Proof.
  intros H.
  rewrite <- calls_notable, (proj1 (ocrPdfDocument_run rm file st)).
  rewrite calls_app, calls_notable. f_equal.
  pdf_cases file; cbn [arrayBuffer_settles getDocument_settles] in H;
    try reflexivity;
    destruct H as [[e H]|[e H]]; discriminate H.
Qed.

Lemma unreadable_pdf_allocates_no_worker_witness :
  calls (trace (exec (ocrPdfDocument [] unreadable_pdf) initial)) = [EArrayBuffer].
Proof.
  apply (@unreadable_pdf_allocates_no_worker [] unreadable_pdf initial).
  left. exists (str "read failed"). reflexivity.
Defined.

Lemma own_part_notable (st st' : Machine) (done script : list Effect) :
  trace st' = trace st ++ done ->
  notable (trace st') = notable (trace st) ++ script ->
  notable done = script.
Proof.
  intros Ht Hn. rewrite Ht, notable_app in Hn.
  apply app_inv_head in Hn. exact Hn.
Qed.

(** X6.  The worker of an operation is used only while it lives: in what
    either operation adds to the trace a worker is created at most once,
    [recognize] and [terminate] are called only between its creation and
    its termination, and at the end the worker is terminated if it was
    created.  This holds for every script, so also when a later call is
    rejected, and whatever ran before. *)
Theorem worker_used_only_while_live (rm : jsstring) (pdf : PdfScript)
    (image : ImageScript) (st : Machine) :
  (exists done,
      trace (exec (ocrPdfDocument rm pdf) st) = trace st ++ done
      /\ lifecycle Absent done
         = Some (if pdf_worker_created pdf then Gone else Absent))
  /\ (exists done,
        trace (exec (ocrImageFile rm image) st) = trace st ++ done
        /\ lifecycle Absent done
           = Some (if image_worker_created image then Gone else Absent)).
Proof.
  split.
  - assert (extends (trace st) (exec (ocrPdfDocument rm pdf) st)) as [done Hd]
      by (apply extends_ocrPdfDocument, extends_refl).
    exists done. split; [exact Hd |].
    rewrite <- lifecycle_notable.
    rewrite (@own_part_notable _ _ _ _ Hd (proj1 (ocrPdfDocument_run rm pdf st))).
    apply lifecycle_pdf_notable.
  - assert (extends (trace st) (exec (ocrImageFile rm image) st)) as [done Hd]
      by (apply extends_ocrImageFile, extends_refl).
    exists done. split; [exact Hd |].
    rewrite <- lifecycle_notable.
    rewrite (@own_part_notable _ _ _ _ Hd (proj1 (ocrImageFile_run rm image st))).
    apply lifecycle_image_notable.
Qed.

Lemma paging_pdf_notable (file : PdfScript) :
  exists k b,
    paging 1 false (pdf_notable file) = Some (k, b)
    /\ k <= S (pdf_numPages file)
    /\ (b = true -> k <= pdf_numPages file)
    /\ (pdf_failure file = None -> k = S (pdf_numPages file) /\ b = false).
Proof.
  unfold pdf_numPages. pdf_cases file; cbn [app paging].
  - destruct (paging_pages_calls pages 1) as (k & b & E & L & O & F).
    rewrite paging_app, E. exists k, b.
    split; [| split; [exact L | split; [intros Hb; specialize (O Hb); lia |]]].
    + destruct (pages_failure pages); [reflexivity |].
      destruct (JsString.eqb (JsString.trim (pages_text pages)) []); reflexivity.
    + intros Hf. destruct (F Hf) as [-> ->]. split; reflexivity.
  - exists 1, false.
    split; [reflexivity | split; [lia | split; [discriminate | discriminate]]].
  - exists 1, false.
    split; [reflexivity | split; [lia | split; [discriminate | discriminate]]].
  - exists 1, false.
    split; [reflexivity | split; [lia | split; [discriminate | discriminate]]].
Qed.

Ltac no_getPage H :=
  cbn [app In] in H;
  repeat match type of H with
    | _ \/ _ => destruct H as [H|H]
    end;
  try contradiction; try discriminate H.

Lemma getPage_in_pdf_opening (file : PdfScript) (j : nat) :
  In (EGetPage j) (pdf_opening file) -> 1 <= j <= pdf_numPages file.
Proof.
  unfold pdf_numPages, pdf_opening. destruct file as [ab gd [cm cs]].
  cbn [arrayBuffer_settles getDocument_settles pdf_createWorker create_settles].
  destruct ab as [[]|?]; [destruct gd as [pages|?]; [destruct cs as [[]|?] |] |];
    intros H.
  - destruct H as [H|[H|[H|H]]]; try discriminate H.
    apply getPage_in_pages_calls in H. lia.
  - exfalso. no_getPage H.
  - exfalso. no_getPage H.
  - exfalso. no_getPage H.
Qed.

Lemma getPage_in_pdf_notable (file : PdfScript) (j : nat) :
  In (EGetPage j) (pdf_notable file) -> 1 <= j <= pdf_numPages file.
Proof.
  unfold pdf_notable. intros H. apply in_app_or in H. destruct H as [H|H].
  - apply getPage_in_pdf_opening, H.
  - exfalso. apply in_app_or in H. destruct H as [H|H]; [| no_getPage H].
    destruct (pdf_failure file).
    + unfold pdf_caught in H. destruct (pdf_worker_created file); no_getPage H.
    + unfold pdf_finished in H.
      destruct (JsString.eqb (JsString.trim (pdf_text file)) []); no_getPage H.
Qed.

(** X7.  The pages of a PDF are processed in order and one at a time: in
    what the operation adds to the trace, page 1 is fetched first, a page
    is rendered and cleaned up only while it is the one being processed,
    and page [i + 1] is fetched only after the cleanup of page [i].  Every
    page that is fetched is one of the pages 1, .., [numPages], and when
    nothing fails every page was processed and none is left without its
    cleanup. *)
Theorem pages_processed_in_order (rm : jsstring) (file : PdfScript)
    (st : Machine) :
  exists done,
    trace (exec (ocrPdfDocument rm file) st) = trace st ++ done
    /\ (exists k b,
          paging 1 false done = Some (k, b)
          /\ k <= S (pdf_numPages file)
          /\ (b = true -> k <= pdf_numPages file)
          /\ (pdf_failure file = None -> k = S (pdf_numPages file) /\ b = false))
    /\ (forall i, In (EGetPage i) done -> 1 <= i <= pdf_numPages file).
Proof.
  assert (extends (trace st) (exec (ocrPdfDocument rm file) st)) as [done Hd]
    by (apply extends_ocrPdfDocument, extends_refl).
  pose proof (@own_part_notable _ _ _ _ Hd (proj1 (ocrPdfDocument_run rm file st))) as N.
  exists done. split; [exact Hd | split].
  - rewrite <- paging_notable, N. apply paging_pdf_notable.
  - intros i H. apply getPage_in_pdf_notable. rewrite <- N.
    unfold notable. apply filter_In. split; [exact H | reflexivity].
Qed.

(** X8.  When no call of a PDF operation is rejected, every page is
    fetched, rendered, recognised and cleaned up exactly once, in the order
    1, .., [numPages], and these are all the page calls of the operation. *)
Theorem readable_pdf_processes_every_page (rm : jsstring) (file : PdfScript)
    (doc : list PageScript) (st : Machine) :
  getDocument_settles file = Resolved doc ->
  pdf_failure file = None ->
  page_events (trace (exec (ocrPdfDocument rm file) st))
  = page_events (trace st)
    ++ flat_map page_round (seq 1 (List.length doc)).
Proof.
  intros Hd Hf.
  rewrite <- page_events_notable, (proj1 (ocrPdfDocument_run rm file st)).
  rewrite page_events_app, page_events_notable. f_equal.
  revert Hd Hf. pdf_cases file; intros Hd Hf; try discriminate.
  injection Hd as <-.
  rewrite Hf. cbn [app]. unfold page_events. cbn [filter is_page_effect].
  rewrite filter_app. fold (page_events (pages_calls 1 pages)).
  rewrite (page_events_pages_calls pages 1 Hf).
  destruct (JsString.eqb (JsString.trim (pages_text pages)) []);
    cbn [filter is_page_effect app]; rewrite app_nil_r; reflexivity.
Qed.

Lemma readable_pdf_processes_every_page_witness :
  page_events
    (trace (exec (ocrPdfDocument []
                    (readable_pdf [] [([], str "Alpha"); ([], str "Beta")]))
              initial))
  = [EGetPage 1; ERender 1; ERecognize; ECleanup 1;
     EGetPage 2; ERender 2; ERecognize; ECleanup 2].
Proof.
  apply (@readable_pdf_processes_every_page []
           (readable_pdf [] [([], str "Alpha"); ([], str "Beta")])
           (map readable_page [([], str "Alpha"); ([], str "Beta")]) initial);
    reflexivity.
Defined.

(** X9.  After [handleFile] has run for a file, the status message
    announces a success exactly when the raw extracted text is not empty:
    a success is never shown over an empty text, and a text is never shown
    under a warning or an error.  This holds for every file and every
    script. *)
Theorem success_shown_iff_text_extracted (rm : jsstring) (f : File)
    (content : FileScript) (st : Machine) :
  outcome (handleFile rm (Some f) content st) = Some success
  <-> rawExtractedText (handleFile rm (Some f) content st) <> [].
Proof.
  destruct (handleFile_run rm f content st) as (_ & S & R & _).
  unfold outcome. rewrite S, R. cbn [option_map].
  rewrite <- file_verdict_success. split; [intros H; injection H; trivial |].
  intros ->. reflexivity.
Qed.

(** X10.  For every file, [handleFile] raises the loading flag once and
    lowers it once, in this order, and leaves it lowered: an operation
    that fails does not leave the application loading. *)
Theorem loading_raised_then_lowered (rm : jsstring) (f : File)
    (content : FileScript) (st : Machine) :
  loading_calls (trace (handleFile rm (Some f) content st))
  = loading_calls (trace st) ++ [true; false]
  /\ isLoading (handleFile rm (Some f) content st) = false.
Proof.
  destruct (handleFile_run rm f content st) as (N & _ & _ & _ & L).
  split; [| exact L].
  rewrite <- loading_calls_notable, N, loading_calls_app, loading_calls_notable.
  f_equal. unfold file_notable. rewrite loading_calls_app.
  destruct (JsString.eqb (file_type f) (str "application/pdf"));
    [rewrite loading_calls_pdf_notable; reflexivity |].
  destruct (JsString.startsWith (file_type f) (str "image/"));
    [rewrite loading_calls_image_notable; reflexivity | reflexivity].
Qed.



(** X12.  An operation itself calls [clearStatusMessageAfterDelay] only
    when it ends in a success, and then once with the default delay: for a
    warning or an error it arms no timer of its own.  (The timer that
    [handleFile] arms when it accepts the file, and the status bar, are not
    part of the operation.) *)
Theorem only_success_scheduled_for_clearing (rm : jsstring) (pdf : PdfScript)
    (image : ImageScript) (st : Machine) :
  status_timers (trace (exec (ocrPdfDocument rm pdf) st))
  = status_timers (trace st)
    ++ match outcome (exec (ocrPdfDocument rm pdf) st) with
       | Some success => [None]
       | _ => []
       end
  /\ status_timers (trace (exec (ocrImageFile rm image) st))
     = status_timers (trace st)
       ++ match outcome (exec (ocrImageFile rm image) st) with
          | Some success => [None]
          | _ => []
          end.
Proof.
  split.
  - destruct (ocrPdfDocument_run rm pdf st) as (N & S & _).
    unfold outcome. rewrite S. cbn [option_map].
    rewrite <- status_timers_notable, N, status_timers_app, status_timers_notable.
    f_equal. rewrite status_timers_pdf_notable.
    destruct (type (fst (pdf_verdict pdf))); reflexivity.
  - destruct (ocrImageFile_run rm image st) as (N & S & _).
    unfold outcome. rewrite S. cbn [option_map].
    rewrite <- status_timers_notable, N, status_timers_app, status_timers_notable.
    f_equal. rewrite status_timers_image_notable.
    destruct (type (fst (image_verdict image))); reflexivity.
Qed.

(** X13.  Dropping files and choosing them in the file dialog treat the
    first file alike: although [onDrop] runs the [handleFile] of the first
    render and [onFileChange] that of the latest one, both end with the same
    status message, raw text, current file and loading flag, do the same
    besides updating the progress display, and both empty the file input. *)
Theorem drop_and_choose_agree (first : File * FileScript)
    (others : list (File * FileScript)) (c : Component) :
  notable (trace (machine (onDrop (Some (first :: others)) c)))
  = notable (trace (machine (onFileChange (Some (first :: others)) c)))
  /\ statusMessage (machine (onDrop (Some (first :: others)) c))
     = statusMessage (machine (onFileChange (Some (first :: others)) c))
  /\ rawExtractedText (machine (onDrop (Some (first :: others)) c))
     = rawExtractedText (machine (onFileChange (Some (first :: others)) c))
  /\ currentFile (machine (onDrop (Some (first :: others)) c))
     = currentFile (machine (onFileChange (Some (first :: others)) c))
  /\ isLoading (machine (onDrop (Some (first :: others)) c))
     = isLoading (machine (onFileChange (Some (first :: others)) c))
  /\ fileInput (onDrop (Some (first :: others)) c)
     = fileInput (onFileChange (Some (first :: others)) c).
Proof.
  destruct first as [f content].
  unfold onDrop, onFileChange, handle. cbn [machine fileInput nth_error].
  destruct (handleFile_run [] f content (machine c)) as (N1 & S1 & R1 & C1 & L1).
  destruct (handleFile_run (processingMessage (machine c)) f content (machine c))
    as (N2 & S2 & R2 & C2 & L2).
  rewrite N1, N2, S1, S2, R1, R2, C1, C2, L1, L2. repeat split.
Qed.

(* ===================================================================== *)
(** ** The progress values stay within the bar *)
(* ===================================================================== *)




Lemma round_Z_lower (q : Q) (k : Z) :
  (inject_Z k <= q)%Q -> (k <= JsNumber.round_Z q)%Z.
Proof. intros H. rewrite <- (round_Z_inject_Z k). apply round_Z_le, H. Qed.










(** *** The last page ends at 100 *)



(** *** The value set when the rendering of a page starts *)









(** The values of the code on some pages, as binary64 gives them. *)
Example binary64_values :
  processingProgress (start_page 12 3 (set_ref (parsed_ref 12) initial))
  = JsNumber.of_Z 17
  /\ JsNumber.add (base_of_page 12 3)
       (JsNumber.mul (pageBudget (parsed_ref 12)) (JsNumber.lit (1 # 10)))
     = JsNumber.lit (17499999999999996 # 1000000000000000)
  /\ image_overall (JsNumber.lit (15 # 1000)) = JsNumber.of_Z 2
  /\ JsNumber.lit (1 # 10)
     = JsNumber.Num (3602879701896397 # 36028797018963968).
Proof. repeat split; vm_compute; reflexivity. Qed.

(* ===================================================================== *)
(** ** Messages the loggers ignore, and blank pages *)
(* ===================================================================== *)

Lemma blank_joined (pages : list (list TesseractProgressUpdate * jsstring)) :
  blank (joined pages) <-> Forall (fun p => blank (snd p)) pages.
Proof.
  unfold joined, blank.
  induction pages as [|p rest IH]; cbn [map List.concat].
  - split; intros _; constructor.
  - rewrite !Forall_app, IH. split.
    + intros [[Hp _] Hr]. constructor; assumption.
    + intros H. inversion H as [|? ? Hp Hr]. subst.
      split; [split; [exact Hp | repeat constructor] | exact Hr].
Qed.

(** X16.  A message that tells that a step has finished does not touch
    the display: both loggers leave the state as it is for the statuses
    "initialized api" and "loaded language traineddata", for a
    "recognizing text" message without a progress, and for every other
    status whose progress is not below 1. *)
Theorem loggers_ignore_finished_steps (rm : jsstring)
    (m : TesseractProgressUpdate) (st : Machine) :
  status m = str "initialized api"
  \/ status m = str "loaded language traineddata"
  \/ (status m = str "recognizing text" /\ progress m = None)
  \/ (status m <> str "recognizing text"
      /\ JsNumber.ltb (JsNumber.or_zero (progress m)) one = false) ->
  imageOcrLogger rm m st = st /\ pageAwarePdfOcrLogger rm m st = st.
Proof.
  destruct m as [s p]. cbn [status progress].
  unfold imageOcrLogger, pageAwarePdfOcrLogger. cbn [status progress].
  intros [-> | [-> | [[-> ->] | [Hs Hp]]]].
  - change (JsString.eqb (str "initialized api") (str "recognizing text"))
      with false.
    change (is_loading_status (str "initialized api")) with false.
    change (JsString.eqb (str "initialized api") (str "initialized api"))
      with true.
    cbn [negb andb]. destruct p; split; reflexivity.
  - change (JsString.eqb (str "loaded language traineddata")
              (str "recognizing text")) with false.
    change (is_loading_status (str "loaded language traineddata")) with false.
    change (JsString.eqb (str "loaded language traineddata")
              (str "loaded language traineddata")) with true.
    cbn [negb andb]. rewrite !andb_false_r. destruct p; split; reflexivity.
  - change (JsString.eqb (str "recognizing text") (str "recognizing text"))
      with true.
    change (is_loading_status (str "recognizing text")) with false.
    cbn [negb]. split;
      match goal with |- (if ?b then _ else _) = _ => destruct b end; reflexivity.
  - assert (JsString.eqb s (str "recognizing text") = false) as ->.
    { destruct (JsString.eqb s (str "recognizing text")) eqn:E; [| reflexivity].
      apply eqb_eq in E. contradiction. }
    rewrite Hp, !andb_false_r.
    destruct p; destruct (is_loading_status s); split; reflexivity.
Qed.

Lemma loggers_ignore_finished_steps_witness :
  pageAwarePdfOcrLogger (str "shown")
    {| status := str "initialized api"; progress := Some (JsNumber.Num 1) |}
    (start_page 3 2 (set_ref (parsed_ref 3) initial))
  = start_page 3 2 (set_ref (parsed_ref 3) initial).
Proof.
  apply (@loggers_ignore_finished_steps (str "shown")
           {| status := str "initialized api"; progress := Some (JsNumber.Num 1) |}
           (start_page 3 2 (set_ref (parsed_ref 3) initial))).
  left. reflexivity.
Defined.

(** X17.  A PDF whose every call resolves ends with the warning that no
    text was detected exactly when the text of every page consists of
    whitespace only; a single page with other text makes it a success. *)
Theorem warning_iff_every_page_blank (rm : jsstring)
    (init : list TesseractProgressUpdate)
    (pages : list (list TesseractProgressUpdate * jsstring)) (st : Machine) :
  (outcome (exec (ocrPdfDocument rm (readable_pdf init pages)) st) = Some warning
   <-> Forall (fun p => blank (snd p)) pages)
  /\ (outcome (exec (ocrPdfDocument rm (readable_pdf init pages)) st) = Some success
      <-> ~ Forall (fun p => blank (snd p)) pages).
Proof.
  destruct (ocrPdfDocument_readable rm init pages st) as (_ & _ & O).
  rewrite O, <- blank_joined, <- trim_nil_iff.
  destruct (JsString.eqb (JsString.trim (joined pages)) []) eqn:E.
  - apply eqb_eq in E. split; split; try discriminate; try contradiction; trivial.
  - assert (JsString.trim (joined pages) <> []) as N.
    { intros H. apply eqb_eq in H. congruence. }
    split; split; try discriminate; try contradiction; trivial.
Qed.

(* ===================================================================== *)
(** ** Removing the file during the recognition *)
(* ===================================================================== *)

(** X18.  Removing the file while its image is recognised, the worker
    being created, does not cancel the operation.  After the removal no file is current and the loading
    flag is still raised; when the recognition then resolves with a text
    that is not blank, the operation writes that text and its success
    message although no file is current, and lowers the loading flag. *)
Theorem removal_does_not_cancel_recognition (rm : jsstring) (f : File)
    (file : ImageScript) (resultText : jsstring) (c : Component) :
  create_settles (image_createWorker file) = Resolved tt ->
  recognize_settles (image_recognize file) = Resolved resultText ->
  ~ blank resultText ->
  currentFile
    (machine
       (removeFile
          {| machine := image_until_recognize rm file (accept_file f (machine c));
             isDragging := isDragging c; fileInput := fileInput c |})) = None
  /\ isLoading
       (machine
          (removeFile
             {| machine := image_until_recognize rm file (accept_file f (machine c));
                isDragging := isDragging c; fileInput := fileInput c |})) = true
  /\ currentFile
       (exec (image_from_recognize rm file)
          (machine
             (removeFile
                {| machine := image_until_recognize rm file (accept_file f (machine c));
                   isDragging := isDragging c; fileInput := fileInput c |}))) = None
  /\ rawExtractedText
       (exec (image_from_recognize rm file)
          (machine
             (removeFile
                {| machine := image_until_recognize rm file (accept_file f (machine c));
                   isDragging := isDragging c; fileInput := fileInput c |})))
     = resultText
  /\ outcome
       (exec (image_from_recognize rm file)
          (machine
             (removeFile
                {| machine := image_until_recognize rm file (accept_file f (machine c));
                   isDragging := isDragging c; fileInput := fileInput c |})))
     = Some success
  /\ isLoading
       (exec (image_from_recognize rm file)
          (machine
             (removeFile
                {| machine := image_until_recognize rm file (accept_file f (machine c));
                   isDragging := isDragging c; fileInput := fileInput c |}))) = false.
Proof.
  intros _ Hr Hb.
  assert (JsString.eqb (JsString.trim resultText) [] = false) as E.
  { destruct (JsString.eqb (JsString.trim resultText) []) eqn:E; [| reflexivity].
    exfalso. apply Hb, trim_nil_iff, eqb_eq, E. }
  unfold removeFile. cbn [machine fileInput isDragging].
  set (s0 := image_until_recognize rm file (accept_file f (machine c))).
  assert (isLoading s0 = true) as L0.
  { unfold s0, image_until_recognize. cbn [isLoading record set_worker].
    rewrite (ds_loading (@display_deliver _ _ (display_imageOcrLogger rm) _)).
    reflexivity. }
  split; [reflexivity | split; [exact L0 |]].
  set (s1 := clearStatusMessageAfterDelay None
               (setStatusMessage {| text := str "Arquivo removido."; type := info |}
                  (setRawExtractedText [] (setCurrentFile None s0)))).
  set (s2 := deliver (imageOcrLogger rm) (recognize_messages (image_recognize file)) s1).
  assert (currentFile s2 = None) as C2.
  { unfold s2. rewrite (ds_file (@display_deliver _ _ (display_imageOcrLogger rm) _)).
    reflexivity. }
  destruct (image_finish_run resultText s2) as (s3 & E3 & _ & S3 & R3 & C3 & _).
  rewrite E in S3, R3.
  assert (exec (image_from_recognize rm file) s1 = exec image_finally s3) as ->.
  { unfold image_from_recognize. apply exec_try_normal.
    unfold bind, act, await. rewrite Hr. fold s2. exact E3. }
  rewrite exec_image_finally.
  split; [| split; [| split; [| reflexivity]]].
  - transitivity (currentFile s3); [reflexivity | rewrite C3; exact C2].
  - transitivity (rawExtractedText s3); [reflexivity | exact R3].
  - unfold outcome. transitivity (option_map type (statusMessage s3)); [reflexivity |].
    rewrite S3. reflexivity.
Qed.

Lemma removal_does_not_cancel_recognition_witness :
  ~ blank (str "Alpha" ++ [10%N])
  /\ rawExtractedText
       (exec (image_from_recognize [] one_line_image)
          (machine
             (removeFile
                {| machine := image_until_recognize [] one_line_image
                                (accept_file png_file initial);
                   isDragging := false; fileInput := Some (str "scan.png") |})))
     = str "Alpha" ++ [10%N].
Proof.
  assert (~ blank (str "Alpha" ++ [10%N])) as Hb.
  { intros H. apply Forall_inv in H. vm_compute in H. discriminate H. }
  assert (recognize_settles (image_recognize one_line_image)
          = Resolved (str "Alpha" ++ [10%N])) as Hr by reflexivity.
  assert (create_settles (image_createWorker one_line_image) = Resolved tt) as Hc
    by reflexivity.
  split; [exact Hb |].
  exact (proj1 (proj2 (proj2 (proj2
           (@removal_does_not_cancel_recognition [] png_file one_line_image
              (str "Alpha" ++ [10%N])
              {| machine := initial; isDragging := false;
                 fileInput := Some (str "scan.png") |} Hc Hr Hb))))).
Defined.
